(* ===== verification/_CoqProject ===== *)
-Q . S2P
Prelude.v
GoRuntime.v
ReportData.v
TextReporter.v
Legend.v
ProgressBar.v
Progress.v
Legacy.v
GoFmt.v
Output.v
Render.v
LineSpec.v
Scheduler.v
Examples.v
TwoTasks.v
