(* ===== verification/Prelude.v ===== *)
(** * gopv: a verification development of the progress tracker

    The program.  gopv (github.com/pavel-krush/gopv) tracks the progress of a
    long-running task.  Three parts interact:
    - the counter, [Progress] (src/unnamed/part_002, the current gopv.go; the
      older revision src/gopv.go differs only in its [Start]): a fixed
      [total], an [int64] counter [done] bumped by [Add] with
      [atomic.AddInt64], and the bookkeeping [lastReportedDone] and
      [lastReportedAt] that [Report] rewrites after every snapshot;
    - the scheduler, the goroutine that [StartChan] (and [StartCtx], and the
      old [Start]) launches: one report at once, then a [select] between the
      cancellation channel and [time.After(reportTime)], and on cancellation
      [Finalize] of the reporter followed by [close(doneCh)];
    - the reporter, the interface [Reporter] of src/unnamed/part_003 with the
      text reporter as its implementation: builders that clone the whole
      struct, a legend compiled once by sixteen [strings.ReplaceAll] calls
      into a [fmt] format, a progress bar, [fmt.Sprintf] of fifteen
      operands, and a [bufio.Writer] over the output.
    The scheduler calls the reporter through the interface only; the text
    reporter calls [fmt], [time], [strings] and [bufio].

    The library, in dependency order (each file opens with what it holds):
    - [Prelude] (this file): the scope [gopv_scope], two's-complement
      wrap-around [wrap64] of Go's [int64] with its lemmas, the hint
      database [gopv], the tactics and string and list lemmas the
      components share.
    - [GoRuntime]: Go's [int64] arithmetic that wraps, [float64] as Rocq's
      primitive binary64 floats, [float64(int64)] and [int64(float64)]
      (amd64: 0x8000000000000000 out of range), [time.Duration] with
      [Seconds] and [Minutes], [time.Time] with its saturating [Sub],
      [strings.Repeat] (panics on a negative count), [strings.ReplaceAll].
    - [ReportData]: [type Report struct] and [type Reporter interface]; the
      interface is a class whose methods return the new state and whether
      they panicked (a Go panic keeps the mutations made before it).
    - [TextReporter]: [type TextReporter struct], its constants,
      [NewTextReporter], [clone] and the four [With...] builders.
    - [Legend] (Module [Legend]): [compileLegend] as the sixteen
      replacements of the source, a one-pass reference compiler over a
      lexer of placeholders, and their equivalence on every legend.
    - [ProgressBar] (Module [ProgressBar]): [renderProgressBar], its shape
      and its panic on overflow.
    - [Progress] (Module [Progress]): [New], [WithReporter],
      [NewTextWithLegend], [Add], [Report], [Done]; every field of a
      snapshot; the wrap-around of the estimated time left.
    - [Legacy] (Module [Legacy]): the counter of the older revision
      src/gopv.go (no [doneCh]), translated on its own, and the proof that
      the current revision computes the same once [doneCh] is forgotten.
    - [GoFmt]: the Go library functions the text reporter formats with:
      [Duration.String], [Duration.Round], [Time.Format] for the layout
      ["2006-01-02 03:04:05"], [%.Nf] and [%v] of a [float64] (on the exact
      value of the float), and [fmt.Sprintf]'s [doPrintf] (flags, [[n]]
      argument indices, width and precision with [*], [%!(BADINDEX)],
      [%!(MISSING)], [%!(NOVERB)], [%!(EXTRA ...)], bad verbs).
    - [Output] (Module [Output]): [bufio.Writer] with its 4096-byte buffer,
      [WriteString]'s loop, [Flush] and the sticky error; a store of
      writers (pointers shared by clones) and a world of output handles;
      the refinement of "write then flush" by "append to the handle".
    - [Render] (Module [Render]): [TextReporter.Report], [Finalize],
      [writeString] and [flush] over the store and the world, and the
      [Reporter] instance of the text reporter; their output on healthy
      and failed writers; end-to-end scenarios from [Progress] to the
      bytes on [os.Stderr].
    - [LineSpec] (Module [LineSpec]): the spec's table of placeholders as
      a specification of the line ([line_spec]), and the proof that
      [compileLegend] followed by [fmt.Sprintf] prints it, through the
      verb parser reading back the indices and the precision.
    - [Scheduler] (Module [Scheduler]): the goroutine of [StartChan] (and
      of the old [Start]) as a step relation over the counter, the clock,
      the cancellation, the closed channels, the goroutine's program
      counter (Idle, Init, Loop, Select, Finalize, Close, Exited, Crashed)
      and the trace; producers' [Add]s interleave as steps.
    - [Examples] (Module [Examples]): the example programs (part_000,
      src/examples/01-simple and the README's snippets) as a tracker, a
      start, and the statements of the main goroutine, run against the
      scheduler's steps.
    - [TwoTasks] (Module [TwoTasks]): the second program of part_000,
      [fmt.Println] on [os.Stdout] and [task()] twice in sequence, the
      heap of writers and handles passed from one task to the next.

    What the theorems show.  Scheduler: [Finalize] runs once and before
    [close(doneCh)], and no report follows it; every report counts
    exactly the [Add]s before it; reports are spaced by [reportTime];
    cancellation completes for any reporter that does not panic; for
    every counter, a report can follow the cancellation; the old [Start]
    never finalizes.  Progress: the sum of any sequence of [Add]s, and
    the ETA, exact exactly when [secs * 10^9] fits in an [int64].
    ProgressBar: the bar's shape and its panic.  Legend: equivalence
    with the one-pass compiler; the undocumented ["{float_precision}"]
    expanded wherever it stands.  LineSpec: the line [Report] formats
    is the legend with each placeholder replaced by its field's text,
    for any report, when the legend's percent signs are doubled and the
    precision is one [fmt] reads (0 to 10^6; [fmt]'s [tooLarge] stops a
    number beyond that); a negative precision garbles the line.  GoFmt:
    [fmtInt] reads back; [Time.Format]'s layout loses AM/PM.  Output:
    bufio's chunking is invisible on a healthy handle.  Render: the bytes
    one [Report] or [Finalize] puts on the handle, nothing after a write
    error, preparation on the first report only, builders ignored after
    it, a panic of the bar before anything is written whatever the
    legend, a new writer for every report of an empty legend; the
    reporter stays well formed against its heap (type invariant), and
    then [Report] panics only in the progress bar.  Examples: in every
    example program the counter is the number of iterations done and
    the snapshots stay in bounds under any interleaving.  TwoTasks:
    whatever the text reporter does it only appends to its output
    handle, so in the second program the two [Println] lines reach
    [os.Stdout] in order, and everything the first tracker writes, its
    [Finalize] included, precedes the second's on [os.Stderr].
    Liveness: with the text reporter, every point the reporting
    goroutine can reach keeps an invariant ([live_inv]: a well-formed
    reporter, a writer once it has reported, [doneCh] closed exactly
    when it has returned), from which, after [cancel()], it always
    reaches [close(doneCh)]; so whatever prefix of [task()] has run
    under whatever interleaving, the rest can still run to the end.

    Bounds and fuel.  Every loop of the Go code and library is a
    [Fixpoint] with fuel, and where the fuel matters it is proved enough
    (lemmas about the model itself, not properties of gopv).
    [fmtInt] gets one round per bit of its argument: [fmtInt_roundtrip]
    shows its digits read back as the number.  [Sprintf]'s loop gets one
    round per byte of the format plus one; every round consumes the ['%']
    and the parsers return suffixes, so [Sprintf_fuel_enough] shows that
    more fuel changes nothing.  [WriteString]'s loop gets one round per
    byte plus one; a round either stops, or consumes bytes, or empties a
    full buffer, so [WriteString_fuel_enough] shows the same.  [parsenum]
    gets one round per byte and returns a suffix.  The shortest-digits
    search of [%v] starts at 10^310, above any float, and tries 700
    exponents, more than the 310 + 324 decimal exponents of binary64;
    that bound is argued here and checked on the witnesses, not proved.

    Modelling choices.  Go's [int] and [int64] are [Z] kept in range by
    [wrap64] wherever the code can overflow; the platform is 64-bit amd64.
    [float64] is [PrimFloat.float]: results on concrete inputs are the
    hardware's.  [time.Time] is an absolute nanosecond count and an
    optional monotonic reading; [time.Local] is a zone at a fixed offset
    [tz].  An [io.Writer] is a handle of the world; a write to it succeeds
    or fails as a whole.  The leaves of [fmt] that no compiled legend can
    reach ([%x], [%e], [%q], width padding, flags on strings ...) are a
    parameter [fmt_other] of the rendering: every theorem holds for every
    choice of it.  The package variable [DefaultReportTime] is the
    constant [time.Second]: nothing in the repository assigns it.  A
    panic that reaches the top of the reporting goroutine ends it
    ([GCrashed]); the model lets the main goroutine's statements go on,
    whereas Go would end the process: this only matters on panic paths,
    which the theorems either exclude or follow to that point.  Nothing
    is assumed: no axiom beyond the Standard Library's primitive floats.

    What is not modelled: the prose and installation notes of the README
    (part_001; its two snippets, as example programs, and its
    placeholder table are);
    fairness of Go's scheduler: the liveness theorems show that a run to
    the end exists from every reachable point, not that every schedule
    takes one (a scheduler that never runs the goroutine starves it);
    the data race of a caller's [Progress.Report] against the goroutine's (the
    model runs each call as one step); [time.Now] and the scheduler's
    timer, which are inputs of the steps. *)

From Stdlib Require Import ZArith List String Ascii Bool Lia.
Import ListNotations.

Declare Scope gopv_scope.
Delimit Scope gopv_scope with gopv.

Create HintDb gopv.
Create Rewrite HintDb gopv_rw.

Local Open Scope Z_scope.

(** ** Go's 64-bit two's-complement integers *)

Definition int64_min : Z := - 2 ^ 63.
Definition int64_max : Z := 2 ^ 63 - 1.

(** [wrap64 z] is the [int64] that the machine holds after computing [z]
    exactly: the representative of [z] modulo [2^64] in [[-2^63, 2^63)]. *)
Definition wrap64 (z : Z) : Z := (z + 2 ^ 63) mod 2 ^ 64 - 2 ^ 63.

Definition in_int64 (z : Z) : Prop := int64_min <= z <= int64_max.

Definition in_int64b (z : Z) : bool := (int64_min <=? z) && (z <=? int64_max).

Notation "'i64[' z ']'" := (wrap64 z) (format "i64[ z ]") : gopv_scope.

Lemma in_int64b_spec z : in_int64b z = true <-> in_int64 z.
Proof.
  unfold in_int64b, in_int64. rewrite andb_true_iff, !Z.leb_le. tauto.
Qed.

Lemma wrap64_range z : in_int64 (wrap64 z).
Proof.
  unfold in_int64, wrap64, int64_min, int64_max.
  pose proof (Z.mod_pos_bound (z + 2 ^ 63) (2 ^ 64) ltac:(lia)). lia.
Qed.

Lemma wrap64_small z : in_int64 z -> wrap64 z = z.
Proof.
  unfold in_int64, wrap64, int64_min, int64_max. intros H.
  rewrite Z.mod_small by lia. lia.
Qed.

Lemma wrap64_idem z : wrap64 (wrap64 z) = wrap64 z.
Proof. apply wrap64_small, wrap64_range. Qed.

Lemma wrap64_mod a : wrap64 a mod 2 ^ 64 = a mod 2 ^ 64.
Proof.
  unfold wrap64. rewrite Zminus_mod_idemp_l. f_equal. lia.
Qed.

Lemma wrap64_eq_mod a b : wrap64 a = wrap64 b <-> a mod 2 ^ 64 = b mod 2 ^ 64.
Proof.
  split; intros H.
  - now rewrite <- wrap64_mod, H, wrap64_mod.
  - unfold wrap64. f_equal. now rewrite Zplus_mod, H, <- Zplus_mod.
Qed.

Lemma wrap64_add_l a b : wrap64 (wrap64 a + b) = wrap64 (a + b).
Proof.
  apply wrap64_eq_mod. now rewrite Zplus_mod, wrap64_mod, <- Zplus_mod.
Qed.

Lemma wrap64_add_r a b : wrap64 (a + wrap64 b) = wrap64 (a + b).
Proof. rewrite (Z.add_comm a), wrap64_add_l. f_equal. lia. Qed.

Lemma wrap64_sub_r a b : wrap64 (a - wrap64 b) = wrap64 (a - b).
Proof.
  apply wrap64_eq_mod. now rewrite Zminus_mod, wrap64_mod, <- Zminus_mod.
Qed.

#[export] Hint Resolve wrap64_range : gopv.
#[export] Hint Rewrite wrap64_idem wrap64_add_l wrap64_add_r wrap64_sub_r : gopv_rw.

(** [wrap64_small] discharged by [lia] after unfolding the bounds. *)
Ltac wrap64_small_tac :=
  rewrite ?wrap64_small by (unfold in_int64, int64_min, int64_max in *; lia).

(** Go's [/] and [%] on signed integers truncate towards zero. *)
Definition go_div (a b : Z) : Z := Z.quot a b.
Definition go_rem (a b : Z) : Z := Z.rem a b.

(** ** Lists *)

Definition sum_list (l : list Z) : Z := fold_right Z.add 0 l.

Lemma sum_list_app l1 l2 : sum_list (l1 ++ l2) = sum_list l1 + sum_list l2.
Proof. induction l1 as [|x l1 IH]; simpl; lia. Qed.

#[export] Hint Rewrite sum_list_app : gopv_rw.

(** A list of counts: [count_occ] for a predicate given as a boolean. *)
Definition count_if {A} (f : A -> bool) (l : list A) : nat :=
  List.length (filter f l).

Lemma count_if_app {A} (f : A -> bool) l1 l2 :
  count_if f (l1 ++ l2) = (count_if f l1 + count_if f l2)%nat.
Proof. unfold count_if. now rewrite filter_app, length_app. Qed.

#[export] Hint Rewrite @count_if_app : gopv_rw.

(** ** Strings *)

Local Open Scope string_scope.

Lemma str_length_app (s1 s2 : string) :
  String.length (s1 ++ s2) = (String.length s1 + String.length s2)%nat.
Proof. induction s1 as [|c s1 IH]; simpl; congruence. Qed.

Lemma str_app_assoc (s1 s2 s3 : string) : s1 ++ (s2 ++ s3) = (s1 ++ s2) ++ s3.
Proof. induction s1 as [|c s1 IH]; simpl; congruence. Qed.

Lemma str_app_nil_r (s : string) : s ++ "" = s.
Proof. induction s as [|c s IH]; simpl; congruence. Qed.

Lemma prefix_nil (s : string) : String.prefix "" s = true.
Proof. now destruct s. Qed.

Lemma prefix_app_self (p s : string) : String.prefix p (p ++ s) = true.
Proof.
  induction p as [|c p IH]; simpl; [apply prefix_nil|].
  destruct (ascii_dec c c); [exact IH | congruence].
Qed.

(** A prefix test against [a ++ b] decided on [a] alone when [p] is not
    longer than [a]. *)
Lemma prefix_app_long (p a b : string) :
  (String.length p <= String.length a)%nat ->
  String.prefix p (a ++ b) = String.prefix p a.
Proof.
  revert a. induction p as [|c p IH]; intros [|c' a] H; simpl in *;
    rewrite ?prefix_nil; try lia; auto.
  destruct (ascii_dec c c'); [apply IH; lia | reflexivity].
Qed.

(** When [p] is longer than [a], a match of [p] against [a ++ b] makes [a]
    a prefix of [p]. *)
Lemma prefix_app_short (p a b : string) :
  (String.length a < String.length p)%nat ->
  String.prefix p (a ++ b) = true -> String.prefix a p = true.
Proof.
  revert p. induction a as [|c a IH]; intros [|c' p] H Hp; simpl in *;
    rewrite ?prefix_nil; try lia; auto.
  destruct (ascii_dec c' c) as [->|]; [|discriminate].
  destruct (ascii_dec c c); [apply IH; [lia|exact Hp] | congruence].
Qed.

Lemma prefix_length (p s : string) :
  String.prefix p s = true -> (String.length p <= String.length s)%nat.
Proof.
  revert s. induction p as [|c p IH]; intros [|c' s] H; simpl in *; try lia; try discriminate.
  destruct (ascii_dec c c'); [apply IH in H; lia | discriminate].
Qed.

#[export] Hint Rewrite str_length_app str_app_nil_r : gopv_rw.

Lemma prefix_cons (c c' : ascii) (q r : string) :
  String.prefix (String c q) (String c' r) = true -> c = c' /\ String.prefix q r = true.
Proof. simpl. destruct (ascii_dec c c'); [tauto | discriminate]. Qed.

Lemma prefix_spec (p s : string) :
  String.prefix p s = true -> exists rest, s = p ++ rest.
Proof.
  revert s. induction p as [|c p IH]; intros s H; [now exists s|].
  destruct s as [|c' s]; [discriminate|].
  apply prefix_cons in H as [-> H]. destruct (IH s H) as [rest ->]. now exists rest.
Qed.

Lemma prefix_app_cancel (a q b : string) :
  String.prefix (a ++ q) (a ++ b) = String.prefix q b.
Proof.
  induction a as [|c a IH]; [reflexivity|]. simpl.
  destruct (ascii_dec c c); [exact IH | congruence].
Qed.

(** A match of [q] against [a ++ b] that goes past [a] continues into [b]. *)
Lemma prefix_app_inv (q a b : string) :
  String.prefix q (a ++ b) = true -> (String.length a < String.length q)%nat ->
  exists q', q = a ++ q' /\ String.prefix q' b = true.
Proof.
  intros H Hl. pose proof (prefix_app_short q a b Hl H) as Ha.
  destruct (prefix_spec a q Ha) as [q' ->]. exists q'. split; [reflexivity|].
  now rewrite prefix_app_cancel in H.
Qed.

(** A boolean test over [0 .. n-1], evaluated once, read at each index. *)
Lemma forallb_seq (f : nat -> bool) (n : nat) :
  forallb f (seq 0 n) = true -> forall i, (i < n)%nat -> f i = true.
Proof.
  intros H i Hi. rewrite forallb_forall in H. apply H, in_seq. lia.
Qed.

Lemma prefix_cons_neq (c c' : ascii) (q r : string) :
  c <> c' -> String.prefix (String c q) (String c' r) = false.
Proof. intros H. simpl. destruct (ascii_dec c c'); [contradiction|reflexivity]. Qed.

Lemma substring_full (s : string) : substring 0 (String.length s) s = s.
Proof. induction s as [|c s IH]; simpl; [reflexivity|now rewrite IH]. Qed.

Lemma substring_length (n m : nat) (s : string) :
  (n + m <= String.length s)%nat -> String.length (substring n m s) = m.
Proof.
  revert n m. induction s as [|c s IH]; intros [|n] [|m] H; simpl in *; try lia;
    first [reflexivity | f_equal; apply IH; lia | apply IH; lia].
Qed.

(** Cutting a string at [n] and gluing the pieces back. *)
Lemma substring_split (n : nat) (s : string) :
  substring 0 n s ++ substring n (String.length s - n) s = s.
Proof.
  revert n. induction s as [|c s IH]; intros [|n]; simpl; try reflexivity.
  - now rewrite substring_full.
  - now rewrite IH.
Qed.

(** Dropping a known prefix with [substring]. *)
Lemma substring_after (p t : string) n :
  n = String.length p -> substring n (String.length (p ++ t) - n) (p ++ t) = t.
Proof.
  intros ->. induction p as [|c p IH]; simpl; [rewrite Nat.sub_0_r; apply substring_full|exact IH].
Qed.

(** [t] is what is left of [s] after some bytes were consumed: every
    parser of a format returns a suffix of its input. *)
Definition str_suffix (t s : string) : Prop := exists p, s = p ++ t.

Lemma str_suffix_refl s : str_suffix s s.
Proof. now exists "". Qed.

Lemma str_suffix_cons c t s : str_suffix t s -> str_suffix t (String c s).
Proof. intros [p ->]. now exists (String c p). Qed.

Lemma str_suffix_trans a b c : str_suffix a b -> str_suffix b c -> str_suffix a c.
Proof. intros [p ->] [q ->]. exists (q ++ p). apply str_app_assoc. Qed.

Lemma str_suffix_length t s : str_suffix t s -> (String.length t <= String.length s)%nat.
Proof. intros [p ->]. rewrite str_length_app. lia. Qed.

Lemma substring_suffix n s : str_suffix (substring n (String.length s - n) s) s.
Proof.
  revert n. induction s as [|c s IH]; intros [|n]; simpl.
  - apply str_suffix_refl.
  - apply str_suffix_refl.
  - rewrite substring_full. apply str_suffix_refl.
  - apply str_suffix_cons, IH.
Qed.

Lemma str_suffix_tail c t s : str_suffix (String c t) s -> str_suffix t s.
Proof. intros [p ->]. exists (p ++ String c ""). rewrite <- str_app_assoc. reflexivity. Qed.

Lemma str_suffix_nil s : str_suffix "" s.
Proof. exists s. symmetry. apply str_app_nil_r. Qed.

#[export] Hint Resolve str_suffix_refl str_suffix_cons str_suffix_nil substring_suffix : gopv.

(** Case analysis on a [match] (or [if]) of the goal whose scrutinee has
    no [match] of its own, so that nested computations are split from the
    inside out. *)
Ltac destruct_inner_match :=
  match goal with
  | |- context [match ?x with _ => _ end] =>
      lazymatch x with context [match _ with _ => _ end] => fail | _ => destruct x end
  end.

(** [destruct_inner_match], keeping the equation. *)
Ltac destruct_inner_match_eqn :=
  match goal with
  | |- context [match ?x with _ => _ end] =>
      lazymatch x with context [match _ with _ => _ end] => fail | _ => destruct x eqn:? end
  end.
