(* ===== verification/GoRuntime.v ===== *)
(** * GoRuntime: the parts of Go's runtime and library that gopv calls

    [int64] arithmetic with wrap-around, [float64] as primitive binary64
    floats and the two conversions between them (amd64), [time.Duration]
    and [time.Time] with [Sub], [strconv.Itoa], [strings.Repeat] and
    [strings.ReplaceAll].  These are not code of the repository; each is
    written from the Go definition it names, and the components use them
    where the source calls them. *)

From Stdlib Require Import ZArith List String Ascii Bool Lia Floats Uint63.
From Stdlib Require Import DecimalString.
From S2P Require Import Prelude.
Import ListNotations.

Local Open Scope Z_scope.

(** ** Integers *)

Definition add64 (a b : Z) : Z := wrap64 (a + b).
Definition sub64 (a b : Z) : Z := wrap64 (a - b).
Definition mul64 (a b : Z) : Z := wrap64 (a * b).

Lemma add64_range a b : in_int64 (add64 a b).
Proof. apply wrap64_range. Qed.
Lemma sub64_range a b : in_int64 (sub64 a b).
Proof. apply wrap64_range. Qed.
Lemma mul64_range a b : in_int64 (mul64 a b).
Proof. apply wrap64_range. Qed.

#[export] Hint Resolve add64_range sub64_range mul64_range : gopv.

(** Saturation, used by [Time.Sub]. *)
Definition sat64 (z : Z) : Z :=
  if z <? int64_min then int64_min else if int64_max <? z then int64_max else z.

Lemma sat64_range z : in_int64 (sat64 z).
Proof.
  unfold sat64, in_int64, int64_min, int64_max.
  destruct (Z.ltb_spec z (- 2 ^ 63)), (Z.ltb_spec (2 ^ 63 - 1) z); lia.
Qed.

Lemma sat64_small z : in_int64 z -> sat64 z = z.
Proof.
  unfold sat64, in_int64, int64_min, int64_max. intros H.
  destruct (Z.ltb_spec z (- 2 ^ 63)), (Z.ltb_spec (2 ^ 63 - 1) z); lia.
Qed.

(** ** Floats *)

Local Open Scope float_scope.

(** [float64(x)] for an [int64] [x]: rounding to nearest, ties to even, as
    [of_uint63] does; the one magnitude [of_uint63] cannot take, [2^63], is
    exact. *)
Definition float64_of_int64 (z : Z) : float :=
  if (z =? int64_min)%Z then - 9223372036854775808
  else if (z <? 0)%Z then - of_uint63 (Uint63.of_Z (- z))
  else of_uint63 (Uint63.of_Z z).

(** The exact integer part (towards zero) of a finite float; [None] for the
    infinities and NaN. *)
Definition float_trunc (f : float) : option Z :=
  match Prim2SF f with
  | S754_zero _ => Some 0%Z
  | S754_finite s m e =>
      let q := if (0 <=? e)%Z then (Z.pos m * 2 ^ e)%Z else (Z.pos m / 2 ^ (- e))%Z in
      Some (if s then (- q)%Z else q)
  | _ => None
  end.

(** [int64(f)]: truncation towards zero.  Out of range, and on NaN and the
    infinities, Go leaves the result to the implementation; amd64's
    CVTTSD2SQ gives the "integer indefinite" 0x8000000000000000. *)
Definition int64_of_float64 (f : float) : Z :=
  match float_trunc f with
  | Some z => if in_int64b z then z else int64_min
  | None => int64_min
  end.

Lemma int64_of_float64_range f : in_int64 (int64_of_float64 f).
Proof.
  unfold int64_of_float64.
  assert (Hm : in_int64 int64_min) by (unfold in_int64, int64_min, int64_max; lia).
  destruct (float_trunc f) as [z|]; [|exact Hm].
  destruct (in_int64b z) eqn:E; [now apply in_int64b_spec | exact Hm].
Qed.

(** ** time.Duration: an [int64] count of nanoseconds *)

Definition Nanosecond : Z := 1.
Definition Millisecond : Z := 1000000.
Definition Second : Z := 1000000000.
Definition Minute : Z := 60000000000.

(** [func (d Duration) Seconds() float64]:
    [sec := d / Second; nsec := d % Second; return float64(sec) + float64(nsec)/1e9]. *)
Definition Duration_Seconds (d : Z) : float :=
  float64_of_int64 (go_div d Second) + float64_of_int64 (go_rem d Second) / 1e9.

(** [func (d Duration) Minutes() float64]:
    [min := d / Minute; nsec := d % Minute; return float64(min) + float64(nsec)/(60*1e9)]. *)
Definition Duration_Minutes (d : Z) : float :=
  float64_of_int64 (go_div d Minute) + float64_of_int64 (go_rem d Minute) / 60e9.

Local Close Scope float_scope.

(** ** time.Time

    A [Time] is an instant, [t_abs] nanoseconds after January 1 of year 1
    UTC (Go's [sec]/[nsec] pair), and the monotonic clock reading that
    [time.Now] attaches ([t_mono]); the zero [Time] has none.  [Sub] uses
    the monotonic readings when both have one, the instants otherwise, and
    saturates to the [Duration] range in both cases ([subMono] and the
    overflow check of [Time.Sub]). *)
Record Time := mkTime { t_abs : Z; t_mono : option Z }.

Definition zero_Time : Time := mkTime 0 None.

Definition Time_Sub (t u : Time) : Z :=
  match t_mono t, t_mono u with
  | Some a, Some b => sat64 (a - b)
  | _, _ => sat64 (t_abs t - t_abs u)
  end.

Lemma Time_Sub_mono a b ma mb :
  in_int64 (ma - mb) -> Time_Sub (mkTime a (Some ma)) (mkTime b (Some mb)) = ma - mb.
Proof. intros H. unfold Time_Sub. simpl. now apply sat64_small. Qed.

Lemma Time_Sub_range t u : in_int64 (Time_Sub t u).
Proof. unfold Time_Sub. destruct (t_mono t), (t_mono u); apply sat64_range. Qed.

#[export] Hint Resolve Time_Sub_range int64_of_float64_range : gopv.

Lemma Time_Sub_self t : Time_Sub t t = 0.
Proof.
  unfold Time_Sub. destruct (t_mono t); rewrite Z.sub_diag; reflexivity.
Qed.

(** ** Strings *)

Local Open Scope string_scope.

(** [strconv.Itoa]. *)
Definition Itoa (z : Z) : string := NilZero.string_of_int (Z.to_int z).

Fixpoint repeat_str (n : nat) (s : string) : string :=
  match n with
  | O => ""
  | S n' => s ++ repeat_str n' s
  end.

(** [strings.Repeat(s, count)] panics ([None]) on a negative count and
    when [len(s) * count] passes [maxInt]. *)
Definition strings_Repeat (s : string) (count : Z) : option string :=
  if (count <? 0)%Z then None
  else if (int64_max <? Z.of_nat (String.length s) * count)%Z then None
  else Some (repeat_str (Z.to_nat count) s).

Lemma repeat_str_length n s : String.length (repeat_str n s) = (n * String.length s)%nat.
Proof.
  induction n as [|n IH]; simpl; [reflexivity|].
  rewrite str_length_app, IH. lia.
Qed.

(** [strings.ReplaceAll(s, old, new)] replaces the non-overlapping
    occurrences of [old], found from left to right.  The scan below keeps
    the number [k] of characters of the last match still to be skipped;
    at each position with [k = 0] it tests whether [old] starts there. *)
Fixpoint replace_scan (old new : string) (k : nat) (s : string) : string :=
  match s with
  | EmptyString => EmptyString
  | String c s' =>
      match k with
      | S k' => replace_scan old new k' s'
      | O =>
          if String.prefix old s
          then new ++ replace_scan old new (String.length old - 1) s'
          else String c (replace_scan old new 0 s')
      end
  end.

(** With an empty [old], Go inserts [new] before every rune and at the
    end; the model treats each byte as a rune, which is exact for ASCII
    (the code never calls it with an empty [old]). *)
Fixpoint interleave (new s : string) : string :=
  match s with
  | EmptyString => new
  | String c s' => new ++ String c (interleave new s')
  end.

Definition strings_ReplaceAll (s old new : string) : string :=
  match old with
  | EmptyString => interleave new s
  | _ => replace_scan old new 0 s
  end.
