(* ===== verification/ReportData.v ===== *)
(** * ReportData: the [Report] snapshot and the [Reporter] interface

    [type Report struct] and [type Reporter interface] of
    src/unnamed/part_003.  The interface is a type class over the state of
    the reporter; the scheduler ([Scheduler]) is proved against the class,
    and the text reporter is one instance of it. *)

From Stdlib Require Import ZArith Floats.
From S2P Require Import Prelude GoRuntime.

Local Open Scope Z_scope.

(** [type Report struct]: times as [Time], durations and Go [int]s as [Z],
    [float64] fields as primitive floats. *)
Record Report := mkReport {
  Now : Time;
  StartedAt : Time;
  DT : Z;
  Total : Z;
  Done : Z;
  Left : Z;
  Ratio : float;
  PercentInt : Z;
  PercentFloat : float;
  Elapsed : Z;
  ETA : Z;
  RPSAvg : float;
  RPSInst : float;
  RPMAvg : float
}.

(** [Report{}]: every field at Go's zero value. *)
Definition zero_Report : Report :=
  mkReport zero_Time zero_Time 0 0 0 0 PrimFloat.zero 0 PrimFloat.zero 0 0
    PrimFloat.zero PrimFloat.zero PrimFloat.zero.

(** [type Reporter interface { Report(report Report); Finalize() }]: both
    methods act on the reporter's state (its buffers and its output) and
    may panic.  Each returns the state it leaves and whether it panicked:
    a Go panic keeps the changes the method made before it, and the
    deferred code that runs next sees them. *)
Class Reporter (R : Type) := {
  report : R -> Report -> R * bool;
  finalize : R -> R * bool
}.
