(* ===== verification/TextReporter.v ===== *)
(** * TextReporter: the text reporter's state and its builders

    [type TextReporter struct], its constants, [NewTextReporter], the four
    [With...] builders and [clone] (src/unnamed/part_003, lines 62-133 and
    248-251).  The [io.Writer] of the configuration and the [*bufio.Writer]
    of the runtime state are references, modelled as handles ([nat]) into
    the stores of the output model, so that two reporters that share a
    writer are seen to share it.  The rendering ([Report], [Finalize]) is
    built on [Legend] and [ProgressBar]. *)

From Stdlib Require Import ZArith String.
From S2P Require Import Prelude GoRuntime.

Local Open Scope Z_scope.
Local Open Scope string_scope.

(** Handles of [io.Writer] values; [os.Stderr] is the handle 2. *)
Definition WriterHandle := nat.
Definition os_Stderr : WriterHandle := 2%nat.

Module TextReporter.

Record TextReporter := mkTextReporter {
  (* config - should be copied in clone() *)
  legend : string;
  floatPrecision : Z;
  output : WriterHandle;
  pbWidth : Z;
  (* runtime vars. should not be copied in clone() *)
  legendCompiled : string;
  writer : option nat;          (* nil, or a handle of a bufio.Writer *)
  lastLegendLength : Z
}.

(** The legends end in a carriage return, ["\r"]. *)
Definition CR : string := String (Ascii.ascii_of_nat 13) "".

Definition TextReporterLegendDefault : string :=
  "[{now}] - working ({done}/{total}) done {percent_int}%%, RPS {rps_avg}, elapsed {elapsed}, ETA {eta}"
    ++ CR.
Definition TextReporterLegendProgressBar : string :=
  "{progress_bar} {percent_int}%%, {rps_avg} RPS, {eta} ETA" ++ CR.
Definition TextReporterDefaultFloatPrecision : Z := 2.
Definition TextReporterDefaultProgressBarWidth : Z := 80.

Definition NewTextReporter : TextReporter := {|
  legend := TextReporterLegendDefault;
  floatPrecision := TextReporterDefaultFloatPrecision;
  output := os_Stderr;
  pbWidth := TextReporterDefaultProgressBarWidth;
  legendCompiled := "";
  writer := None;
  lastLegendLength := 0
|}.

(** [func (r *TextReporter) clone() *TextReporter { cp := *r; return &cp }]:
    a copy of every field, the runtime ones included. *)
Definition clone (r : TextReporter) : TextReporter := {|
  legend := legend r;
  floatPrecision := floatPrecision r;
  output := output r;
  pbWidth := pbWidth r;
  legendCompiled := legendCompiled r;
  writer := writer r;
  lastLegendLength := lastLegendLength r
|}.

Definition WithLegend (r : TextReporter) (l : string) : TextReporter :=
  let ret := clone r in
  {| legend := l; floatPrecision := floatPrecision ret; output := output ret;
     pbWidth := pbWidth ret; legendCompiled := legendCompiled ret;
     writer := writer ret; lastLegendLength := lastLegendLength ret |}.

Definition WithFloatPrecision (r : TextReporter) (fp : Z) : TextReporter :=
  let ret := clone r in
  {| legend := legend ret; floatPrecision := fp; output := output ret;
     pbWidth := pbWidth ret; legendCompiled := legendCompiled ret;
     writer := writer ret; lastLegendLength := lastLegendLength ret |}.

Definition WithOutput (r : TextReporter) (o : WriterHandle) : TextReporter :=
  let ret := clone r in
  {| legend := legend ret; floatPrecision := floatPrecision ret; output := o;
     pbWidth := pbWidth ret; legendCompiled := legendCompiled ret;
     writer := writer ret; lastLegendLength := lastLegendLength ret |}.

Definition WithProgressBarWidth (r : TextReporter) (w : Z) : TextReporter :=
  let ret := clone r in
  {| legend := legend ret; floatPrecision := floatPrecision ret; output := output ret;
     pbWidth := w; legendCompiled := legendCompiled ret;
     writer := writer ret; lastLegendLength := lastLegendLength ret |}.

(** The runtime part of a reporter, which the comment of the struct says
    [clone] should leave out. *)
Definition runtime (r : TextReporter) : string * option nat * Z :=
  (legendCompiled r, writer r, lastLegendLength r).

End TextReporter.
