(* ===== verification/Legend.v ===== *)
(** * Legend: compiling a legend into a format string

    [compileLegend] of src/unnamed/part_003 (lines 184-205) is sixteen
    [strings.ReplaceAll] calls: fifteen placeholders become [fmt] verbs with
    explicit argument indexes, then every ["{float_precision}"] becomes the
    decimal precision.  Its specification is a one-pass compiler: [lex]
    cuts a legend into placeholders and literal characters, and
    [compile_ref] expands each placeholder once.

    Theorems: [lex] is undone by printing the pieces back (a round trip);
    the sixteen sequential replacements compute exactly [compile_ref] on
    every legend (no replacement creates or destroys a placeholder of a
    later one), which also shows that the order of the calls does not
    matter; and the one place where the code departs from the documented
    placeholder set, the undocumented ["{float_precision}"]. *)

From Stdlib Require Import ZArith List String Ascii Bool Lia.
From S2P Require Import Prelude GoRuntime.
Import ListNotations.

Local Open Scope nat_scope.
Local Open Scope string_scope.

Module Legend.

(** [func (r *TextReporter) compileLegend(format string, floatPrecision int) string]. *)
Definition compileLegend (format : string) (floatPrecision : Z) : string :=
  let format := strings_ReplaceAll format "{now}" "%[1]s" in
  let format := strings_ReplaceAll format "{started_at}" "%[2]s" in
  let format := strings_ReplaceAll format "{dt}" "%[3]s" in
  let format := strings_ReplaceAll format "{total}" "%[4]d" in
  let format := strings_ReplaceAll format "{done}" "%[5]d" in
  let format := strings_ReplaceAll format "{left}" "%[6]d" in
  let format := strings_ReplaceAll format "{ratio}" "%.{float_precision}[7]f" in
  let format := strings_ReplaceAll format "{percent_int}" "%[8]d" in
  let format := strings_ReplaceAll format "{percent_float}" "%.{float_precision}[9]f" in
  let format := strings_ReplaceAll format "{elapsed}" "%[10]s" in
  let format := strings_ReplaceAll format "{eta}" "%[11]s" in
  let format := strings_ReplaceAll format "{rps_avg}" "%.{float_precision}[12]f" in
  let format := strings_ReplaceAll format "{rps_inst}" "%.{float_precision}[13]f" in
  let format := strings_ReplaceAll format "{rpm}" "%.{float_precision}[14]f" in
  let format := strings_ReplaceAll format "{progress_bar}" "%[15]s" in
  let format := strings_ReplaceAll format "{float_precision}" (Itoa floatPrecision) in
  format.

(** ** The specification: placeholders, a lexer and a one-pass compiler *)

(** The placeholders in the order of the calls, with the text each call
    puts in their place; index 15 is ["{float_precision}"]. *)
Definition placeholders : list (string * string) := [
  ("{now}", "%[1]s"); ("{started_at}", "%[2]s"); ("{dt}", "%[3]s");
  ("{total}", "%[4]d"); ("{done}", "%[5]d"); ("{left}", "%[6]d");
  ("{ratio}", "%.{float_precision}[7]f"); ("{percent_int}", "%[8]d");
  ("{percent_float}", "%.{float_precision}[9]f"); ("{elapsed}", "%[10]s");
  ("{eta}", "%[11]s"); ("{rps_avg}", "%.{float_precision}[12]f");
  ("{rps_inst}", "%.{float_precision}[13]f"); ("{rpm}", "%.{float_precision}[14]f");
  ("{progress_bar}", "%[15]s") ].

Definition fp_token : string := "{float_precision}".

Definition ntokens : nat := 16.

Definition token (i : nat) : string := nth i (map fst placeholders ++ [fp_token]) "".
Definition raw_rep (i : nat) : string := nth i (map snd placeholders) "".

(** What each placeholder stands for in the compiled format: the verb of
    its argument, the float verbs with the precision [prec] in decimal. *)
Definition expansion (prec : Z) (i : nat) : string :=
  let f n := "%." ++ Itoa prec ++ "[" ++ n ++ "]f" in
  match i with
  | 0 => "%[1]s" | 1 => "%[2]s" | 2 => "%[3]s" | 3 => "%[4]d" | 4 => "%[5]d"
  | 5 => "%[6]d" | 6 => f "7" | 7 => "%[8]d" | 8 => f "9" | 9 => "%[10]s"
  | 10 => "%[11]s" | 11 => f "12" | 12 => f "13" | 13 => f "14"
  | 14 => "%[15]s" | 15 => Itoa prec | _ => ""
  end.

Inductive piece := Lit (c : ascii) | Tok (i : nat).

Fixpoint find_index (f : nat -> bool) (l : list nat) : option nat :=
  match l with
  | [] => None
  | i :: l' => if f i then Some i else find_index f l'
  end.

(** The placeholder that starts [s], if any (they are prefix-free, so
    there is at most one). *)
Definition find_token (s : string) : option nat :=
  find_index (fun i => String.prefix (token i) s) (seq 0 ntokens).

(** The lexer, scanning like [strings.ReplaceAll]: [k] characters of the
    last placeholder are still to be skipped. *)
Fixpoint lex_scan (k : nat) (s : string) : list piece :=
  match s with
  | EmptyString => []
  | String c s' =>
      match k with
      | S k' => lex_scan k' s'
      | O =>
          match find_token s with
          | Some i => Tok i :: lex_scan (String.length (token i) - 1) s'
          | None => Lit c :: lex_scan 0 s'
          end
      end
  end.

Definition lex (s : string) : list piece := lex_scan 0 s.

Fixpoint render (E : piece -> string) (xs : list piece) : string :=
  match xs with
  | [] => ""
  | x :: xs' => E x ++ render E xs'
  end.

(** A piece printed back: the character, or the placeholder's text. *)
Definition text (x : piece) : string :=
  match x with Lit c => String c "" | Tok i => token i end.

Definition compile_ref (prec : Z) (format : string) : string :=
  render (fun x => match x with Lit c => String c "" | Tok i => expansion prec i end)
    (lex format).

(** ** The intermediate strings of [compileLegend]

    After the first [k] calls ([k <= 15]) the placeholders of index
    [< k] have their replacement text, the others their own text. *)
Definition emit_raw (k : nat) (x : piece) : string :=
  match x with
  | Lit c => String c ""
  | Tok i => if (i <? k)%nat && (i <? 15)%nat then raw_rep i else token i
  end.

Definition stage (k : nat) (format : string) : string :=
  fold_left (fun s '(old, new) => strings_ReplaceAll s old new)
    (firstn k placeholders) format.

(** A lexed legend: each literal character is one where no placeholder
    starts, and each placeholder is one of the sixteen. *)
Fixpoint valid (xs : list piece) : Prop :=
  match xs with
  | [] => True
  | Lit c :: xs' => find_token (String c (render text xs')) = None /\ valid xs'
  | Tok i :: xs' => (i < ntokens)%nat /\ valid xs'
  end.

(** No proper suffix of [a] is a proper prefix of [p]: a match of [p]
    cannot start in [a] and end after it. *)
Fixpoint nostraddle (p a : string) : bool :=
  match a with
  | EmptyString => true
  | String c a' =>
      ((String.length p <=? String.length a)%nat || negb (String.prefix a p))
        && nostraddle p a'
  end.

Fixpoint no_pct (s : string) : bool :=
  match s with
  | EmptyString => true
  | String c s' => negb (Ascii.eqb c "%") && no_pct s'
  end.

(** A string without an opening brace. *)
Fixpoint no_brace (s : string) : bool :=
  match s with
  | EmptyString => true
  | String c s' => negb (Ascii.eqb c "{") && no_brace s'
  end.


(** ** [strings.ReplaceAll] and the lexer: skipping and splitting *)

Lemma replace_scan_skip p r (a b : string) :
  replace_scan p r (String.length a) (a ++ b) = replace_scan p r 0 b.
Proof. induction a as [|c a IH]; [reflexivity|exact IH]. Qed.

Lemma lex_scan_skip (a b : string) : lex_scan (String.length a) (a ++ b) = lex b.
Proof. induction a as [|c a IH]; [reflexivity|exact IH]. Qed.

Lemma replace_scan_cons0 p r c s :
  replace_scan p r 0 (String c s) =
  if String.prefix p (String c s) then r ++ replace_scan p r (String.length p - 1) s
  else String c (replace_scan p r 0 s).
Proof. reflexivity. Qed.

(** A replacement scan over [a ++ b] is the scan over [a] followed by the
    scan over [b] when no match of [p] straddles the two. *)
Lemma replace_scan_split p r (a b : string) k :
  nostraddle p a = true -> (k <= String.length a) ->
  replace_scan p r k (a ++ b) = replace_scan p r k a ++ replace_scan p r 0 b.
Proof.
  revert k. induction a as [|c a IH]; intros k Hn Hk.
  - simpl in Hk. assert (k = 0) as -> by lia. reflexivity.
  - simpl in Hn. apply andb_true_iff in Hn as [Hh Hn].
    destruct k as [|k]; simpl in Hk; [|apply IH; auto; lia].
    change (String c a ++ b) with (String c (a ++ b)).
    rewrite !replace_scan_cons0.
    assert (E : String.prefix p (String c (a ++ b)) = String.prefix p (String c a)).
    { destruct (Nat.leb_spec (String.length p) (S (String.length a))) as [Hl|Hl].
      - exact (prefix_app_long p (String c a) b Hl).
      - apply orb_true_iff in Hh as [Hh|Hh];
          [try discriminate; apply Nat.leb_le in Hh; simpl in Hh; lia|].
        apply negb_true_iff in Hh.
        destruct (String.prefix p (String c a)) eqn:Y;
          [apply prefix_length in Y; simpl in Y; lia|].
        destruct (String.prefix p (String c (a ++ b))) eqn:Z; [|reflexivity].
        apply (prefix_app_short p (String c a) b) in Z; [|simpl; lia].
        simpl in Z. rewrite Z in Hh. discriminate. }
    rewrite E. destruct (String.prefix p (String c a)) eqn:Hp.
    + apply prefix_length in Hp. simpl in Hp.
      rewrite IH by (auto; lia). apply str_app_assoc.
    + rewrite IH by (auto; lia). reflexivity.
Qed.

Lemma find_index_Some f l i : find_index f l = Some i -> In i l /\ f i = true.
Proof.
  induction l as [|j l IH]; simpl; [discriminate|].
  destruct (f j) eqn:E; [intros [= <-]; auto | intros H; apply IH in H; tauto].
Qed.

Lemma find_index_None f l i : find_index f l = None -> In i l -> f i = false.
Proof.
  induction l as [|j l IH]; simpl; [tauto|].
  destruct (f j) eqn:E; [discriminate|]. intros H [->|Hi]; auto.
Qed.

(** Every placeholder is ["{"] followed by text without ['%']. *)
Lemma token_shape i : i < ntokens -> exists q, token i = String "{" q /\ no_pct q = true.
Proof.
  intros H. unfold ntokens in H.
  do 16 (destruct i as [|i]; [eexists; split; reflexivity|]). lia.
Qed.

(** Every replacement text of the first fifteen calls starts with ['%']. *)
Lemma raw_rep_pct i : i < 15 -> exists t, raw_rep i = String "%" t.
Proof. intros H. do 15 (destruct i as [|i]; [eexists; reflexivity|]). lia. Qed.

Lemma find_token_some s i :
  find_token s = Some i -> i < ntokens /\ exists rest, s = token i ++ rest.
Proof.
  unfold find_token. intros H. apply find_index_Some in H as [Hi Hp].
  apply in_seq in Hi. split; [lia|]. now apply prefix_spec.
Qed.

(** ** The lexer: round trip and validity *)

Lemma lex_cons_token c s' i :
  find_token (String c s') = Some i ->
  exists rest, String c s' = token i ++ rest /\ i < ntokens /\
    lex (String c s') = Tok i :: lex rest.
Proof.
  intros H. destruct (find_token_some _ _ H) as [Hi [rest Hr]].
  destruct (token_shape i Hi) as (q & Hq & _).
  exists rest. split; [exact Hr|split; [exact Hi|]].
  unfold lex. simpl. rewrite H, Hq. rewrite Hq in Hr. simpl in Hr.
  injection Hr as -> ->. simpl. rewrite Nat.sub_0_r. f_equal. apply lex_scan_skip.
Qed.

Lemma lex_cons_lit c s' :
  find_token (String c s') = None -> lex (String c s') = Lit c :: lex s'.
Proof. intros H. unfold lex. simpl. now rewrite H. Qed.

Lemma lex_ind (P : string -> Prop) :
  P "" ->
  (forall c s', find_token (String c s') = None -> P s' -> P (String c s')) ->
  (forall c s' i rest, find_token (String c s') = Some i ->
     String c s' = token i ++ rest -> lex (String c s') = Tok i :: lex rest ->
     P rest -> P (String c s')) ->
  forall s, P s.
Proof.
  intros H0 HL HT s. remember (String.length s) as n eqn:E.
  revert s E. induction n as [n IH] using (well_founded_induction lt_wf).
  intros [|c s'] E; [exact H0|].
  destruct (find_token (String c s')) as [i|] eqn:F.
  - destruct (lex_cons_token c s' i F) as (rest & Hr & Hi & Hl).
    apply (HT c s' i rest F Hr Hl). apply (IH (String.length rest)); [|reflexivity].
    destruct (token_shape i Hi) as (q & Hq & _).
    rewrite E, Hr, str_length_app, Hq. simpl. lia.
  - apply HL; [exact F|]. apply (IH (String.length s')); [|reflexivity].
    rewrite E. simpl. lia.
Qed.


(** Printing the pieces of [lex s] back gives [s]. *)
Theorem lex_roundtrip (s : string) : render text (lex s) = s.
Proof.
  induction s as [|c s' F IH|c s' i rest F Hr Hl IH] using lex_ind; [reflexivity| |].
  - rewrite lex_cons_lit by exact F. simpl. now rewrite IH.
  - rewrite Hl, Hr. simpl. now rewrite IH.
Qed.

Lemma lex_valid (s : string) : valid (lex s).
Proof.
  induction s as [|c s' F IH|c s' i rest F Hr Hl IH] using lex_ind; [exact I| |].
  - rewrite lex_cons_lit by exact F. simpl. rewrite lex_roundtrip. now split.
  - rewrite Hl. simpl. split; [|exact IH].
    now apply find_token_some in F as [? _].
Qed.

Lemma no_pct_app a b : no_pct (a ++ b) = no_pct a && no_pct b.
Proof. induction a as [|c a IH]; simpl; [reflexivity|]. now rewrite IH, andb_assoc. Qed.

(** A placeholder's tail (no ['%']) that matches at the front of a
    partly compiled string matches at the same place in the legend: the
    compiled parts start with ['%'] and stop the match. *)
Lemma render_prefix_agree (E : piece -> string) xs q :
  (forall x, E x = text x \/ exists t, E x = String "%" t) ->
  no_pct q = true -> String.prefix q (render E xs) = true ->
  String.prefix q (render text xs) = true.
Proof.
  intros HE. revert q. induction xs as [|x xs IH]; intros q Hq Hp; [exact Hp|].
  simpl in *. destruct (HE x) as [Ex|[t Ex]]; rewrite Ex in Hp.
  - destruct (Nat.leb_spec (String.length q) (String.length (text x))) as [Hl|Hl].
    + rewrite prefix_app_long in * by exact Hl. exact Hp.
    + destruct (prefix_app_inv q (text x) _ Hp Hl) as (q' & -> & Hq').
      rewrite prefix_app_cancel. rewrite no_pct_app in Hq.
      apply andb_true_iff in Hq as [_ Hq]. now apply IH.
  - destruct q as [|c q]; [apply prefix_nil|].
    apply prefix_cons in Hp as [-> _]. discriminate.
Qed.

(** At a literal character of a lexed legend no placeholder starts, in
    any partly compiled form of it. *)
Lemma lit_nomatch (E : piece -> string) k c xs :
  k < ntokens ->
  (forall x, E x = text x \/ exists t, E x = String "%" t) ->
  find_token (String c (render text xs)) = None ->
  String.prefix (token k) (String c (render E xs)) = false.
Proof.
  intros Hk HE F.
  assert (N : String.prefix (token k) (String c (render text xs)) = false)
    by (apply (find_index_None _ _ k F), in_seq; unfold ntokens in *; lia).
  destruct (token_shape k Hk) as (q & Hq & Hpct). rewrite Hq in *.
  destruct (String.prefix (String "{" q) (String c (render E xs))) eqn:P; [|reflexivity].
  apply prefix_cons in P as [<- P].
  apply (render_prefix_agree E xs q HE Hpct) in P.
  simpl in N. rewrite P in N. discriminate.
Qed.


(** ** Each call of [compileLegend] is one stage of the compilation *)

Lemma replace_render k r (E E' : piece -> string) xs :
  k < ntokens ->
  (forall x, E x = text x \/ exists t, E x = String "%" t) ->
  (forall c, E (Lit c) = String c "" /\ E' (Lit c) = String c "") ->
  (forall i, i < ntokens -> nostraddle (token k) (E (Tok i)) = true /\
                            replace_scan (token k) r 0 (E (Tok i)) = E' (Tok i)) ->
  valid xs ->
  replace_scan (token k) r 0 (render E xs) = render E' xs.
Proof.
  intros Hk HE HL HT. induction xs as [|[c|i] xs IH]; intros V; cbn [render valid] in *;
    [reflexivity| |].
  - destruct V as [F V]. destruct (HL c) as [-> ->]. cbn [append].
    rewrite replace_scan_cons0, (lit_nomatch E k c xs Hk HE F). now rewrite IH.
  - destruct V as [Hi V]. destruct (HT i Hi) as [N R].
    rewrite replace_scan_split by (auto; lia). now rewrite R, IH.
Qed.

Lemma render_ext (E E' : piece -> string) xs :
  (forall x, E x = E' x) -> render E xs = render E' xs.
Proof. intros H. induction xs as [|x xs IH]; simpl; congruence. Qed.

Lemma emit_raw_shape k x : emit_raw k x = text x \/ exists t, emit_raw k x = String "%" t.
Proof.
  destruct x as [c|i]; [now left|]. simpl.
  destruct ((i <? k)%nat && (i <? 15)%nat) eqn:E; [right|now left].
  apply andb_true_iff in E as [_ E]. apply raw_rep_pct. now apply Nat.ltb_lt.
Qed.

(** The table of facts the stages rest on, computed once: for each of the
    first fifteen calls and each placeholder, the call does not straddle
    the placeholder's current text and turns it into its next text. *)
Lemma stage_facts :
  forallb (fun k => forallb (fun i =>
      nostraddle (token k) (emit_raw k (Tok i)) &&
      String.eqb (replace_scan (token k) (raw_rep k) 0 (emit_raw k (Tok i)))
                 (emit_raw (S k) (Tok i))) (seq 0 ntokens)) (seq 0 15) = true.
Proof. vm_compute. reflexivity. Qed.

Lemma final_nostraddle :
  forallb (fun i => nostraddle fp_token (emit_raw 15 (Tok i))) (seq 0 ntokens) = true.
Proof. vm_compute. reflexivity. Qed.

Lemma final_replace prec i :
  i < ntokens -> replace_scan fp_token (Itoa prec) 0 (emit_raw 15 (Tok i)) = expansion prec i.
Proof.
  intros H. unfold ntokens in H.
  do 16 (destruct i as [|i]; [cbn; rewrite ?str_app_nil_r; reflexivity|]). lia.
Qed.

Lemma ReplaceAll_token s k r :
  k < ntokens -> strings_ReplaceAll s (token k) r = replace_scan (token k) r 0 s.
Proof.
  intros Hk. destruct (token_shape k Hk) as (q & Hq & _).
  unfold strings_ReplaceAll. now rewrite Hq.
Qed.

Lemma stage_S k f :
  k < 15 -> stage (S k) f = strings_ReplaceAll (stage k f) (token k) (raw_rep k).
Proof. intros H. do 15 (destruct k as [|k]; [reflexivity|]). lia. Qed.

Lemma stage_render k f : k <= 15 -> stage k f = render (emit_raw k) (lex f).
Proof.
  induction k as [|k IH]; intros Hk.
  - rewrite (render_ext _ text) by (intros [c|i]; reflexivity).
    symmetry. apply lex_roundtrip.
  - rewrite stage_S, ReplaceAll_token, IH by (unfold ntokens; lia).
    apply replace_render; [unfold ntokens; lia|apply emit_raw_shape|now split| |apply lex_valid].
    intros i Hi.
    pose proof (forallb_seq _ _ (forallb_seq _ _ stage_facts k ltac:(lia)) i Hi) as F.
    apply andb_true_iff in F as [A B]. split; [exact A|]. now apply String.eqb_eq.
Qed.

Lemma compileLegend_ref (format : string) (floatPrecision : Z) :
  compileLegend format floatPrecision = compile_ref floatPrecision format.
Proof.
  transitivity (strings_ReplaceAll (stage 15 format) fp_token (Itoa floatPrecision));
    [reflexivity|].
  rewrite stage_render by lia. change fp_token with (token 15).
  rewrite ReplaceAll_token by (unfold ntokens; lia).
  apply replace_render; [unfold ntokens; lia|apply emit_raw_shape|now split| |apply lex_valid].
  intros i Hi. split; [exact (forallb_seq _ _ final_nostraddle i Hi)|].
  now apply final_replace.
Qed.


(** C1: The sixteen replacements of [compileLegend] compile every legend as
    the one-pass compiler does: each placeholder of the legend becomes
    its verb (float verbs with the precision), every other character
    stays. *)
Theorem compileLegend_one_pass (format : string) (floatPrecision : Z) :
  compileLegend format floatPrecision = compile_ref floatPrecision format.
Proof. apply compileLegend_ref. Qed.

Lemma find_token_not_brace c s' : c <> "{"%char -> find_token (String c s') = None.
Proof.
  intros Hc. unfold find_token.
  assert (H : forall l, (forall i, In i l -> i < ntokens) ->
            find_index (fun i => String.prefix (token i) (String c s')) l = None).
  { induction l as [|i l IH]; intros Hl; [reflexivity|]. cbn [find_index].
    destruct (token_shape i (Hl i (or_introl eq_refl))) as (q & Hq & _).
    rewrite Hq, prefix_cons_neq by congruence.
    apply IH. intros j Hj. apply Hl. now right. }
  apply H. intros i Hi. apply in_seq in Hi. unfold ntokens in *. lia.
Qed.

(** A legend without ['{'] compiles to itself: text that is no
    placeholder passes through (the ['%'] signs it may hold included,
    which [fmt.Sprintf] will then read as verbs). *)
Theorem compileLegend_literal (format : string) (floatPrecision : Z) :
  no_brace format = true -> compileLegend format floatPrecision = format.
Proof.
  intros H. rewrite compileLegend_ref. unfold compile_ref.
  induction format as [|c s IH]; [reflexivity|].
  simpl in H. apply andb_true_iff in H as [Hc H].
  assert (Hc' : c <> "{"%char)
    by (intros ->; discriminate).
  rewrite lex_cons_lit by now apply find_token_not_brace.
  simpl. now rewrite IH.
Qed.

(** Text without ['{'] passes through the one-pass compiler. *)
Lemma compile_ref_no_brace prec a s :
  no_brace a = true -> compile_ref prec (a ++ s) = a ++ compile_ref prec s.
Proof.
  induction a as [|c a IH]; intros H; [reflexivity|].
  simpl in H. apply andb_true_iff in H as [Hc H].
  assert (Hc' : c <> "{"%char) by (intros ->; discriminate).
  unfold compile_ref in *. simpl. rewrite lex_cons_lit by now apply find_token_not_brace.
  simpl. now rewrite IH.
Qed.

(** The placeholder at the start of [a ++ s] is decided by [a] when [a]
    is as long as every placeholder. *)
Lemma find_token_app_long a s :
  (forall i, i < ntokens -> String.length (token i) <= String.length a) ->
  find_token (a ++ s) = find_token a.
Proof.
  intros H. unfold find_token.
  assert (Hl : forall i, In i (seq 0 ntokens) -> i < ntokens) by (intros i Hi; apply in_seq in Hi; lia).
  induction (seq 0 ntokens) as [|i l IH]; [reflexivity|]. cbn [find_index].
  rewrite prefix_app_long by (apply H, Hl; now left).
  destruct (String.prefix (token i) a); [reflexivity|]. apply IH. intros j Hj. apply Hl. now right.
Qed.

Lemma compile_ref_fp prec s : compile_ref prec (fp_token ++ s) = Itoa prec ++ compile_ref prec s.
Proof.
  unfold compile_ref, lex.
  assert (H : find_token (fp_token ++ s) = Some 15).
  { rewrite find_token_app_long; [reflexivity|]. intros i Hi.
    apply Nat.leb_le, (forallb_seq (fun i => Nat.leb (String.length (token i)) (String.length fp_token)) ntokens);
      [reflexivity|exact Hi]. }
  change (fp_token ++ s) with (String "{" ("float_precision}" ++ s)) in H |- *.
  cbn [lex_scan]. rewrite H.
  change (String.length (token 15) - 1)%nat with (String.length "float_precision}").
  rewrite lex_scan_skip. reflexivity.
Qed.

(** C30: ["{float_precision}"] is not one of the fifteen documented
    placeholders, yet wherever it stands in a legend (after any text
    without ['{']) it is replaced by the precision in decimal, instead of
    passing through as unrecognised text. *)
Theorem compileLegend_float_precision_token (a b : string) (floatPrecision : Z) :
  no_brace a = true ->
  compileLegend (a ++ "{float_precision}" ++ b) floatPrecision =
  a ++ Itoa floatPrecision ++ compileLegend b floatPrecision.
Proof.
  intros Ha. rewrite !compileLegend_ref, compile_ref_no_brace by exact Ha.
  f_equal. apply compile_ref_fp.
Qed.

(** ** Witnesses *)

Lemma compileLegend_float_precision_token_witness :
  compileLegend ("p=" ++ "{float_precision}" ++ " {percent_int}") 2 = "p=2 %[8]d".
Proof. rewrite (compileLegend_float_precision_token "p=" " {percent_int}" 2) by reflexivity. vm_compute. reflexivity. Defined.

Lemma compileLegend_literal_witness : compileLegend "working...%%" 3 = "working...%%".
Proof. apply compileLegend_literal. reflexivity. Defined.

End Legend.
