(* ===== verification/ProgressBar.v ===== *)
(** * ProgressBar: [renderProgressBar] of the text reporter

    [func (r *TextReporter) renderProgressBar(report Report) string] of
    src/unnamed/part_003 (lines 207-234).  The ratio is a [float64]; the
    width and the counts are Go [int]s, so [r.pbWidth - 2] and
    [progressBarWidth - fillChars] wrap, and [strings.Repeat] panics on a
    negative count: the result is [None] for a panic.

    Theorems: the empty bar for widths up to 2; for wider bars, the exact
    condition of the panic (a negative [fillChars], which the float-to-int
    conversion produces once [ratio * width] leaves the [int64] range), and
    otherwise the shape of the bar, [#]s then [-]s between brackets, with
    its length the configured width; the spec's examples as computations. *)

From Stdlib Require Import ZArith String Ascii Bool Lia Floats.
From S2P Require Import Prelude GoRuntime ReportData TextReporter.

Local Open Scope Z_scope.

Module ProgressBar.
Import TextReporter.

(** [ratio] clamped below at 0 (a NaN stays NaN: [NaN < 0] is false). *)
Definition clamp_ratio (ratio : float) : float :=
  if (ratio <? 0)%float then 0%float else ratio.

(** [int(ratio * float64(progressBarWidth))], before the clamp. *)
Definition fillChars0 (ratio : float) (w : Z) : Z :=
  int64_of_float64 (clamp_ratio ratio * float64_of_int64 w)%float.

Definition renderProgressBar (r : TextReporter) (report : Report) : option string :=
  let ratio := clamp_ratio (Ratio report) in
  let progressBarWidth := sub64 (pbWidth r) 2 in
  if progressBarWidth <=? 0 then Some ""%string
  else
    let fillChars := int64_of_float64 (ratio * float64_of_int64 progressBarWidth)%float in
    let fillChars := if progressBarWidth <? fillChars then progressBarWidth else fillChars in
    let fillSpaces := sub64 progressBarWidth fillChars in
    let fillSpaces := if fillSpaces <? 0 then 0 else fillSpaces in
    match strings_Repeat "#" fillChars with
    | None => None
    | Some hashes =>
        match strings_Repeat "-" fillSpaces with
        | None => None
        | Some dashes => Some ("[" ++ hashes ++ dashes ++ "]")%string
        end
    end.

(** The bar with [k] of [n] cells filled. *)
Definition bar (k n : nat) : string :=
  ("[" ++ repeat_str k "#" ++ repeat_str (n - k) "-" ++ "]")%string.


(** A report that differs from the zero report in its ratio alone. *)
Definition report_with_ratio (x : float) : Report :=
  mkReport zero_Time zero_Time 0 0 0 0 x 0 0%float 0 0 0%float 0%float 0%float.

Lemma Repeat_ok (s : string) (n : Z) :
  0 <= n -> Z.of_nat (String.length s) * n <= int64_max ->
  strings_Repeat s n = Some (repeat_str (Z.to_nat n) s).
Proof.
  intros H1 H2. unfold strings_Repeat.
  destruct (Z.ltb_spec n 0); [lia|]. destruct (Z.ltb_spec int64_max (Z.of_nat (String.length s) * n)); [lia|].
  reflexivity.
Qed.

Lemma width_sub w : 2 < w -> in_int64 w -> sub64 w 2 = w - 2.
Proof. intros H1 H2. unfold sub64. apply wrap64_small. unfold in_int64, int64_min, int64_max in *. lia. Qed.

(** Widths up to 2 leave no room for the bar: the bar is the empty
    string (for a width that [width - 2] does not wrap). *)
Theorem renderProgressBar_narrow r report :
  int64_min + 2 <= pbWidth r <= 2 -> renderProgressBar r report = Some ""%string.
Proof.
  intros H. unfold renderProgressBar.
  replace (sub64 (pbWidth r) 2) with (pbWidth r - 2)
    by (symmetry; unfold sub64; apply wrap64_small; unfold in_int64, int64_min, int64_max in *; lia).
  destruct (Z.leb_spec (pbWidth r - 2) 0); [reflexivity | lia].
Qed.

(** The bar for a width above 2, as a function of the converted
    product [fillChars0]. *)
Lemma render_wide r report :
  2 < pbWidth r -> in_int64 (pbWidth r) ->
  renderProgressBar r report =
    let f := fillChars0 (Ratio report) (pbWidth r - 2) in
    if f <? 0 then None else Some (bar (Z.to_nat (Z.min f (pbWidth r - 2))) (Z.to_nat (pbWidth r - 2))).
Proof.
  intros H1 H2. unfold renderProgressBar. fold (fillChars0 (Ratio report) (sub64 (pbWidth r) 2)).
  rewrite width_sub by assumption.
  pose proof (int64_of_float64_range
    (clamp_ratio (Ratio report) * float64_of_int64 (pbWidth r - 2))%float) as Hf.
  unfold fillChars0 in *. set (f := int64_of_float64 _) in *. cbv zeta.
  destruct (Z.leb_spec (pbWidth r - 2) 0); [lia|].
  unfold in_int64, int64_min, int64_max in *. unfold bar.
  destruct (Z.ltb_spec (pbWidth r - 2) f).
  - destruct (Z.ltb_spec f 0); [lia|].
    rewrite Repeat_ok by (unfold int64_max; cbn [String.length]; lia).
    unfold sub64. rewrite Z.sub_diag, Z.min_r by lia.
    replace (if wrap64 0 <? 0 then 0 else wrap64 0) with 0 by reflexivity.
    rewrite Repeat_ok by (unfold int64_max; cbn [String.length]; lia).
    now rewrite Nat.sub_diag.
  - destruct (Z.ltb_spec f 0).
    + unfold strings_Repeat. destruct (Z.ltb_spec f 0); [reflexivity|lia].
    + rewrite Repeat_ok by (unfold int64_max; cbn [String.length]; lia). unfold sub64.
      rewrite wrap64_small by (unfold in_int64, int64_min, int64_max; lia).
      destruct (Z.ltb_spec (pbWidth r - 2 - f) 0); [lia|].
      rewrite Repeat_ok by (unfold int64_max; cbn [String.length]; lia).
      rewrite Z.min_l, Z2Nat.inj_sub by lia. reflexivity.
Qed.

Lemma bar_length k n : (k <= n)%nat -> String.length (bar k n) = (n + 2)%nat.
Proof.
  intros H. unfold bar. cbn [String.length append].
  rewrite !str_length_app, !repeat_str_length. cbn [String.length]. lia.
Qed.

(** C25: A wider bar panics exactly when the float-to-int conversion of
    [ratio * (width - 2)] is negative, which on amd64 is the case of a
    product beyond the [int64] range (and of a NaN ratio). *)
Theorem renderProgressBar_panics r report :
  2 < pbWidth r -> in_int64 (pbWidth r) ->
  (renderProgressBar r report = None <-> fillChars0 (Ratio report) (pbWidth r - 2) < 0).
Proof.
  intros H1 H2. rewrite render_wide by assumption. cbv zeta.
  destruct (Z.ltb_spec (fillChars0 (Ratio report) (pbWidth r - 2)) 0);
    split; congruence || lia.
Qed.

(** C24: Otherwise the bar is [k] [#]s and [width - 2 - k] [-]s between
    brackets, [k] the converted product clamped to [width - 2], and its
    length is the configured width. *)
Theorem renderProgressBar_shape r report :
  2 < pbWidth r -> in_int64 (pbWidth r) ->
  0 <= fillChars0 (Ratio report) (pbWidth r - 2) ->
  let n := pbWidth r - 2 in
  let k := Z.min (fillChars0 (Ratio report) n) n in
  renderProgressBar r report = Some (bar (Z.to_nat k) (Z.to_nat n)) /\
  String.length (bar (Z.to_nat k) (Z.to_nat n)) = Z.to_nat (pbWidth r).
Proof.
  intros H1 H2 H3. rewrite render_wide by assumption. cbv zeta.
  destruct (Z.ltb_spec (fillChars0 (Ratio report) (pbWidth r - 2)) 0); [lia|].
  split; [reflexivity|]. rewrite bar_length by lia. lia.
Qed.


(** The spec's examples: width 10 at ratio 0.5 gives [[####----]]; a
    ratio at or below 0 gives dashes only, at or above 1 hashes only; a
    width of 2 gives the empty string. *)
Theorem renderProgressBar_examples :
  let r := WithProgressBarWidth NewTextReporter 10 in
  renderProgressBar r (report_with_ratio 0.5) = Some "[####----]"%string /\
  renderProgressBar r (report_with_ratio 0) = Some "[--------]"%string /\
  renderProgressBar r (report_with_ratio (-0.25)) = Some "[--------]"%string /\
  renderProgressBar r (report_with_ratio 1) = Some "[########]"%string /\
  renderProgressBar r (report_with_ratio 3.5) = Some "[########]"%string /\
  renderProgressBar (WithProgressBarWidth NewTextReporter 2) (report_with_ratio 0.5)
    = Some ""%string.
Proof. vm_compute. repeat split. Qed.

(** The conversion overflows long before the ratio is unrepresentable:
    with the default width, [done = 2^57] items of a total of 1 make
    [ratio * 78] pass [2^63], [int(...)] is [math.MinInt64] on amd64, and
    [strings.Repeat] panics on the negative count. *)
Theorem renderProgressBar_overflow_panics :
  renderProgressBar NewTextReporter (report_with_ratio 144115188075855872) = None.
Proof. vm_compute. reflexivity. Qed.


(** ** Witnesses *)

Lemma renderProgressBar_narrow_witness :
  renderProgressBar (WithProgressBarWidth NewTextReporter 1) (report_with_ratio 0.5)
  = Some ""%string.
Proof. apply renderProgressBar_narrow. vm_compute. split; discriminate. Defined.

Lemma renderProgressBar_panics_witness :
  renderProgressBar NewTextReporter (report_with_ratio 144115188075855872) = None.
Proof.
  apply (renderProgressBar_panics NewTextReporter (report_with_ratio 144115188075855872));
    [reflexivity|vm_compute; split; discriminate|vm_compute; reflexivity].
Defined.

Lemma renderProgressBar_shape_witness :
  renderProgressBar (WithProgressBarWidth NewTextReporter 12) (report_with_ratio 0.25)
  = Some (bar 2 10).
Proof.
  apply (renderProgressBar_shape (WithProgressBarWidth NewTextReporter 12) (report_with_ratio 0.25));
    [reflexivity|vm_compute; split; discriminate|vm_compute; discriminate].
Defined.

End ProgressBar.
