(* ===== verification/Progress.v ===== *)
(** * Progress: the counter and its snapshots

    [type Progress struct], [New], [NewTextWithLegend], [WithReporter],
    [Add], [Report] and [Done] of src/unnamed/part_002 (the same code as
    src/gopv.go lines 9-109, without [doneCh]).  The reporter field is kept
    at its dynamic type [R]; the channel [doneCh] is a handle into the
    scheduler's store of channels.  [Report] reads the clock: the caller
    passes the value [time.Now()] returned.

    Theorems: the panic of [New]; [Add] as wrap-around addition and the
    sum of any sequence of [Add]s; every field of a snapshot as the code
    computes it, on every branch, and the bookkeeping [Report] leaves for
    the next call; the ETA, exact exactly when it fits in an [int64]. *)

From Stdlib Require Import ZArith List Bool Lia Floats.
From S2P Require Import Prelude GoRuntime ReportData TextReporter.
Import ListNotations.

Local Open Scope Z_scope.

(** [var DefaultReportTime = time.Second]. *)
Definition DefaultReportTime : Z := Second.

(** Handles of channels. *)
Definition ChanHandle := nat.

Module Progress.

Record Progress (R : Type) := mkProgress {
  total : Z;
  done : Z;
  startedAt : Time;
  reportTime : Z;
  lastReportedDone : Z;
  lastReportedAt : Time;
  reporter : R;
  doneCh : ChanHandle
}.
Arguments mkProgress {R}.
Arguments total {R}. Arguments done {R}. Arguments startedAt {R}.
Arguments reportTime {R}. Arguments lastReportedDone {R}.
Arguments lastReportedAt {R}. Arguments reporter {R}. Arguments doneCh {R}.

(** [New(total)] panics ([None]) when [total <= 0]; [ch] is the channel
    that [make(chan struct{})] allocates. *)
Definition New (total : Z) (ch : ChanHandle) : option (Progress TextReporter.TextReporter) :=
  if total <=? 0 then None
  else Some (mkProgress total 0 zero_Time DefaultReportTime 0 zero_Time
               TextReporter.NewTextReporter ch).

(** [func (p *Progress) WithReporter(r Reporter) *Progress]: a copy of
    every field (the counter and [doneCh] included) with [r] as reporter. *)
Definition WithReporter {R R'} (p : Progress R) (r : R') : Progress R' :=
  mkProgress (total p) (done p) (startedAt p) (reportTime p)
    (lastReportedDone p) (lastReportedAt p) r (doneCh p).

Definition NewTextWithLegend (total : Z) (legend : String.string) (ch : ChanHandle)
    : option (Progress TextReporter.TextReporter) :=
  match New total ch with
  | None => None
  | Some p => Some (WithReporter p (TextReporter.WithLegend TextReporter.NewTextReporter legend))
  end.

(** [atomic.AddInt64(&p.done, int64(done))]: one indivisible step that
    wraps around. *)
Definition Add {R} (p : Progress R) (n : Z) : Progress R :=
  mkProgress (total p) (add64 (done p) n) (startedAt p) (reportTime p)
    (lastReportedDone p) (lastReportedAt p) (reporter p) (doneCh p).

(** The state [Report] leaves behind: its deferred function stores the
    [done] it read and the [now] it used. *)
Definition record_report {R} (p : Progress R) (d : Z) (now : Time) : Progress R :=
  mkProgress (total p) (done p) (startedAt p) (reportTime p) d now (reporter p) (doneCh p).

Local Open Scope float_scope.

(** The fields of a snapshot, as the body of [Report] computes them from
    the state and the clock reading [now]. *)
Definition snapshot {R} (p : Progress R) (now : Time) : Report :=
  let dt := Time_Sub now (lastReportedAt p) in
  let d := done p in
  let ratio := float64_of_int64 d / float64_of_int64 (total p) in
  let elapsed := Time_Sub now (startedAt p) in
  let rps := float64_of_int64 d / Duration_Seconds (Time_Sub now (startedAt p)) in
  let eta := if negb (rps =? 0) then
               mul64 (int64_of_float64 (float64_of_int64 (sub64 (total p) d) / rps)) Second
             else 0%Z in
  {| Now := now;
     StartedAt := startedAt p;
     DT := dt;
     Total := total p;
     Done := d;
     Left := sub64 (total p) d;
     Ratio := ratio;
     PercentInt := int64_of_float64 (ratio * 100);
     PercentFloat := ratio * 100;
     Elapsed := elapsed;
     ETA := eta;
     RPSAvg := rps;
     RPSInst := float64_of_int64 (sub64 d (lastReportedDone p)) / Duration_Seconds dt;
     RPMAvg := float64_of_int64 d / Duration_Minutes (Time_Sub now (startedAt p)) |}.

Local Close Scope float_scope.

(** [func (p *Progress) Report() Report]: the zero report (and no
    bookkeeping, the [defer] is not reached) when [total == 0]; otherwise
    the snapshot, with [lastReportedDone] and [lastReportedAt] updated. *)
Definition Report {R} (p : Progress R) (now : Time) : ReportData.Report * Progress R :=
  if total p =? 0 then (zero_Report, p)
  else (snapshot p now, record_report p (done p) now).

(** [func (p *Progress) Done() chan struct{}]. *)
Definition Done {R} (p : Progress R) : ChanHandle := doneCh p.

(** A sequence of [Add] calls, in order. *)
Definition AddAll {R} (p : Progress R) (ns : list Z) : Progress R :=
  fold_left Add ns p.


(** ** Invariant: the fields of a counter that [New] creates stay in their
    ranges: [total] is a positive [int64], the counters are [int64]s. *)
Definition wf {R} (p : Progress R) : Prop :=
  0 < total p /\ in_int64 (total p) /\ in_int64 (done p) /\ in_int64 (lastReportedDone p).

(** The operations a client performs on a counter, in order. *)
Inductive Op := OpAdd (n : Z) | OpReport (now : Time).

Definition run_op {R} (p : Progress R) (o : Op) : Progress R :=
  match o with
  | OpAdd n => Add p n
  | OpReport now => snd (Report p now)
  end.

Definition run_ops {R} (p : Progress R) (os : list Op) : Progress R :=
  fold_left run_op os p.

Ltac report_cases p :=
  unfold Report; destruct (Z.eqb_spec (total p) 0); simpl.

Lemma Add_wf {R} (p : Progress R) n : wf p -> wf (Add p n).
Proof. intros (H1 & H2 & H3 & H4). refine (conj _ (conj _ (conj _ _))); simpl; auto with gopv. Qed.

Lemma Report_wf {R} (p : Progress R) now : wf p -> wf (snd (Report p now)).
Proof.
  intros Hw. pose proof Hw as (H1 & H2 & H3 & H4).
  report_cases p; [exact Hw | refine (conj _ (conj _ (conj _ _))); simpl; auto].
Qed.

#[export] Hint Resolve Add_wf Report_wf : gopv.

Lemma New_fields total ch p :
  New total ch = Some p ->
  p = mkProgress total 0 zero_Time DefaultReportTime 0 zero_Time
        TextReporter.NewTextReporter ch.
Proof. unfold New. destruct (total <=? 0); congruence. Qed.

(** [New(total)] panics exactly when [total <= 0]; otherwise the counter
    starts at zero with the default report interval and the default text
    reporter, and is well formed when [total] is an [int64]. *)
Theorem New_spec total ch :
  (New total ch = None <-> total <= 0) /\
  (in_int64 total -> forall p, New total ch = Some p ->
     wf p /\ done p = 0 /\ reportTime p = Second /\ reporter p = TextReporter.NewTextReporter).
Proof.
  split.
  - unfold New. destruct (Z.leb_spec total 0); split; congruence || lia.
  - intros Hr p Hp. pose proof Hp as E. apply New_fields in E. subst p.
    unfold New in Hp. destruct (Z.leb_spec total 0); [discriminate|].
    unfold wf, in_int64, int64_min, int64_max in *; simpl; repeat split; lia.
Qed.

(** C9: [Add] changes [done] alone: a sequence of [Add]s leaves the counter
    at the wrapped sum of its arguments, whatever their sizes and signs,
    and every other field as it was. *)
Theorem AddAll_done {R} (p : Progress R) ns :
  in_int64 (done p) ->
  AddAll p ns = mkProgress (total p) (wrap64 (done p + sum_list ns)) (startedAt p)
                  (reportTime p) (lastReportedDone p) (lastReportedAt p)
                  (reporter p) (doneCh p).
Proof.
  unfold AddAll. revert p. induction ns as [|n ns IH]; intros p Hd; simpl.
  - rewrite Z.add_0_r, wrap64_small by exact Hd. now destruct p.
  - rewrite IH by apply wrap64_range. simpl. unfold add64.
    rewrite wrap64_add_l, Z.add_assoc. reflexivity.
Qed.

(** A zero [total] (a [Progress{}] not made by [New]) gives the zero
    report and leaves the counter untouched. *)
Theorem Report_zero_total {R} (p : Progress R) now :
  total p = 0 -> Report p now = (zero_Report, p).
Proof. intros H. unfold Report. now rewrite H. Qed.


Lemma Report_nonzero {R} (p : Progress R) now :
  total p <> 0 -> Report p now = (snapshot p now, record_report p (done p) now).
Proof. intros H. unfold Report. now apply Z.eqb_neq in H as ->. Qed.

(** [Left] is [total - done], not clamped: negative once [done] passes
    [total] (as long as the difference is an [int64]). *)
Theorem Report_Left_unclamped {R} (p : Progress R) now :
  total p <> 0 -> in_int64 (total p - done p) ->
  Left (fst (Report p now)) = total p - done p.
Proof.
  intros H Hr. rewrite Report_nonzero by exact H. simpl.
  unfold sub64. now apply wrap64_small.
Qed.

(** [Report] is not idempotent: a second call sees the bookkeeping of the
    first, so its [DT] is the time between the two calls and its
    instantaneous rate divides a zero count of new items by it. *)
Theorem Report_twice {R} (p : Progress R) now1 now2 :
  total p <> 0 -> in_int64 (done p) ->
  let '(r1, p1) := Report p now1 in
  let '(r2, p2) := Report p1 now2 in
  ReportData.Done r2 = ReportData.Done r1 /\ DT r2 = Time_Sub now2 now1 /\
  RPSInst r2 = (0 / Duration_Seconds (Time_Sub now2 now1))%float /\
  lastReportedAt p2 = now2.
Proof.
  intros H Hd. rewrite Report_nonzero by exact H.
  rewrite Report_nonzero by (simpl; exact H). simpl.
  unfold sub64. rewrite Z.sub_diag. repeat split.
Qed.

(** Two calls at the same instant: the second has [DT = 0] and an
    instantaneous rate of [0/0], NaN. *)
Corollary Report_twice_same_instant {R} (p : Progress R) now :
  total p <> 0 -> in_int64 (done p) ->
  let r2 := fst (Report (snd (Report p now)) now) in
  DT r2 = 0 /\ PrimFloat.is_nan (RPSInst r2) = true.
Proof.
  intros H Hd. pose proof (Report_twice p now now H Hd) as T.
  destruct (Report p now) as [r1 p1]. cbn [snd]. destruct (Report p1 now) as [r2 p2].
  destruct T as (_ & HDT & HI & _). cbn [fst]. rewrite HDT, HI, Time_Sub_self.
  split; reflexivity.
Qed.

(** The estimate is zero whenever the average rate is zero, on both
    branches of [Report]. *)
Theorem Report_ETA_zero {R} (p : Progress R) now :
  (RPSAvg (fst (Report p now)) =? 0)%float = true -> ETA (fst (Report p now)) = 0.
Proof.
  report_cases p; [reflexivity|].
  intros Hr. rewrite Hr. reflexivity.
Qed.


(** ** Scenarios *)

(** [New(100)], [Add(100)], [Report()]: ratio 1, 100 percent, nothing
    left, at whatever time the report is taken. *)
Theorem scenario_all_done ch now :
  match New 100 ch with
  | Some p => let r := fst (Report (Add p 100) now) in
              Ratio r = 1%float /\ PercentInt r = 100 /\ Left r = 0
  | None => False
  end.
Proof. repeat split. Qed.



(** ** Witnesses: the theorems above at concrete counters *)

Definition w_t0 : Time := mkTime 0 (Some 0).
Definition w_t1 : Time := mkTime Second (Some Second).
Definition w_p : Progress unit := mkProgress 100 0 w_t0 Second 0 w_t0 tt 0%nat.

Ltac wf_tac := unfold wf, in_int64, int64_min, int64_max; vm_compute;
  repeat split; (reflexivity || discriminate).
(** [10^12] items, one done after 3 s: the estimate of about [3 * 10^12] s
    is reported as a negative duration. *)
Definition w_eta_p : Progress unit := Add (mkProgress (10 ^ 12) 0 w_t0 Second 0 w_t0 tt 0%nat) 1.
Definition w_eta_now : Time := mkTime (3 * Second) (Some (3 * Second)).


Ltac in64_tac := unfold in_int64, int64_min, int64_max; vm_compute; split; discriminate.

Lemma New_spec_witness :
  New 0 0%nat = None /\ (exists p, New 100 0%nat = Some p /\ wf p).
Proof.
  split; [apply (proj2 (proj1 (New_spec 0 0%nat))); lia|].
  exists (mkProgress 100 0 zero_Time DefaultReportTime 0 zero_Time
            TextReporter.NewTextReporter 0%nat).
  split; [reflexivity|].
  apply (proj2 (New_spec 100 0%nat)); [unfold in_int64, int64_min, int64_max; lia|reflexivity].
Defined.

Lemma AddAll_done_witness : done (AddAll w_p [5; 7; -2]) = 10.
Proof.
  rewrite (AddAll_done w_p [5; 7; -2]) by (unfold in_int64, int64_min, int64_max; simpl; lia).
  reflexivity.
Defined.

Lemma Report_zero_total_witness :
  Report (mkProgress 0 3 w_t0 Second 0 w_t0 tt 0%nat) w_t1
  = (zero_Report, mkProgress 0 3 w_t0 Second 0 w_t0 tt 0%nat).
Proof. apply Report_zero_total. reflexivity. Defined.

Lemma Report_Left_unclamped_witness : Left (fst (Report (Add w_p 150) w_t1)) = -50.
Proof.
  rewrite (Report_Left_unclamped (Add w_p 150) w_t1);
    [reflexivity|discriminate|unfold in_int64, int64_min, int64_max; simpl; lia].
Defined.

Lemma Report_twice_witness :
  let '(r1, p1) := Report (Add w_p 7) w_t1 in
  let '(r2, p2) := Report p1 (mkTime (2 * Second) (Some (2 * Second))) in
  ReportData.Done r2 = ReportData.Done r1 /\ DT r2 = Second /\
  RPSInst r2 = (0 / Duration_Seconds Second)%float /\
  lastReportedAt p2 = mkTime (2 * Second) (Some (2 * Second)).
Proof.
  apply (Report_twice (Add w_p 7) w_t1 (mkTime (2 * Second) (Some (2 * Second))));
    [discriminate|in64_tac].
Defined.

Lemma Report_twice_same_instant_witness :
  let r2 := fst (Report (snd (Report (Add w_p 7) w_t1)) w_t1) in
  DT r2 = 0 /\ PrimFloat.is_nan (RPSInst r2) = true.
Proof.
  apply Report_twice_same_instant; [discriminate|in64_tac].
Defined.

Lemma Report_ETA_zero_witness : ETA (fst (Report w_p w_t1)) = 0.
Proof. apply Report_ETA_zero. vm_compute. reflexivity. Defined.

End Progress.
