(* ===== verification/Legacy.v ===== *)
(** * Legacy: the older revision of the counter, src/gopv.go

    src/gopv.go is the previous revision of the package's main file: the
    same [Progress] struct without [doneCh], the same [New],
    [NewTextWithLegend], [WithReporter], [Add] and [Report], and a [Start]
    whose goroutine has no deferred [Finalize] (that goroutine is the
    [Legacy] version of [Scheduler.step]).  This file translates the
    counter of that revision on its own, and proves that the current
    revision computes the same: forgetting [doneCh] commutes with every
    operation, so the theorems of [Progress] hold of the old code too and
    the scheduler may run the old goroutine on the current counter. *)

From Stdlib Require Import ZArith List Bool Lia Floats.
From S2P Require Import Prelude GoRuntime ReportData TextReporter Progress.
Import ListNotations.

Local Open Scope Z_scope.

Module Legacy.

(** [type Progress struct], src/gopv.go lines 9-18. *)
Record Progress (R : Type) := mkProgress {
  total : Z;
  done : Z;
  startedAt : Time;
  reportTime : Z;
  lastReportedDone : Z;
  lastReportedAt : Time;
  reporter : R
}.
Arguments mkProgress {R}.
Arguments total {R}. Arguments done {R}. Arguments startedAt {R}.
Arguments reportTime {R}. Arguments lastReportedDone {R}.
Arguments lastReportedAt {R}. Arguments reporter {R}.

(** [var DefaultReportTime = time.Second], src/gopv.go line 20. *)
Definition DefaultReportTime : Z := Second.

(** [func New(total int) *Progress]: a panic ([None]) when [total <= 0]. *)
Definition New (total : Z) : option (Progress TextReporter.TextReporter) :=
  if total <=? 0 then None
  else Some (mkProgress total 0 zero_Time Legacy.DefaultReportTime 0 zero_Time TextReporter.NewTextReporter).

(** [func (p *Progress) WithReporter(r Reporter) *Progress]. *)
Definition WithReporter {R R'} (p : Progress R) (r : R') : Progress R' :=
  mkProgress (total p) (done p) (startedAt p) (reportTime p)
    (lastReportedDone p) (lastReportedAt p) r.

(** [func NewTextWithLegend(total int, legend string) *Progress]. *)
Definition NewTextWithLegend (total : Z) (legend : String.string)
    : option (Progress TextReporter.TextReporter) :=
  match New total with
  | None => None
  | Some p => Some (WithReporter p (TextReporter.WithLegend TextReporter.NewTextReporter legend))
  end.

(** [func (p *Progress) Add(done int)]: [atomic.AddInt64]. *)
Definition Add {R} (p : Progress R) (n : Z) : Progress R :=
  mkProgress (total p) (add64 (done p) n) (startedAt p) (reportTime p)
    (lastReportedDone p) (lastReportedAt p) (reporter p).

Local Open Scope float_scope.

(** [func (p *Progress) Report() Report], src/gopv.go lines 71-109: the
    zero report when [total == 0]; otherwise the snapshot at [now], and
    the deferred bookkeeping of [done] and [now]. *)
Definition Report {R} (p : Progress R) (now : Time) : ReportData.Report * Progress R :=
  if (total p =? 0)%Z then (zero_Report, p)
  else
    let dt := Time_Sub now (lastReportedAt p) in
    let d := done p in
    let ratio := float64_of_int64 d / float64_of_int64 (total p) in
    let elapsed := Time_Sub now (startedAt p) in
    let rps := float64_of_int64 d / Duration_Seconds (Time_Sub now (startedAt p)) in
    let eta := if negb (rps =? 0) then
                 mul64 (int64_of_float64 (float64_of_int64 (sub64 (total p) d) / rps)) Second
               else 0%Z in
    ({| Now := now;
        StartedAt := startedAt p;
        DT := dt;
        Total := total p;
        Done := d;
        Left := sub64 (total p) d;
        Ratio := ratio;
        PercentInt := int64_of_float64 (ratio * 100);
        PercentFloat := ratio * 100;
        Elapsed := elapsed;
        ETA := eta;
        RPSAvg := rps;
        RPSInst := float64_of_int64 (sub64 d (lastReportedDone p)) / Duration_Seconds dt;
        RPMAvg := float64_of_int64 d / Duration_Minutes (Time_Sub now (startedAt p)) |},
     mkProgress (total p) (done p) (startedAt p) (reportTime p) d now (reporter p)).

Local Close Scope float_scope.

(** The old revision's view of a current counter: [doneCh] dropped. *)
Definition forget {R} (p : Progress.Progress R) : Progress R :=
  mkProgress (Progress.total p) (Progress.done p) (Progress.startedAt p) (Progress.reportTime p)
    (Progress.lastReportedDone p) (Progress.lastReportedAt p) (Progress.reporter p).

(** The operations a client performs, on the old counter. *)
Definition run_op {R} (p : Progress R) (o : Progress.Op) : Progress R :=
  match o with
  | Progress.OpAdd n => Add p n
  | Progress.OpReport now => snd (Report p now)
  end.

(** ** The current revision refines the old one *)

Lemma forget_Add {R} (p : Progress.Progress R) n : forget (Progress.Add p n) = Add (forget p) n.
Proof. reflexivity. Qed.

Lemma forget_Report {R} (p : Progress.Progress R) now :
  Report (forget p) now = (fst (Progress.Report p now), forget (snd (Progress.Report p now))).
Proof. unfold Report, Progress.Report. cbn [total forget]. destruct (Progress.total p =? 0); reflexivity. Qed.

Lemma forget_run_op {R} (p : Progress.Progress R) o :
  run_op (forget p) o = forget (Progress.run_op p o).
Proof. destruct o as [n|now]; simpl; [reflexivity|now rewrite forget_Report]. Qed.

(** The revision that added [doneCh] changed nothing else of the
    counter: [New], [NewTextWithLegend], [WithReporter], [Add] and
    [Report] of src/gopv.go compute what those of the current file do,
    once [doneCh] is forgotten, on every input and every branch (the
    panic of [New] and the zero report of [Report] included). *)
Theorem current_refines_legacy {R R'} (p : Progress.Progress R) (r : R') total legend ch n now :
  Legacy.New total = option_map forget (Progress.New total ch) /\
  Legacy.NewTextWithLegend total legend = option_map forget (Progress.NewTextWithLegend total legend ch) /\
  WithReporter (forget p) r = forget (Progress.WithReporter p r) /\
  Add (forget p) n = forget (Progress.Add p n) /\
  Report (forget p) now = (fst (Progress.Report p now), forget (snd (Progress.Report p now))).
Proof.
  unfold Legacy.NewTextWithLegend, Progress.NewTextWithLegend, Legacy.New, Progress.New.
  repeat split; try apply forget_Report; try reflexivity; destruct (total <=? 0); reflexivity.
Qed.

(** Any sequence of [Add] and [Report] calls on the old counter gives
    the counter the current code reaches, and the same reports: the
    theorems about runs of the current counter hold of the old one. *)
Theorem legacy_runs_agree {R} (p : Progress.Progress R) (os : list Progress.Op) :
  fold_left run_op os (forget p) = forget (Progress.run_ops p os).
Proof.
  unfold Progress.run_ops. revert p. induction os as [|o os IH]; intros p; [reflexivity|].
  simpl. rewrite forget_run_op. apply IH.
Qed.

End Legacy.
