(* ===== verification/GoFmt.v ===== *)
(** * GoFmt: the formatting that [TextReporter.Report] calls

    [time.Duration.Round], [time.Duration.String], [time.Time.Format] for
    the one layout the reporter uses (["2006-01-02 03:04:05"]), the
    [float64] verbs [%.Nf] and [%v] of [fmt], and the fragment of
    [fmt.Sprintf] that a compiled legend can reach.  These are Go library
    functions, not code of the repository; each definition follows the Go
    function it names (time/format.go, time/time.go, strconv/ftoa.go,
    fmt/print.go, fmt/format.go), written over [Z] and [string].
    Theorems: [fmtInt] round-trips, [doPrintf] terminates within the fuel
    [Sprintf] gives it, a format without verbs prints its operands as
    [%!(EXTRA ...)], [Time.Format]'s 12-hour layout prints an afternoon
    time as the morning one, and the outputs on the values the reporter
    prints. *)

From Stdlib Require Import ZArith List String Ascii Bool Lia Floats.
From S2P Require Import Prelude GoRuntime.
Import ListNotations.

Local Open Scope string_scope.
Local Open Scope Z_scope.

(** ** Decimal digits *)

(** ['0' + byte(d)]. *)
Definition digit_char (d : Z) : ascii := ascii_of_nat (48 + Z.to_nat d).

(** The decimal digits of [v > 0] in front of [acc], given at least as
    many rounds as [v] has digits. *)
Fixpoint digits_loop (fuel : nat) (v : Z) (acc : string) : string :=
  match fuel with
  | O => acc
  | S f => if v <=? 0 then acc else digits_loop f (v / 10) (String (digit_char (v mod 10)) acc)
  end.

(** [fmtInt] of time/time.go: the decimal digits of a [uint64], ["0"] for 0
    (a number has no more decimal digits than bits). *)
Definition fmtInt (v : Z) : string :=
  if v =? 0 then "0" else digits_loop (S (Z.to_nat (Z.log2 v))) v "".

(** The loop of [fmtFrac]: [prec] digits of [v], least significant first,
    kept from the first non-zero one on. *)
Fixpoint fmtFrac_loop (prec : nat) (v : Z) (print : bool) (acc : string)
  : bool * string * Z :=
  match prec with
  | O => (print, acc, v)
  | S p =>
      let digit := v mod 10 in
      let print := print || negb (digit =? 0) in
      let acc := if print then String (digit_char digit) acc else acc in
      fmtFrac_loop p (v / 10) print acc
  end.

(** [fmtFrac(buf, v, prec)]: the fraction [v / 10^prec] as [".ddd"] without
    trailing zeros (nothing at all for a zero fraction), and [v / 10^prec]. *)
Definition fmtFrac (v : Z) (prec : nat) : string * Z :=
  let '(print, acc, v') := fmtFrac_loop prec v false "" in
  ((if print then String "." acc else acc), v').

(** ** time.Duration *)

(** U+00B5, the micro sign, as its two UTF-8 bytes. *)
Definition micro_sign : string :=
  String (ascii_of_nat 194) (String (ascii_of_nat 181) "").

(** [func (d Duration) String() string], through [Duration.format]: below a
    second the largest unit among ns, µs and ms with a fraction, from a
    second on [h], [m] and [s] with the seconds' fraction; trailing zeros
    of a fraction are dropped. *)
Definition Duration_String (d : Z) : string :=
  let neg := d <? 0 in
  let u := Z.abs d in
  if u =? 0 then "0s"
  else
    let body :=
      if u <? Second then
        let '(prec, unit) :=
          if u <? 1000 then (0%nat, "n")
          else if u <? Millisecond then (3%nat, micro_sign)
          else (6%nat, "m") in
        let '(frac, u) := fmtFrac u prec in
        fmtInt u ++ frac ++ unit ++ "s"
      else
        let '(frac, u) := fmtFrac u 9 in
        let secs := fmtInt (u mod 60) ++ frac ++ "s" in
        let u := u / 60 in
        if 0 <? u then
          let mins := fmtInt (u mod 60) ++ "m" ++ secs in
          let u := u / 60 in
          if 0 <? u then fmtInt u ++ "h" ++ mins else mins
        else secs in
    if neg then "-" ++ body else body.

(** [lessThanHalf(x, y)]: [uint64(x)+uint64(x) < uint64(y)]. *)
Definition lessThanHalf (x y : Z) : bool :=
  (x mod 2 ^ 64 + x mod 2 ^ 64) mod 2 ^ 64 <? y mod 2 ^ 64.

(** [func (d Duration) Round(m Duration) Duration]: the multiple of [m]
    nearest to [d], halves away from zero, saturated at the ends of the
    [Duration] range. *)
Definition Duration_Round (d m : Z) : Z :=
  if m <=? 0 then d
  else
    let r := go_rem d m in
    if d <? 0 then
      let r := - r in
      if lessThanHalf r m then d + r
      else let d1 := add64 (sub64 d m) r in
           if d1 <? d then d1 else int64_min
    else
      if lessThanHalf r m then d - r
      else let d1 := sub64 (add64 d m) r in
           if d <? d1 then d1 else int64_max.

(** ** time.Time.Format("2006-01-02 03:04:05") *)

(** [appendInt(b, x, width)]: a sign, then the digits of [|x|] padded with
    zeros to [width]. *)
Definition appendInt (x : Z) (width : nat) : string :=
  let ds := fmtInt (Z.abs x) in
  let pad := repeat_str (width - String.length ds) "0" in
  (if x <? 0 then "-" else "") ++ pad ++ ds.

(** The proleptic Gregorian date of a day number counted from
    0001-01-01 (day 0): (year, month, day). *)
Definition civil_from_days (days : Z) : Z * Z * Z :=
  let z := days - 719162 + 719468 in
  let era := z / 146097 in
  let doe := z - era * 146097 in
  let yoe := (doe - doe / 1460 + doe / 36524 - doe / 146096) / 365 in
  let doy := doe - (365 * yoe + yoe / 4 - yoe / 100) in
  let mp := (5 * doy + 2) / 153 in
  let d := doy - (153 * mp + 2) / 5 + 1 in
  let m := if mp <? 10 then mp + 3 else mp - 9 in
  let y := yoe + era * 400 + (if m <=? 2 then 1 else 0) in
  (y, m, d).

(** [t.Format("2006-01-02 03:04:05")] in the process's [time.Local], taken
    to be a zone at the fixed offset [tz] seconds east of UTC: year,
    zero-padded month and day, then the hour on a 12-hour clock
    ([stdZeroHour12]: [hour % 12], with 0 shown as 12), minutes, seconds. *)
Definition Time_Format (tz : Z) (t : Time) : string :=
  let sec := t_abs t / Second + tz in
  let '(y, mo, d) := civil_from_days (sec / 86400) in
  let sod := sec mod 86400 in
  let hour := sod / 3600 in
  let hr := hour mod 12 in
  let hr := if hr =? 0 then 12 else hr in
  appendInt y 4 ++ "-" ++ appendInt mo 2 ++ "-" ++ appendInt d 2 ++ " " ++
  appendInt hr 2 ++ ":" ++ appendInt (sod mod 3600 / 60) 2 ++ ":" ++ appendInt (sod mod 60) 2.

(** ** float64 formatting

    A finite float is [m * 2^e] exactly ([Prim2SF]); both conversions
    below work on that exact value. *)

(** The decimal digits of [n >= 0], zero-padded on the left to [w]. *)
Definition pad_digits (n : Z) (w : nat) : string :=
  let ds := fmtInt n in repeat_str (w - String.length ds) "0" ++ ds.

(** [n / d] rounded to the nearest integer, ties to even ([d > 0]). *)
Definition div_round_even (n d : Z) : Z :=
  let q := n / d in
  let r := n mod d in
  if d <? 2 * r then q + 1
  else if 2 * r =? d then (if Z.even q then q else q + 1)
  else q.

(** [x * 2^e / 10^k] as a fraction [N / M] of integers, [M > 0]. *)
Definition scaled (x e k : Z) : Z * Z :=
  (x * 2 ^ Z.max e 0 * 10 ^ Z.max (- k) 0, 2 ^ Z.max (- e) 0 * 10 ^ Z.max k 0).

(** [strconv.FormatFloat(x, 'f', prec, 64)] for a finite [x = ±m*2^e]
    ([bigFtoa] with [decimal.Round]: the exact value rounded to [prec]
    decimals, ties to even), as [fmtF] writes it: sign, integer digits,
    then [prec] decimals. *)
Definition fmtF_exact (neg : bool) (m e : Z) (prec : nat) : string :=
  let '(n, d) := scaled m e (- Z.of_nat prec) in
  let q := div_round_even n d in
  let ip := q / 10 ^ Z.of_nat prec in
  let fp := q mod 10 ^ Z.of_nat prec in
  (if neg then "-" else "") ++ fmtInt ip ++
  (match prec with O => "" | _ => "." ++ pad_digits fp prec end).

(** [fmt]'s [%.precf] of a [float64] ([fmt.fmtFloat] over
    [strconv.AppendFloat(.., 'f', prec, 64)]): NaN loses its sign, the
    infinities keep theirs. *)
Definition format_f (prec : nat) (x : float) : string :=
  match Prim2SF x with
  | S754_nan => "NaN"
  | S754_infinity s => if s then "-Inf" else "+Inf"
  | S754_zero s => fmtF_exact s 0 0 prec
  | S754_finite s m e => fmtF_exact s (Z.pos m) e prec
  end.

(** The shortest decimal that reads back as [m * 2^e] ([ryuFtoaShortest]):
    at the coarsest scale [10^k] that has a multiple inside the rounding
    interval of the float (bounds included when [m] is even), the
    multiple nearest to the exact value, ties to even, kept inside the
    interval.  [lo], [c], [hi] are the bounds and the value in units of
    [2^(e-2)] ([computeBounds]).  The search starts above any [float64]
    and stops below any. *)
Fixpoint shortest_search (fuel : nat) (k lo c hi e : Z) (incl : bool) : Z * Z :=
  match fuel with
  | O => (0, k)
  | S f =>
      let '(ln, ld) := scaled lo e k in
      let '(hn, hd) := scaled hi e k in
      let l := if incl then - ((- ln) / ld) else ln / ld + 1 in
      let u := if incl then hn / hd else - ((- hn) / hd) - 1 in
      if l <=? u then
        let '(cn, cd) := scaled c e k in
        (Z.min u (Z.max l (div_round_even cn cd)), k)
      else shortest_search f (k - 1) lo c hi e incl
  end.

Definition shortest (m e : Z) : Z * Z :=
  let border := (m =? 2 ^ 52) && negb (e =? -1074) in
  let lo := if border then 4 * m - 1 else 4 * m - 2 in
  shortest_search 700 310 lo (4 * m) (4 * m + 2) (e - 2) (Z.even m).

(** [fmtE] with [prec] decimals of the digits [ds] whose decimal point is
    after [dp] of them: [d.ddde±XX]. *)
Definition fmtE (neg : bool) (ds : string) (dp : Z) (prec : nat) : string :=
  let first := String.substring 0 1 ds in
  let more := String.substring 1 prec ds in
  let more := more ++ repeat_str (prec - String.length more) "0" in
  let x := if (String.length ds =? 0)%nat then 0 else dp - 1 in
  (if neg then "-" else "") ++ first ++
  (match prec with O => "" | _ => "." ++ more end) ++ "e" ++
  (if x <? 0 then "-" else "+") ++ pad_digits (Z.abs x) 2.

(** [fmtF] of the digits [ds] with the decimal point after [dp] of them
    and [prec] decimals. *)
Definition fmtF_digits (neg : bool) (ds : string) (dp : Z) (prec : nat) : string :=
  let nd := Z.of_nat (String.length ds) in
  let ip := if 0 <? dp
            then String.substring 0 (Z.to_nat dp) ds ++ repeat_str (Z.to_nat (dp - nd)) "0"
            else "0" in
  let frac := String.concat "" (List.map (fun i =>
                let j := dp + Z.of_nat i - 1 in
                if (0 <=? j) && (j <? nd) then String.substring (Z.to_nat j) 1 ds else "0")
              (List.seq 1 prec)) in
  (if neg then "-" else "") ++ ip ++ (match prec with O => "" | _ => "." ++ frac end).

(** [%v] of a [float64]: [strconv]'s [%g] with the shortest digits, in
    exponent form when the exponent is below -4 or at least 6 (the
    shortest mode's threshold), otherwise as [%f] with as many decimals as
    the digits need. *)
Definition format_v (x : float) : string :=
  let fin neg ds dp :=
    let nd := Z.of_nat (String.length ds) in
    let xp := dp - 1 in
    if (xp <? -4) || (6 <=? xp) then fmtE neg ds dp (Z.to_nat (nd - 1))
    else fmtF_digits neg ds dp (Z.to_nat (Z.max (nd - dp) 0)) in
  match Prim2SF x with
  | S754_nan => "NaN"
  | S754_infinity s => if s then "-Inf" else "+Inf"
  | S754_zero s => fin s "" 0
  | S754_finite s m e =>
      let '(dd, k) := shortest (Z.pos m) e in
      let ds := fmtInt dd in
      fin s ds (Z.of_nat (String.length ds) + k)
  end.

(** ** fmt.Sprintf

    The operands the reporter passes: [string]s (the formatted times, the
    bar), [int]s, [float64]s and [time.Duration]s. *)
Inductive Value :=
| VString (s : string)
| VInt (z : Z)
| VFloat (x : float)
| VDuration (d : Z).

(** [reflect.TypeOf(arg).String()]. *)
Definition type_name (v : Value) : string :=
  match v with
  | VString _ => "string" | VInt _ => "int" | VFloat _ => "float64"
  | VDuration _ => "time.Duration"
  end.

(** The flags, width and precision of one verb ([fmt.fmtFlags] with
    [wid]/[widPresent] and [prec]/[precPresent]). *)
Record Flags := mkFlags {
  sharp : bool; zero : bool; plus : bool; minus : bool; space : bool;
  wid : option Z; prec : option Z
}.

Definition no_flags : Flags := mkFlags false false false false false None None.

(** A verb with no flag, no width and no precision. *)
Definition plain (fl : Flags) : bool :=
  negb (sharp fl || zero fl || plus fl || minus fl || space fl) &&
  match wid fl, prec fl with None, None => true | _, _ => false end.

(** The same, a precision allowed. *)
Definition plain_but_prec (fl : Flags) : bool :=
  negb (sharp fl || zero fl || plus fl || minus fl || space fl) &&
  match wid fl with None => true | _ => false end.

Definition in_chars (c : string) (set : string) : bool :=
  match c with
  | String a EmptyString => existsb (Ascii.eqb a) (list_ascii_of_string set)
  | _ => false
  end.

Section Sprintf.

(** The leaves of [fmt] outside the modelled fragment: padding to a
    width, the flags, and the verbs [b o O x X c q U e E g G] and [%s]/[%v]
    with a precision.  They are left abstract: every theorem holds for
    any [fmt_other], Go's included. *)
Variable fmt_other : Flags -> Value -> string -> string.

(** [fmtInteger(v, 10, signed, 'd', ldigits)] with no flags. *)
Definition int_dec (z : Z) : string := (if z <? 0 then "-" else "") ++ fmtInt (Z.abs z).

(** [printArg(arg, 'v')]; inside [badVerb] ([erroring]) a [Duration]'s
    [String] method is not called and its integer is printed. *)
Definition print_v (erroring : bool) (v : Value) : string :=
  match v with
  | VString s => s
  | VInt z => int_dec z
  | VFloat x => format_v x
  | VDuration d => if erroring then int_dec d else Duration_String d
  end.

(** [badVerb]: [%!verb(type=value)]. *)
Definition badVerb (verb : string) (v : Value) : string :=
  "%!" ++ verb ++ "(" ++ type_name v ++ "=" ++ print_v true v ++ ")".

(** [printArg(arg, verb)]: [%T] and [%p] first, then by the operand's type
    ([fmtString], [fmtInteger], [fmtFloat], and for a [Duration]
    [handleMethods] (its [String]) before [printValue]). *)
Definition printArg (fl : Flags) (v : Value) (verb : string) : string :=
  let bad := if plain fl then badVerb verb v else fmt_other fl v verb in
  if in_chars verb "T" then (if plain fl then type_name v else fmt_other fl v verb)
  else if in_chars verb "p" then bad
  else match v with
  | VString s =>
      if in_chars verb "vs" then (if plain fl then s else fmt_other fl v verb)
      else if in_chars verb "xXq" then fmt_other fl v verb
      else bad
  | VInt z =>
      if in_chars verb "vd" then (if plain fl then int_dec z else fmt_other fl v verb)
      else if in_chars verb "boOxXcqU" then fmt_other fl v verb
      else bad
  | VFloat x =>
      if in_chars verb "fF" then
        (if plain_but_prec fl
         then format_f (Z.to_nat (match prec fl with Some p => p | None => 6 end)) x
         else fmt_other fl v verb)
      else if in_chars verb "v" then (if plain fl then format_v x else fmt_other fl v verb)
      else if in_chars verb "bgGxXeE" then fmt_other fl v verb
      else bad
  | VDuration d =>
      if in_chars verb "vs" then (if plain fl then Duration_String d else fmt_other fl v verb)
      else if in_chars verb "xXq" then fmt_other fl v verb
      else if in_chars verb "d" then (if plain fl then int_dec d else fmt_other fl v verb)
      else if in_chars verb "boOcU" then fmt_other fl v verb
      else bad
  end.

End Sprintf.

(** *** Parsing a verb: [parsenum], [argNumber], [utf8.DecodeRuneInString] *)

Definition is_digit (c : ascii) : bool :=
  (48 <=? nat_of_ascii c)%nat && (nat_of_ascii c <=? 57)%nat.

Definition digit_val (c : ascii) : Z := Z.of_nat (nat_of_ascii c) - 48.

(** [tooLarge(x)]: [x > 1e6 || x < -1e6]. *)
Definition tooLarge (x : Z) : bool := (1000000 <? x) || (x <? -1000000).

Fixpoint parsenum_loop (lim : nat) (s : string) (num : Z) (isnum : bool)
  : option (Z * bool * string) :=
  match lim, s with
  | S l, String c s' =>
      if is_digit c then
        if tooLarge num then None else parsenum_loop l s' (num * 10 + digit_val c) true
      else Some (num, isnum, s)
  | _, _ => Some (num, isnum, s)
  end.

(** [parsenum(s, start, end)] on the suffix [s] with [lim] bytes before
    [end]: the number, whether there was one, and the rest; a number
    that grows too large gives [0, false] and jumps to [end]. *)
Definition parsenum (s : string) (lim : nat) : Z * bool * string :=
  match parsenum_loop lim s 0 false with
  | Some r => r
  | None => (0, false, substring lim (String.length s - lim) s)
  end.

(** [parseArgNumber(format[i:])] for [s] starting with ['[']: the
    zero-based index, the bytes consumed, and whether it parsed. *)
Definition parseArgNumber (s : string) : Z * nat * bool :=
  if (String.length s <? 3)%nat then (0, 1%nat, false)
  else match String.index 1 "]" s with
  | None => (0, 1%nat, false)
  | Some i =>
      let '(width, ok, rest) := parsenum (substring 1 (String.length s - 1) s) (i - 1) in
      if ok && (String.length s - String.length rest =? i)%nat
      then (width - 1, S i, true)
      else (0, S i, false)
  end.

(** The state of [doPrintf] while it reads one verb. *)
Record VState := mkVS {
  vs_rest : string;        (* format[i:] *)
  vs_arg : nat;            (* argNum *)
  vs_after : bool;         (* afterIndex *)
  vs_reord : bool;         (* p.reordered *)
  vs_good : bool;          (* p.goodArgNum *)
  vs_fl : Flags;           (* p.fmt *)
  vs_out : string          (* what this verb wrote so far *)
}.

(** [p.argNumber(argNum, format, i, len(a))]. *)
Definition argNumber (n : nat) (st : VState) : VState :=
  match vs_rest st with
  | String "[" _ =>
      let '(index, w, ok) := parseArgNumber (vs_rest st) in
      let rest := substring w (String.length (vs_rest st) - w) (vs_rest st) in
      if ok && (0 <=? index) && (index <? Z.of_nat n)
      then mkVS rest (Z.to_nat index) true true (vs_good st) (vs_fl st) (vs_out st)
      else mkVS rest (vs_arg st) ok true false (vs_fl st) (vs_out st)
  | _ => mkVS (vs_rest st) (vs_arg st) false (vs_reord st) (vs_good st) (vs_fl st) (vs_out st)
  end.

(** The flags loop of [doPrintf] ([simpleFormat]). *)
Fixpoint parse_flags (s : string) (fl : Flags) : string * Flags :=
  match s with
  | String c s' =>
      if Ascii.eqb c "#" then
        parse_flags s' (mkFlags true (zero fl) (plus fl) (minus fl) (space fl) (wid fl) (prec fl))
      else if Ascii.eqb c "0" then
        parse_flags s' (mkFlags (sharp fl) true (plus fl) (minus fl) (space fl) (wid fl) (prec fl))
      else if Ascii.eqb c "+" then
        parse_flags s' (mkFlags (sharp fl) (zero fl) true (minus fl) (space fl) (wid fl) (prec fl))
      else if Ascii.eqb c "-" then
        parse_flags s' (mkFlags (sharp fl) (zero fl) (plus fl) true (space fl) (wid fl) (prec fl))
      else if Ascii.eqb c " " then
        parse_flags s' (mkFlags (sharp fl) (zero fl) (plus fl) (minus fl) true (wid fl) (prec fl))
      else (s, fl)
  | EmptyString => (s, fl)
  end.

(** [intFromArg(a, argNum)]: an [int]-kinded operand as a width or
    precision. *)
Definition intFromArg (a : list Value) (n : nat) : Z * bool * nat :=
  match nth_error a n with
  | None => (0, false, n)
  | Some v =>
      let '(num, isInt) := match v with
                           | VInt z | VDuration z => (z, true)
                           | _ => (0, false)
                           end in
      if tooLarge num then (0, false, S n) else (num, isInt, S n)
  end.

Definition set_wid (fl : Flags) (w : option Z) : Flags :=
  mkFlags (sharp fl) (zero fl) (plus fl) (minus fl) (space fl) w (prec fl).
Definition set_prec (fl : Flags) (p : option Z) : Flags :=
  mkFlags (sharp fl) (zero fl) (plus fl) (minus fl) (space fl) (wid fl) p.

(** A width: ['*'] takes an operand (a negative one sets [minus]),
    otherwise digits. *)
Definition parse_width (a : list Value) (st : VState) : VState :=
  match vs_rest st with
  | String "*" rest =>
      let '(w, present, n) := intFromArg a (vs_arg st) in
      let out := if present then vs_out st else vs_out st ++ "%!(BADWIDTH)" in
      let fl := vs_fl st in
      let fl := if w <? 0
                then mkFlags (sharp fl) false (plus fl) true (space fl) (Some (- w)) (prec fl)
                else set_wid fl (if present then Some w else None) in
      mkVS rest n false (vs_reord st) (vs_good st) fl out
  | s =>
      let '(w, present, rest) := parsenum s (String.length s) in
      let good := if vs_after st && present then false else vs_good st in
      mkVS rest (vs_arg st) (vs_after st) (vs_reord st) good
        (set_wid (vs_fl st) (if present then Some w else None)) (vs_out st)
  end.

(** A precision, when a ['.'] is followed by at least one more byte. *)
Definition parse_prec (a : list Value) (st : VState) : VState :=
  match vs_rest st with
  | String "." (String _ _ as s) =>
      let good := if vs_after st then false else vs_good st in
      let st := argNumber (List.length a)
                  (mkVS s (vs_arg st) (vs_after st) (vs_reord st) good (vs_fl st) (vs_out st)) in
      match vs_rest st with
      | String "*" rest =>
          let '(p, present, n) := intFromArg a (vs_arg st) in
          let '(p, present) := if p <? 0 then (0, false) else (p, present) in
          let out := if present then vs_out st else vs_out st ++ "%!(BADPREC)" in
          mkVS rest n false (vs_reord st) (vs_good st)
            (set_prec (vs_fl st) (if present then Some p else None)) out
      | s =>
          let '(p, present, rest) := parsenum s (String.length s) in
          mkVS rest (vs_arg st) (vs_after st) (vs_reord st) (vs_good st)
            (set_prec (vs_fl st) (Some (if present then p else 0))) (vs_out st)
      end
  | _ => st
  end.

Definition byte_in (c : ascii) (lo hi : nat) : bool :=
  (lo <=? nat_of_ascii c)%nat && (nat_of_ascii c <=? hi)%nat.

(** U+FFFD, what [writeRune] writes for an invalid encoding. *)
Definition RuneError : string :=
  String (ascii_of_nat 239) (String (ascii_of_nat 191) (String (ascii_of_nat 189) "")).

(** [utf8.DecodeRuneInString] as [doPrintf] uses it for the verb: the
    bytes [writeRune] writes back for it, and its size. *)
Definition decode_rune (s : string) : string * nat :=
  match s with
  | EmptyString => (RuneError, 1%nat)
  | String c0 r =>
      let b := nat_of_ascii c0 in
      let '(sz, lo, hi) :=
        if (b <? 128)%nat then (1%nat, 0%nat, 0%nat)
        else if (b <? 194)%nat then (0%nat, 0%nat, 0%nat)
        else if (b <? 224)%nat then (2%nat, 128%nat, 191%nat)
        else if (b =? 224)%nat then (3%nat, 160%nat, 191%nat)
        else if (b =? 237)%nat then (3%nat, 128%nat, 159%nat)
        else if (b <? 240)%nat then (3%nat, 128%nat, 191%nat)
        else if (b =? 240)%nat then (4%nat, 144%nat, 191%nat)
        else if (b <? 244)%nat then (4%nat, 128%nat, 191%nat)
        else if (b =? 244)%nat then (4%nat, 128%nat, 143%nat)
        else (0%nat, 0%nat, 0%nat) in
      let cont i lo hi := match get i s with Some c => byte_in c lo hi | None => false end in
      match sz with
      | 1%nat => (String c0 "", 1%nat)
      | 0%nat => (RuneError, 1%nat)
      | _ =>
          if cont 1%nat lo hi && ((sz <=? 2)%nat || cont 2%nat 128%nat 191%nat) &&
             ((sz <=? 3)%nat || cont 3%nat 128%nat 191%nat)
          then (substring 0 sz s, sz) else (RuneError, 1%nat)
      end
  end.

(** *** [doPrintf] *)

Section DoPrintf.
Variable fmt_other : Flags -> Value -> string -> string.
Variable a : list Value.

(** The text up to the next ['%'], and the rest from it. *)
Fixpoint split_pct (s : string) : string * string :=
  match s with
  | EmptyString => ("", "")
  | String c s' =>
      if Ascii.eqb c "%" then ("", s)
      else let '(lit, rest) := split_pct s' in (String c lit, rest)
  end.

(** One verb, [s] the format after its ['%']: what it writes, the rest of
    the format, the next [argNum], [reordered], and whether the format
    ended without a verb ([break formatLoop]). *)
Definition do_verb (s : string) (argNum : nat) (reordered : bool)
  : string * string * nat * bool * bool :=
  let '(s, fl) := parse_flags s no_flags in
  let st := mkVS s argNum false reordered true fl "" in
  let st := argNumber (List.length a) st in
  let st := parse_width a st in
  let st := parse_prec a st in
  let st := if vs_after st then st else argNumber (List.length a) st in
  match vs_rest st with
  | EmptyString => (vs_out st ++ "%!(NOVERB)", "", vs_arg st, vs_reord st, true)
  | rest =>
      let '(verb, size) := decode_rune rest in
      let rest := substring size (String.length rest - size) rest in
      let n := vs_arg st in
      if in_chars verb "%" then (vs_out st ++ "%", rest, n, vs_reord st, false)
      else if negb (vs_good st) then (vs_out st ++ "%!" ++ verb ++ "(BADINDEX)", rest, n, vs_reord st, false)
      else match nth_error a n with
      | None => (vs_out st ++ "%!" ++ verb ++ "(MISSING)", rest, n, vs_reord st, false)
      | Some v => (vs_out st ++ printArg fmt_other (vs_fl st) v verb, rest, S n, vs_reord st, false)
      end
  end.

(** [formatLoop]: literal text, then a verb, until the format ends; every
    round consumes at least the ['%'], so [String.length format + 1]
    rounds suffice. *)
Fixpoint format_loop (fuel : nat) (s : string) (argNum : nat) (reordered : bool)
  : string * nat * bool :=
  match fuel with
  | O => ("", argNum, reordered)
  | S f =>
      let '(lit, rest) := split_pct s in
      match rest with
      | EmptyString => (lit, argNum, reordered)
      | String _ s' =>
          let '(out, rest, n, r, stop) := do_verb s' argNum reordered in
          if stop then (lit ++ out, n, r)
          else let '(out', n', r') := format_loop f rest n r in (lit ++ out ++ out', n', r')
      end
  end.

(** The [%!(EXTRA type=value, ...)] list of the operands left over. *)
Definition extra (vs : list Value) : string :=
  "%!(EXTRA " ++
  String.concat ", " (List.map (fun v => type_name v ++ "=" ++ print_v false v) vs) ++ ")".

(** [fmt.Sprintf(format, a...)]: the operands not consumed are listed
    unless the format used an explicit index ([p.reordered]). *)
Definition Sprintf (format : string) : string :=
  let '(out, n, reordered) := format_loop (S (String.length format)) format 0 false in
  if negb reordered && (n <? List.length a)%nat then out ++ extra (skipn n a) else out.

End DoPrintf.

(** ** Properties *)

Definition pct_free (s : string) : bool :=
  forallb (fun c => negb (Ascii.eqb c "%")) (list_ascii_of_string s).

(** The value of a string of decimal digits, read left to right after
    the value [n] of what came before: the inverse that [fmtInt] is
    checked against. *)
Fixpoint read_dec_from (n : Z) (s : string) : Z :=
  match s with
  | EmptyString => n
  | String c s' => read_dec_from (n * 10 + digit_val c) s'
  end.

Definition read_dec (s : string) : Z := read_dec_from 0 s.

Definition all_digits (s : string) : bool := forallb is_digit (list_ascii_of_string s).

Lemma digit_char_val d : 0 <= d < 10 -> digit_val (digit_char d) = d /\ is_digit (digit_char d) = true.
Proof.
  intros H. unfold digit_val, is_digit, digit_char.
  rewrite Ascii.nat_ascii_embedding by lia. split; [lia|].
  apply andb_true_iff. split; apply Nat.leb_le; lia.
Qed.

Lemma read_dec_from_linear n s :
  read_dec_from n s = n * 10 ^ Z.of_nat (String.length s) + read_dec s.
Proof.
  revert n. induction s as [|c s IH]; intros n; [simpl; unfold read_dec; simpl; lia|].
  unfold read_dec. cbn [read_dec_from String.length].
  rewrite (IH (n * 10 + digit_val c)), (IH (0 * 10 + digit_val c)), Nat2Z.inj_succ, Z.pow_succ_r by lia.
  ring.
Qed.

Lemma read_dec_cons c s :
  read_dec (String c s) = digit_val c * 10 ^ Z.of_nat (String.length s) + read_dec s.
Proof. unfold read_dec at 1. cbn [read_dec_from]. apply read_dec_from_linear. Qed.

Lemma digits_loop_read fuel v acc :
  0 <= v < 10 ^ Z.of_nat fuel ->
  read_dec (digits_loop fuel v acc) = v * 10 ^ Z.of_nat (String.length acc) + read_dec acc /\
  all_digits (digits_loop fuel v acc) = all_digits acc.
Proof.
  revert v acc. induction fuel as [|f IH]; intros v acc Hv; simpl.
  - assert (v = 0) by (simpl in Hv; lia). subst. split; [lia|reflexivity].
  - destruct (Z.leb_spec v 0) as [Hle|Hgt]; [replace v with 0 by lia; split; [lia|reflexivity]|].
    rewrite Nat2Z.inj_succ, Z.pow_succ_r in Hv by lia.
    assert (Hq : 0 <= v / 10 < 10 ^ Z.of_nat f) by (split; [apply Z.div_pos|apply Z.div_lt_upper_bound]; lia).
    destruct (IH (v / 10) (String (digit_char (v mod 10)) acc) Hq) as [-> ->].
    destruct (digit_char_val (v mod 10)) as [Hd Hc]; [apply Z.mod_pos_bound; lia|].
    unfold all_digits. cbn [String.length list_ascii_of_string forallb].
    rewrite read_dec_cons, Hd, Hc. split; [|reflexivity].
    rewrite Nat2Z.inj_succ, Z.pow_succ_r by lia.
    pose proof (Z.div_mod v 10 ltac:(lia)) as Hdm.
    set (q := v / 10) in *. set (r := v mod 10) in *. clearbody q r. subst v. ring.
Qed.

Lemma split_pct_free (s : string) : pct_free s = true -> split_pct s = (s, "").
Proof.
  induction s as [|c s IH]; [reflexivity|]. unfold pct_free. simpl.
  intros H. apply andb_true_iff in H as [Hc H].
  destruct (Ascii.eqb c "%"); [discriminate|]. now rewrite IH.
Qed.

(** A format with no verb prints itself, then every operand in the
    [%!(EXTRA type=value, ...)] list: [Sprintf] does not pass text
    through silently when operands are left over. *)
Theorem Sprintf_no_verbs (fmt_other : Flags -> Value -> string -> string) (a : list Value) (s : string) :
  pct_free s = true -> a <> [] -> Sprintf fmt_other a s = s ++ extra a.
Proof.
  intros Hs Ha. unfold Sprintf. simpl. rewrite split_pct_free by exact Hs.
  destruct a as [|v a]; [contradiction|]. reflexivity.
Qed.

(** C29: The layout ["2006-01-02 03:04:05"] is a 12-hour clock with no
    AM/PM: for every zone offset and every instant whose local time is
    before noon, the instant twelve hours later prints the same string
    (13:05:09 prints as 01:05:09 of the same day). *)
Theorem Time_Format_12_hour tz a m :
  (a / Second + tz) mod 86400 < 43200 ->
  Time_Format tz (mkTime (a + 43200 * Second) m) = Time_Format tz (mkTime a m).
Proof.
  intros H. unfold Time_Format. cbn [t_abs].
  rewrite Z.div_add by (unfold Second; lia).
  replace (a / Second + 43200 + tz) with ((a / Second + tz) + 43200) by lia.
  set (sec := a / Second + tz) in *.
  pose proof (Z.div_mod sec 86400 ltac:(lia)) as D. pose proof (Z.mod_pos_bound sec 86400 ltac:(lia)) as B.
  assert (E1 : (sec + 43200) / 86400 = sec / 86400)
    by (symmetry; apply Z.div_unique_pos with (r := sec mod 86400 + 43200); lia).
  assert (E2 : (sec + 43200) mod 86400 = sec mod 86400 + 12 * 3600)
    by (symmetry; apply Z.mod_unique_pos with (q := sec / 86400); lia).
  rewrite E1, E2. destruct (civil_from_days (sec / 86400)) as [[y mo] d].
  set (sod := sec mod 86400).
  assert (H1 : (sod + 12 * 3600) / 3600 = sod / 3600 + 12) by (rewrite Z.div_add; lia).
  assert (H2 : (sod + 12 * 3600) mod 3600 = sod mod 3600) by apply Z_mod_plus_full.
  assert (H3 : (sod + 12 * 3600) mod 60 = sod mod 60)
    by (replace (sod + 12 * 3600) with (sod + 720 * 60) by lia; apply Z_mod_plus_full).
  assert (H4 : (sod / 3600 + 12) mod 12 = (sod / 3600) mod 12)
    by (replace (sod / 3600 + 12) with (sod / 3600 + 1 * 12) by lia; apply Z_mod_plus_full).
  rewrite H1, H2, H3, H4. reflexivity.
Qed.

(** [Duration.String] on the values the reporter prints: units below a
    second, [h]/[m]/[s] above, fractions without trailing zeros, and the
    extremes of the range. *)
Theorem Duration_String_examples :
  List.map Duration_String [0; 999; 1500; 1500000; 4 * Second; 3723500000000; -1500000000;
                            60 * Second; int64_max; int64_min] =
  ["0s"; "999ns"; "1.5" ++ micro_sign ++ "s"; "1.5ms"; "4s"; "1h2m3.5s"; "-1.5s";
   "1m0s"; "2562047h47m16.854775807s"; "-2562047h47m16.854775808s"].
Proof. vm_compute. reflexivity. Qed.

(** [%.2f] rounds the exact binary value, ties to even, and [%v] prints
    the shortest decimal that reads back as the same float. *)
Theorem float_format_examples :
  List.map (format_f 2) [0.125; 0.375; 2.675; -0.001; nan; infinity]%float =
    ["0.12"; "0.38"; "2.67"; "-0.00"; "NaN"; "+Inf"] /\
  List.map format_v [0.39; 1e6; 123456; 0.1 + 0.2; 1e-5; 1e23; -0; 0x1p-1074]%float =
    ["0.39"; "1e+06"; "123456"; "0.30000000000000004"; "1e-05"; "1e+23"; "-0"; "5e-324"].
Proof. vm_compute. split; reflexivity. Qed.


(** *** Every round of [doPrintf] consumes format bytes *)

Lemma parsenum_loop_suffix lim s num b n b' rest :
  parsenum_loop lim s num b = Some (n, b', rest) -> str_suffix rest s.
Proof.
  revert s num b. induction lim as [|lim IH]; intros [|c s] num b H; simpl in H;
    try (injection H as <- <- <-; auto with gopv; fail).
  destruct (is_digit c); [|injection H as <- <- <-; auto with gopv].
  destruct (tooLarge num); [discriminate|]. apply str_suffix_cons. eapply IH; exact H.
Qed.

Lemma parsenum_suffix s lim n b rest : parsenum s lim = (n, b, rest) -> str_suffix rest s.
Proof.
  unfold parsenum. destruct (parsenum_loop lim s 0 false) as [[[n' b'] r']|] eqn:E; intros H.
  - injection H as <- <- <-. eapply parsenum_loop_suffix; exact E.
  - injection H as <- <- <-. auto with gopv.
Qed.

Lemma parse_flags_suffix s fl : str_suffix (fst (parse_flags s fl)) s.
Proof.
  revert fl. induction s as [|c s IH]; intros fl; simpl; [auto with gopv|].
  repeat (destruct (Ascii.eqb _ _); [apply str_suffix_cons, IH|]). auto with gopv.
Qed.

Lemma argNumber_suffix n st : str_suffix (vs_rest (argNumber n st)) (vs_rest st).
Proof.
  unfold argNumber. destruct (vs_rest st) as [|c s]; [auto with gopv|].
  repeat (destruct_inner_match; cbn [vs_rest]); auto with gopv.
Qed.

(** The suffix left after a step, through the [VState]. *)
Ltac vs_suffix_tac :=
  repeat (destruct_inner_match_eqn; cbn [vs_rest] in *);
  subst; eauto using str_suffix_cons, str_suffix_trans, parsenum_suffix, str_suffix_refl with gopv.

Lemma parse_width_suffix a st : str_suffix (vs_rest (parse_width a st)) (vs_rest st).
Proof. unfold parse_width. destruct (vs_rest st) as [|c s]; vs_suffix_tac. Qed.

(** Closing a case of a parser that skipped one byte and then read a
    suffix of the rest. *)
Ltac sfx_close :=
  apply str_suffix_cons;
  first [eapply str_suffix_tail; eassumption | eapply str_suffix_trans; eassumption].

Lemma parse_prec_suffix a st : str_suffix (vs_rest (parse_prec a st)) (vs_rest st).
Proof.
  unfold parse_prec. destruct (vs_rest st) as [|c s] eqn:E; [rewrite E; auto with gopv|].
  destruct s as [|c' s]; destruct c as [[] [] [] [] [] [] [] []]; cbn iota beta;
    try (rewrite E; auto with gopv; fail).
  match goal with
  | |- context [argNumber ?n ?st'] =>
      pose proof (argNumber_suffix n st') as Hs; set (st1 := argNumber n st') in *
  end.
  cbn [vs_rest] in Hs. destruct (vs_rest st1) as [|d r] eqn:E1.
  - destruct (parsenum _ _) as [[p b] r] eqn:P. apply parsenum_suffix in P. cbn [vs_rest]. sfx_close.
  - destruct d as [[] [] [] [] [] [] [] []]; cbn iota beta;
    first [destruct (parsenum _ _) as [[p b] r'] eqn:P; apply parsenum_suffix in P; cbn [vs_rest]
          | repeat (destruct_inner_match; cbn [vs_rest])];
    sfx_close.
Qed.

Lemma do_verb_suffix fmt_other a s n r :
  let '(_, rest, _, _, _) := do_verb fmt_other a s n r in str_suffix rest s.
Proof.
  unfold do_verb.
  pose proof (parse_flags_suffix s no_flags) as H1. destruct (parse_flags s no_flags) as [s1 fl].
  cbn [fst] in H1.
  match goal with |- context [argNumber ?k ?st0] => pose proof (argNumber_suffix k st0) as H2;
    set (st1 := argNumber k st0) in * end.
  pose proof (parse_width_suffix a st1) as H3. set (st2 := parse_width a st1) in *.
  pose proof (parse_prec_suffix a st2) as H4. set (st3 := parse_prec a st2) in *.
  assert (H5 : str_suffix (vs_rest (if vs_after st3 then st3 else argNumber (List.length a) st3)) (vs_rest st3))
    by (destruct (vs_after st3); [apply str_suffix_refl|apply argNumber_suffix]).
  set (st4 := if vs_after st3 then st3 else argNumber (List.length a) st3) in *.
  cbn [vs_rest] in H2.
  assert (H : str_suffix (vs_rest st4) s) by eauto using str_suffix_trans.
  destruct (vs_rest st4) as [|c rest]; [apply str_suffix_nil|].
  destruct (decode_rune (String c rest)) as [verb size].
  assert (H' : str_suffix (substring size (String.length (String c rest) - size) (String c rest)) s)
    by (eapply str_suffix_trans; [apply substring_suffix|exact H]).
  repeat (destruct_inner_match; cbn iota beta); exact H'.
Qed.

Lemma split_pct_suffix s : str_suffix (snd (split_pct s)) s.
Proof.
  induction s as [|c s IH]; simpl; [apply str_suffix_refl|].
  destruct (Ascii.eqb c "%"); [apply str_suffix_refl|].
  destruct (split_pct s) as [lit rest]. apply str_suffix_cons, IH.
Qed.

(** Fuel beyond the length of the format changes nothing. *)
Lemma format_loop_fuel fmt_other a f f' s n r :
  (String.length s < f)%nat -> (f <= f')%nat ->
  format_loop fmt_other a f s n r = format_loop fmt_other a f' s n r.
Proof.
  revert f' s n r. induction f as [|f IH]; intros f' s n r Hs Hf; [lia|].
  destruct f' as [|f']; [lia|]. cbn [format_loop].
  pose proof (split_pct_suffix s) as Hp. destruct (split_pct s) as [lit rest]. cbn [snd] in Hp.
  destruct rest as [|c s']; [reflexivity|].
  pose proof (do_verb_suffix fmt_other a s' n r) as Hv.
  destruct (do_verb fmt_other a s' n r) as [[[[out rest] n'] r'] stop].
  destruct stop; [reflexivity|].
  apply str_suffix_length in Hp, Hv. cbn [String.length] in Hp.
  rewrite (IH f' rest n' r') by lia. reflexivity.
Qed.

(** [doPrintf] terminates: every round of its loop consumes at least
    one byte of the format, so the [String.length format + 1] rounds
    [Sprintf] allows are enough, and any more fuel gives the same output,
    the same [argNum] and the same [reordered]. *)
Theorem Sprintf_fuel_enough fmt_other a format fuel :
  (String.length format < fuel)%nat ->
  format_loop fmt_other a fuel format 0 false =
  format_loop fmt_other a (S (String.length format)) format 0 false.
Proof. intros H. symmetry. apply format_loop_fuel; lia. Qed.

Lemma Sprintf_fuel_enough_witness :
  format_loop (fun _ _ _ => "") [VInt 7; VString "x"] 100 "%[2]s and %d%!" 0 false =
  format_loop (fun _ _ _ => "") [VInt 7; VString "x"] 15 "%[2]s and %d%!" 0 false.
Proof. apply (Sprintf_fuel_enough (fun _ _ _ => "") [VInt 7; VString "x"] "%[2]s and %d%!" 100). vm_compute. lia. Defined.


Lemma Sprintf_no_verbs_witness :
  Sprintf (fun _ _ _ => "") [VInt 7] "working" = "working%!(EXTRA int=7)".
Proof. rewrite (Sprintf_no_verbs (fun _ _ _ => "") [VInt 7] "working"); [reflexivity|reflexivity|discriminate]. Defined.

(** 2023-12-02 01:05:09 UTC and twelve hours later. *)
Lemma Time_Format_12_hour_witness :
  Time_Format 0 (mkTime (63837075909 * Second + 43200 * Second) None) = "2023-12-02 01:05:09" /\
  Time_Format 0 (mkTime (63837075909 * Second) None) = "2023-12-02 01:05:09".
Proof.
  rewrite (Time_Format_12_hour 0 (63837075909 * Second) None) by (vm_compute; reflexivity).
  split; vm_compute; reflexivity.
Defined.
