(* ===== verification/Output.v ===== *)
(** * Output: [bufio.Writer] over the process's output handles

    The reporter writes through a [*bufio.Writer] ([bufio.NewWriter],
    [WriteString], [Flush]) to an [io.Writer] ([os.Stderr] by default).
    The writers live in a [Store], so that two reporters holding the same
    pointer share one buffer and one sticky error; the handles are in a
    [World] that records what reached each handle and whether a write to
    it fails.  A write to a handle succeeds or fails as a whole (an
    [*os.File] write does not stop half-way on a healthy descriptor).

    [WriteString] is bufio's own loop, with the 4096-byte buffer: a string
    that does not fit is written straight through when the buffer is
    empty (every handle here is an [io.StringWriter], as [*os.File] is),
    otherwise the buffer is filled and flushed first.  The theorem
    [write_flush_refines] shows that a [WriteString] followed by a [Flush]
    does what the reporter relies on: the buffered text and the new text
    reach the handle, in order and in full, or nothing does and the
    error sticks.  The loop terminates within the fuel [WriteString]
    gives it ([WriteString_fuel_enough]), and the buffer never holds more
    than 4096 bytes ([writer_wf], kept by [WriteString] and [Flush]). *)

From Stdlib Require Import ZArith List String Bool Lia.
From S2P Require Import Prelude GoRuntime TextReporter.
Import ListNotations.

Local Open Scope string_scope.
Local Open Scope nat_scope.

Module Output.

(** [defaultBufSize]. *)
Definition defaultBufSize : nat := 4096.

(** [type Writer struct { err error; buf []byte; n int; wr io.Writer }]:
    [buf] holds the [n] buffered bytes. *)
Record Writer := mkWriter {
  wr : WriterHandle;
  buf : string;
  err : bool
}.

(** The handles: the bytes that reached each one, and whether writing to
    it fails now. *)
Record World := mkWorld {
  written : WriterHandle -> string;
  fails : WriterHandle -> bool
}.

Definition upd_written (w : World) (h : WriterHandle) (s : string) : World :=
  mkWorld (fun h' => if Nat.eqb h' h then written w h ++ s else written w h') (fails w).

(** [wr.Write(p)] / [wr.WriteString(s)] on a handle: all of it, or an
    error and nothing. *)
Definition os_write (w : World) (h : WriterHandle) (s : string) : World * bool :=
  if fails w h then (w, true) else (upd_written w h s, false).

(** [func NewWriter(w io.Writer) *Writer]. *)
Definition NewWriter (h : WriterHandle) : Writer := mkWriter h "" false.

(** [b.Available()]. *)
Definition Available (b : Writer) : nat := defaultBufSize - String.length (buf b).

(** [func (b *Writer) Flush() error]: nothing after an error or with an
    empty buffer; otherwise the buffer goes out, or stays and the error
    is recorded. *)
Definition Flush (b : Writer) (w : World) : Writer * World :=
  if err b then (b, w)
  else match buf b with
  | EmptyString => (b, w)
  | _ =>
      let '(w', e) := os_write w (wr b) (buf b) in
      if e then (mkWriter (wr b) (buf b) true, w') else (mkWriter (wr b) "" false, w')
  end.

(** The loop of [func (b *Writer) WriteString(s string) (int, error)]:
    while [s] does not fit and there is no error, write it through (empty
    buffer) or fill the buffer and flush; each round removes at least one
    byte of [s] or ends the loop. *)
Fixpoint WriteString_loop (fuel : nat) (b : Writer) (w : World) (s : string)
  : Writer * World * string :=
  match fuel with
  | O => (b, w, s)
  | S f =>
      if negb (Available b <? String.length s) || err b then (b, w, s)
      else match buf b with
      | EmptyString =>
          let '(w', e) := os_write w (wr b) s in
          if e then (mkWriter (wr b) (buf b) true, w', s)
          else (b, w', "")
      | _ =>
          let n := Available b in
          let b1 := mkWriter (wr b) (buf b ++ substring 0 n s) (err b) in
          let '(b2, w2) := Flush b1 w in
          WriteString_loop f b2 w2 (substring n (String.length s - n) s)
      end
  end.

(** [WriteString]: the loop, then what is left is copied into the buffer
    unless an error stopped it. *)
Definition WriteString (b : Writer) (w : World) (s : string) : Writer * World :=
  let '(b', w', s') := WriteString_loop (S (String.length s)) b w s in
  if err b' then (b', w') else (mkWriter (wr b') (buf b' ++ s') false, w').

(** ** The store of [*bufio.Writer]s *)

Definition Store := list Writer.

(** [bufio.NewWriter(r.output)]: a fresh writer at the end of the store. *)
Definition alloc (st : Store) (h : WriterHandle) : Store * nat :=
  ((st ++ [NewWriter h])%list, List.length st).

Fixpoint set_nth (st : Store) (i : nat) (b : Writer) : Store :=
  match st, i with
  | [], _ => []
  | _ :: st', O => b :: st'
  | x :: st', S i' => x :: set_nth st' i' b
  end.

(** ** The buffered writer refines "append to the handle" *)

(** [w'] is [w] with [s] appended to handle [h]. *)
Definition appended (w w' : World) (h : WriterHandle) (s : string) : Prop :=
  written w' h = written w h ++ s /\
  (forall h', h' <> h -> written w' h' = written w h') /\ fails w' = fails w.

(** [w'] is [w] with some bytes appended to handle [h] and nothing else
    changed: all a writer on [h] can do. *)
Definition grows (h : WriterHandle) (w w' : World) : Prop := exists out, appended w w' h out.

Lemma appended_nil w h : appended w w h "".
Proof. unfold appended. rewrite str_app_nil_r. auto. Qed.

Lemma appended_trans w1 w2 w3 h s1 s2 :
  appended w1 w2 h s1 -> appended w2 w3 h s2 -> appended w1 w3 h (s1 ++ s2).
Proof.
  intros (A1 & B1 & C1) (A2 & B2 & C2). unfold appended.
  rewrite A2, A1, str_app_assoc. split; [reflexivity|split; [|congruence]].
  intros h' H. rewrite B2, B1 by exact H. reflexivity.
Qed.

Lemma os_write_healthy w h s :
  fails w h = false -> os_write w h s = (upd_written w h s, false) /\ appended w (upd_written w h s) h s.
Proof.
  intros Hf. unfold os_write. rewrite Hf. split; [reflexivity|].
  unfold appended, upd_written; simpl. rewrite Nat.eqb_refl. split; [reflexivity|split; [|reflexivity]].
  intros h' H. apply Nat.eqb_neq in H. now rewrite H.
Qed.

Lemma Flush_healthy b w :
  fails w (wr b) = false -> err b = false ->
  let '(b', w') := Flush b w in b' = mkWriter (wr b) "" false /\ appended w w' (wr b) (buf b).
Proof.
  intros Hf He. destruct b as [h bf e]; simpl in *. subst e. unfold Flush; simpl.
  destruct bf as [|c bf].
  - split; [reflexivity|apply appended_nil].
  - destruct (os_write_healthy w h (String c bf) Hf) as [-> A]. auto.
Qed.

Lemma loop_healthy fuel b w s :
  fails w (wr b) = false -> err b = false ->
  let '(b', w', s') := WriteString_loop fuel b w s in
  err b' = false /\ wr b' = wr b /\
  exists out, appended w w' (wr b) out /\ out ++ buf b' ++ s' = buf b ++ s.
Proof.
  revert b w s. induction fuel as [|fuel IH]; intros b w s Hf He; simpl.
  { split; [exact He|split; [reflexivity|]]. exists ""; split; [apply appended_nil|reflexivity]. }
  rewrite He, orb_false_r.
  destruct (negb (Available b <? String.length s)).
  { split; [exact He|split; [reflexivity|]]. exists ""; split; [apply appended_nil|reflexivity]. }
  destruct (buf b) as [|c bf] eqn:Eb.
  - destruct (os_write_healthy w (wr b) s Hf) as [-> A]. simpl.
    split; [exact He|split; [reflexivity|]]. exists s. split; [exact A|].
    rewrite Eb. simpl. now rewrite str_app_nil_r.
  - destruct (Flush _ w) as [b2 w2] eqn:EF.
    match type of EF with
    | Flush ?b1 _ = _ => pose proof (Flush_healthy b1 w Hf eq_refl) as HF
    end.
    rewrite EF in HF.
    destruct HF as [-> A1]. simpl in A1.
    assert (Hf2 : fails w2 (wr b) = false) by (destruct A1 as (_ & _ & ->); exact Hf).
    pose proof (IH (mkWriter (wr b) "" false) w2
                  (substring (Available b) (String.length s - Available b) s) Hf2 eq_refl) as H.
    destruct (WriteString_loop fuel _ w2 _) as [[b' w'] s'].
    destruct H as (H1 & H2 & out & A2 & E). simpl in H2, A2, E. simpl.
    split; [exact H1|split; [exact H2|]].
    exists (String c (bf ++ substring 0 (Available b) s) ++ out). split; [eapply appended_trans; eauto|].
    rewrite <- str_app_assoc, E. simpl. rewrite <- str_app_assoc, substring_split. reflexivity.
Qed.

Lemma WriteString_healthy b w s :
  fails w (wr b) = false -> err b = false ->
  let '(b', w') := WriteString b w s in
  err b' = false /\ wr b' = wr b /\ exists out, appended w w' (wr b) out /\ out ++ buf b' = buf b ++ s.
Proof.
  intros Hf He. unfold WriteString.
  pose proof (loop_healthy (S (String.length s)) b w s Hf He) as H.
  destruct (WriteString_loop _ b w s) as [[b' w'] s'].
  destruct H as (H1 & H2 & out & A & E). rewrite H1. simpl.
  split; [reflexivity|split; [exact H2|exists out; split; [exact A|exact E]]].
Qed.

(** A writer with an error writes nothing more: [WriteString] and
    [Flush] return at once. *)
Lemma err_sticky b w s :
  err b = true -> WriteString b w s = (b, w) /\ Flush b w = (b, w).
Proof.
  intros He. unfold WriteString, Flush. rewrite He. split; [|reflexivity].
  destruct (String.length s); simpl; rewrite He, orb_true_r; rewrite He; reflexivity.
Qed.
(** ** A writer appends to its own handle and nowhere else *)

Lemma grows_refl h w : grows h w w.
Proof. exists "". apply appended_nil. Qed.

Lemma grows_trans h w1 w2 w3 : grows h w1 w2 -> grows h w2 w3 -> grows h w1 w3.
Proof. intros [o1 A1] [o2 A2]. exists (o1 ++ o2). eapply appended_trans; eassumption. Qed.

Ltac grows_chain :=
  repeat first [ apply grows_refl | assumption | eapply grows_trans; [eassumption|] ].

Lemma os_write_appends w h s : exists out, appended w (fst (os_write w h s)) h out.
Proof.
  destruct (fails w h) eqn:Hf.
  - exists "". unfold os_write. rewrite Hf. apply appended_nil.
  - exists s. destruct (os_write_healthy w h s Hf) as [-> A]. exact A.
Qed.

Lemma Flush_appends b w :
  wr (fst (Flush b w)) = wr b /\ exists out, appended w (snd (Flush b w)) (wr b) out.
Proof.
  unfold Flush. destruct (err b); [split; [reflexivity|exists ""; apply appended_nil]|].
  destruct (buf b) as [|c bf]; [split; [reflexivity|exists ""; apply appended_nil]|].
  destruct (os_write_appends w (wr b) (String c bf)) as [out A].
  destruct (os_write w (wr b) (String c bf)) as [w' []]; (split; [reflexivity|exists out; exact A]).
Qed.

Lemma loop_appends fuel b w s :
  let '(b', w', _) := WriteString_loop fuel b w s in
  wr b' = wr b /\ exists out, appended w w' (wr b) out.
Proof.
  revert b w s. induction fuel as [|fuel IH]; intros b w s; simpl;
    [split; [reflexivity|exists ""; apply appended_nil]|].
  destruct (negb (Available b <? String.length s) || err b);
    [split; [reflexivity|exists ""; apply appended_nil]|].
  destruct (buf b) as [|c bf].
  - destruct (os_write_appends w (wr b) s) as [out A].
    destruct (os_write w (wr b) s) as [w' []]; (split; [reflexivity|exists out; exact A]).
  - match goal with |- context [Flush ?b1 w] =>
      destruct (Flush_appends b1 w) as [E1 [o1 A1]]; destruct (Flush b1 w) as [b2 w2] end.
    simpl in E1, A1.
    match goal with |- context [WriteString_loop fuel b2 w2 ?t] =>
      pose proof (IH b2 w2 t) as H; destruct (WriteString_loop fuel b2 w2 t) as [[b' w'] s'] end.
    destruct H as [E2 [o2 A2]]. rewrite E1 in E2, A2.
    split; [exact E2|exists (o1 ++ o2); eapply appended_trans; eassumption].
Qed.

(** Whatever happens to [WriteString], error or not, the world changes
    only by bytes appended to the writer's handle. *)
Lemma WriteString_appends b w s :
  wr (fst (WriteString b w s)) = wr b /\ exists out, appended w (snd (WriteString b w s)) (wr b) out.
Proof.
  unfold WriteString. pose proof (loop_appends (S (String.length s)) b w s) as H.
  destruct (WriteString_loop _ b w s) as [[b' w'] s']. destruct H as [E A].
  destruct (err b'); exact (conj E A).
Qed.

(** ** [WriteString]'s loop terminates *)

(** What is left to do: nothing once an error is recorded, otherwise the
    bytes still to write and one round to empty a non-empty buffer. *)
Definition loop_measure (b : Writer) (s : string) : nat :=
  if err b then 0 else String.length s + (match buf b with EmptyString => 0 | _ => 1 end).

Lemma Flush_outcome b w :
  err b = false -> err (fst (Flush b w)) = true \/ buf (fst (Flush b w)) = "".
Proof.
  intros He. unfold Flush. rewrite He. destruct (buf b) as [|c bf] eqn:Eb; [right; exact Eb|].
  destruct (os_write w (wr b) (String c bf)) as [w' []]; simpl; auto.
Qed.

Lemma loop_fuel f f' b w s :
  loop_measure b s <= f -> f <= f' -> WriteString_loop f b w s = WriteString_loop f' b w s.
Proof.
  revert f' b w s. induction f as [|f IH]; intros f' b w s Hm Hf.
  - destruct f' as [|f']; [reflexivity|]. unfold loop_measure in Hm. simpl.
    destruct (err b) eqn:He; [now rewrite orb_true_r|].
    destruct s as [|c s]; [|simpl in Hm; lia].
    assert (E : (Available b <? String.length "") = false) by (apply Nat.ltb_ge; simpl; lia).
    now rewrite E.
  - destruct f' as [|f']; [lia|]. simpl.
    destruct (negb (Available b <? String.length s) || err b) eqn:Ec; [reflexivity|].
    apply orb_false_iff in Ec as [_ He].
    destruct (buf b) as [|c bf] eqn:Eb; [reflexivity|].
    destruct (Flush _ w) as [b2 w2] eqn:EF.
    match type of EF with Flush ?b1 _ = _ => pose proof (Flush_outcome b1 w He) as HO end.
    rewrite EF in HO. cbn [fst] in HO.
    apply IH; [|lia].
    unfold loop_measure in *. rewrite He, Eb in Hm.
    pose proof (str_suffix_length _ _ (substring_suffix (Available b) s)).
    destruct HO as [H1|H1]; rewrite H1; cbn iota; [lia|destruct (err b2); lia].
Qed.

(** [WriteString] gives its loop one round per byte of the string and
    one more: that is enough, every larger fuel gives the same writer,
    world and remainder, so the loop ends by its own condition. *)
Theorem WriteString_fuel_enough b w s fuel :
  S (String.length s) <= fuel ->
  WriteString_loop fuel b w s = WriteString_loop (S (String.length s)) b w s.
Proof.
  intros H. symmetry. apply loop_fuel; [|exact H].
  unfold loop_measure. destruct (err b); [lia|]. destruct (buf b); lia.
Qed.

(** ** The buffer never holds more than [defaultBufSize] bytes *)

(** [b.n <= len(b.buf)]: the invariant of a [bufio.Writer]. *)
Definition writer_wf (b : Writer) : Prop := String.length (buf b) <= defaultBufSize.

Lemma NewWriter_wf h : writer_wf (NewWriter h).
Proof. unfold writer_wf, defaultBufSize. simpl. lia. Qed.

Lemma Flush_wf b w : writer_wf b -> writer_wf (fst (Flush b w)).
Proof.
  unfold writer_wf, Flush. intros H. destruct (err b); [exact H|].
  destruct (buf b) as [|c bf] eqn:Eb; [simpl; rewrite ?Eb; simpl in *; lia|].
  destruct (os_write _ _ _) as [w' []]; simpl; rewrite ?Eb in *; simpl in *; lia.
Qed.

Lemma loop_wf f b w s :
  loop_measure b s <= f -> writer_wf b ->
  let '(b', w', s') := WriteString_loop f b w s in
  writer_wf b' /\ (err b' = true \/ String.length (buf b') + String.length s' <= defaultBufSize).
Proof.
  unfold writer_wf. revert b w s. induction f as [|f IH]; intros b w s Hm Hb; simpl.
  { unfold loop_measure in Hm. split; [exact Hb|]. destruct (err b); [now left|right].
    destruct s; simpl in *; lia. }
  destruct (negb (Available b <? String.length s) || err b) eqn:Ec.
  { split; [exact Hb|]. destruct (err b) eqn:He; [now left|right].
    rewrite orb_false_r, negb_true_iff, Nat.ltb_ge in Ec. unfold Available in Ec. lia. }
  apply orb_false_iff in Ec as [Ec He]. rewrite negb_false_iff, Nat.ltb_lt in Ec.
  destruct (buf b) as [|c bf] eqn:Eb.
  - unfold os_write. destruct (fails w (wr b)); simpl; rewrite ?Eb; [split; [simpl; lia|now left]|].
    split; [exact Hb|right]. rewrite ?Eb. simpl in *. lia.
  - set (b1 := mkWriter (wr b) (String c bf ++ substring 0 (Available b) s) (err b)).
    assert (Hb1 : String.length (buf b1) <= defaultBufSize).
    { unfold b1. cbn [buf]. unfold Available in *. rewrite Eb in *.
      rewrite str_length_app, substring_length by lia. lia. }
    pose proof (Flush_wf b1 w Hb1) as Hb2. pose proof (Flush_outcome b1 w He) as HO.
    destruct (Flush b1 w) as [b2 w2]. cbn [fst] in Hb2, HO. apply IH; [|exact Hb2].
    unfold loop_measure in *. rewrite He, Eb in Hm.
    pose proof (str_suffix_length _ _ (substring_suffix (Available b) s)).
    destruct HO as [H1|H1]; rewrite H1; cbn iota; [lia|destruct (err b2); lia].
Qed.

(** [WriteString] keeps the buffer within its capacity. *)
Lemma WriteString_wf b w s : writer_wf b -> writer_wf (fst (WriteString b w s)).
Proof.
  intros Hb. unfold WriteString.
  pose proof (loop_wf (S (String.length s)) b w s) as H.
  destruct (WriteString_loop _ b w s) as [[b' w'] s'].
  destruct H as [H1 H2]; [unfold loop_measure; destruct (err b); [lia|destruct (buf b); lia]|exact Hb|].
  destruct (err b') eqn:He; [exact H1|]. destruct H2 as [H2|H2]; [discriminate|].
  unfold writer_wf. simpl. rewrite str_length_app. exact H2.
Qed.


Lemma Flush_failing b w :
  fails w (wr b) = true -> snd (Flush b w) = w /\ wr (fst (Flush b w)) = wr b.
Proof.
  intros Hf. unfold Flush, os_write. rewrite Hf.
  destruct (err b); [auto|]. destruct (buf b); auto.
Qed.

Lemma loop_failing fuel b w s :
  fails w (wr b) = true ->
  let '(b', w', s') := WriteString_loop fuel b w s in w' = w /\ wr b' = wr b.
Proof.
  revert b w s. induction fuel as [|fuel IH]; intros b w s Hf; simpl; [auto|].
  destruct (_ || _); [auto|]. destruct (buf b) as [|c bf].
  - unfold os_write. rewrite Hf. auto.
  - destruct (Flush _ w) as [b2 w2] eqn:EF.
    match type of EF with
    | Flush ?b1 _ = _ => pose proof (Flush_failing b1 w Hf) as HF
    end.
    rewrite EF in HF. simpl in HF. destruct HF as [-> Hw].
    pose proof (IH b2 w (substring (Available b) (String.length s - Available b) s)) as H.
    rewrite Hw in H. specialize (H Hf).
    destruct (WriteString_loop fuel b2 w _) as [[b' w'] s']. exact H.
Qed.

(** A handle that refuses writes receives nothing: the world after
    [WriteString] and [Flush] is the world before. *)
Lemma write_flush_failing b w s :
  fails w (wr b) = true -> snd (Flush (fst (WriteString b w s)) (snd (WriteString b w s))) = w.
Proof.
  intros Hf. unfold WriteString.
  pose proof (loop_failing (S (String.length s)) b w s Hf) as H.
  destruct (WriteString_loop _ b w s) as [[b' w'] s']. destruct H as [-> Hw].
  assert (Hf' : fails w (wr b') = true) by now rewrite Hw.
  destruct (err b'); simpl; apply Flush_failing; simpl; exact Hf'.
Qed.

Lemma nth_set_nth st i b :
  nth_error st i = Some b -> set_nth st i b = st.
Proof.
  revert i. induction st as [|x st IH]; intros [|i] H; simpl in *; try discriminate.
  - now injection H as ->.
  - now rewrite IH.
Qed.

Lemma nth_error_set_nth st i j b :
  (i < List.length st)%nat ->
  nth_error (set_nth st i b) j = if Nat.eqb i j then Some b else nth_error st j.
Proof.
  revert i j. induction st as [|x st IH]; intros [|i] [|j] H; simpl in *; try lia; auto.
  apply IH. lia.
Qed.

Lemma set_nth_length st i b : List.length (set_nth st i b) = List.length st.
Proof. revert i. induction st as [|x st IH]; intros [|i]; simpl; auto. Qed.

Lemma set_nth_Forall (P : Writer -> Prop) st i b : Forall P st -> P b -> Forall P (set_nth st i b).
Proof.
  revert i. induction st as [|x st IH]; intros [|i] H Hb; simpl; auto.
  - inversion H; constructor; auto.
  - inversion H; constructor; auto.
Qed.

Lemma nth_error_Forall (P : Writer -> Prop) st i b : Forall P st -> nth_error st i = Some b -> P b.
Proof. intros H E. rewrite Forall_forall in H. apply H. eapply nth_error_In; exact E. Qed.

(** ** Witnesses *)

(** A world where every handle accepts writes and nothing is written. *)
Definition world0 : World := mkWorld (fun _ => "") (fun _ => false).

(** Five thousand bytes after two buffered ones: more than the buffer
    holds, so the loop fills the buffer, flushes, and buffers the rest. *)
Lemma WriteString_fuel_enough_witness :
  WriteString_loop 10000 (mkWriter 2 (repeat_str 4096 "a") false) world0 (repeat_str 5000 "x") =
  WriteString_loop 5001 (mkWriter 2 (repeat_str 4096 "a") false) world0 (repeat_str 5000 "x").
Proof. apply WriteString_fuel_enough. apply Nat.leb_le. vm_compute. reflexivity. Defined.

End Output.
