(* ===== verification/Render.v ===== *)
(** * Render: [TextReporter.Report], [Finalize] and their output

    [func (r *TextReporter) Report(report Report)],
    [func (r *TextReporter) Finalize()], [writeString] and [flush] of
    src/unnamed/part_003 (lines 135-182 and 236-246), over the [Output]
    store of [*bufio.Writer]s and the world of handles.  The text
    reporter is an instance of the [Reporter] class, so the scheduler's
    theorems apply to it.

    Two things of the environment are parameters of the section: the
    offset of [time.Local], and the leaves of [fmt] outside the modelled
    fragment ([fmt_other], see [GoFmt]).

    Theorems: the bytes one [Report] or [Finalize] puts on the handle; the
    invariant [heap_wf] of the reporter against its heap, kept by both
    whether they panic or not, under which [Report] panics only in the
    progress bar; the sticky error; builders ignored after the first
    report; a panic of the bar before any write, whatever the legend; a
    new writer for every report when the legend is empty; the README's
    default line. *)

From Stdlib Require Import ZArith List String Bool Lia Floats.
From S2P Require Import Prelude GoRuntime ReportData TextReporter Legend ProgressBar Progress GoFmt Output.
Import ListNotations.

Local Open Scope string_scope.
Local Open Scope Z_scope.

Module Render.
Import TextReporter Output.

(** The memory the reporter reaches: the [*bufio.Writer]s and the
    handles behind them. *)
Record Heap := mkHeap { store : Store; world : World }.

Section Render.
Variable tz : Z.
Variable fmt_other : Flags -> Value -> string -> string.

(** [r.writer.WriteString(str)], errors discarded; a nil writer panics. *)
Definition writeString (r : TextReporter) (h : Heap) (str : string) : Heap * bool :=
  match writer r with
  | None => (h, true)
  | Some i =>
      match nth_error (store h) i with
      | None => (h, true)
      | Some b => let '(b', w') := WriteString b (world h) str in
                  (mkHeap (set_nth (store h) i b') w', false)
      end
  end.

(** [r.writer.Flush()], the error discarded; a nil writer panics. *)
Definition flush (r : TextReporter) (h : Heap) : Heap * bool :=
  match writer r with
  | None => (h, true)
  | Some i =>
      match nth_error (store h) i with
      | None => (h, true)
      | Some b => let '(b', w') := Flush b (world h) in (mkHeap (set_nth (store h) i b') w', false)
      end
  end.

(** The first use: [r.legendCompiled = r.compileLegend(r.legend,
    r.floatPrecision); r.writer = bufio.NewWriter(r.output)]. *)
Definition prepare (r : TextReporter) (h : Heap) : TextReporter * Heap :=
  if String.eqb (legendCompiled r) "" then
    let '(st, i) := alloc (store h) (output r) in
    (mkTextReporter (legend r) (floatPrecision r) (output r) (pbWidth r)
       (Legend.compileLegend (legend r) (floatPrecision r)) (Some i) (lastLegendLength r),
     mkHeap st (world h))
  else (r, h).

(** The fifteen operands of the [fmt.Sprintf] call, in order. *)
Definition report_args (report : Report) (eta : Z) (progressBar : string) : list Value :=
  [VString (Time_Format tz (Now report)); VString (Time_Format tz (StartedAt report));
   VDuration (Duration_Round (DT report) Millisecond);
   VInt (Total report); VInt (ReportData.Done report); VInt (Left report);
   VFloat (Ratio report); VInt (PercentInt report); VFloat (PercentFloat report);
   VDuration (Duration_Round (Elapsed report) Second); VDuration eta;
   VFloat (RPSAvg report); VFloat (RPSInst report); VFloat (RPMAvg report);
   VString progressBar].

(** [eta := report.ETA.Round(time.Second); if eta <= 0 { eta = 0 }]. *)
Definition display_eta (report : Report) : Z :=
  let eta := Duration_Round (ETA report) Second in
  if eta <=? 0 then 0 else eta.

(** The line [Report] formats, once the legend is compiled. *)
Definition render_line (r : TextReporter) (report : Report) (progressBar : string) : string :=
  Sprintf fmt_other (report_args report (display_eta report) progressBar) (legendCompiled r).

(** [func (r *TextReporter) Report(report Report)]: the new state of the
    reporter and of the heap, and whether it panicked (the progress bar's
    [strings.Repeat] on a negative count, or a nil writer). *)
Definition Report (r : TextReporter) (h : Heap) (report : Report) : TextReporter * Heap * bool :=
  let '(r, h) := prepare r h in
  match ProgressBar.renderProgressBar r report with
  | None => (r, h, true)
  | Some progressBar =>
      let legend' := render_line r report progressBar in
      let lineLength := Z.of_nat (String.length legend') in
      let '(h, p) := writeString r h legend' in
      if p then (r, h, true) else
      let '(h, p) :=
        if lineLength <? lastLegendLength r then
          match strings_Repeat " " (lastLegendLength r - lineLength) with
          | None => (h, true)
          | Some spaces => writeString r h spaces
          end
        else (h, false) in
      if p then (r, h, true) else
      let r := mkTextReporter (legend r) (floatPrecision r) (output r) (pbWidth r)
                 (legendCompiled r) (writer r) lineLength in
      let '(h, p) := flush r h in
      (r, h, p)
  end.

(** [func (r *TextReporter) Finalize()]: a line break, then a flush. *)
Definition Finalize (r : TextReporter) (h : Heap) : TextReporter * Heap * bool :=
  let '(h, p) := writeString r h (String (Ascii.ascii_of_nat 10) "") in
  if p then (r, h, true) else
  let '(h, p) := flush r h in (r, h, p).

(** The goroutine's successive [p.reporter.Report(p.Report())] calls on
    the reports [reps], until one panics: the panic ends the goroutine. *)
Fixpoint run_reports (r : TextReporter) (h : Heap) (reps : list ReportData.Report) : TextReporter * Heap * bool :=
  match reps with
  | [] => (r, h, false)
  | rep :: reps' =>
      let '(r', h', p) := Report r h rep in
      if p then (r', h', true) else run_reports r' h' reps'
  end.

End Render.

(** The text reporter behind the [Reporter] interface: its state is the
    reporter and the heap it writes through. *)
#[export] Instance text_reporter (tz : Z) (fmt_other : Flags -> Value -> string -> string)
  : Reporter (TextReporter * Heap) := {|
  report := fun '(r, h) rep => let '(r', h', p) := Report tz fmt_other r h rep in ((r', h'), p);
  finalize := fun '(r, h) => let '(r', h', p) := Finalize r h in ((r', h'), p)
|}.

(** The well-formedness of the reporter against the heap: its writer,
    if any, is an index of the store; every writer of the store keeps its
    buffer within capacity; a compiled legend comes with a writer (both
    are set together on the first [Report]). *)
Definition heap_wf (r : TextReporter) (h : Heap) : Prop :=
  (forall i, writer r = Some i -> (i < List.length (store h))%nat) /\
  Forall writer_wf (store h) /\
  (legendCompiled r <> "" -> writer r <> None).

(** Every writer of the store, and the reporter's output, are on the
    handle [hd]. *)
Definition on_handle (hd : WriterHandle) (r : TextReporter) (h : Heap) : Prop :=
  output r = hd /\ Forall (fun b => wr b = hd) (store h).

(** ** Facts about the rendering *)

Section Facts.
Variable tz : Z.
Variable fmt_other : Flags -> Value -> string -> string.

Lemma prepare_done r h : legendCompiled r <> "" -> prepare r h = (r, h).
Proof.
  intros H. unfold prepare. destruct (String.eqb_spec (legendCompiled r) ""); [contradiction|reflexivity].
Qed.

(** The reporter's writer, at index [i] of the store, is [b], which has
    no error, on a handle that accepts writes. *)
Definition healthy (r : TextReporter) (h : Heap) (i : nat) (b : Writer) : Prop :=
  writer r = Some i /\ nth_error (store h) i = Some b /\
  fails (world h) (wr b) = false /\ err b = false.

Lemma writeString_ok r h i b str :
  healthy r h i b ->
  exists b' w' out, writeString r h str = (mkHeap (set_nth (store h) i b') w', false) /\
    err b' = false /\ wr b' = wr b /\ appended (world h) w' (wr b) out /\ out ++ buf b' = buf b ++ str.
Proof.
  intros (Hw & Hn & Hf & He). unfold writeString. rewrite Hw, Hn.
  pose proof (WriteString_healthy b (world h) str Hf He) as H.
  destruct (WriteString b (world h) str) as [b' w']. destruct H as (H1 & H2 & out & A & E).
  exists b', w', out. auto.
Qed.

Lemma flush_ok r h i b :
  healthy r h i b ->
  exists w', flush r h = (mkHeap (set_nth (store h) i (NewWriter (wr b))) w', false) /\
    appended (world h) w' (wr b) (buf b).
Proof.
  intros (Hw & Hn & Hf & He). unfold flush. rewrite Hw, Hn.
  pose proof (Flush_healthy b (world h) Hf He) as H.
  destruct (Flush b (world h)) as [b' w']. destruct H as [-> A]. exists w'. auto.
Qed.

(** After a healthy write, the writer is healthy again, at the same
    index. *)
Lemma healthy_after r h i b b' w' out :
  healthy r h i b -> err b' = false -> wr b' = wr b -> appended (world h) w' (wr b) out ->
  healthy r (mkHeap (set_nth (store h) i b') w') i b'.
Proof.
  intros (Hw & Hn & Hf & He) H1 H2 (_ & _ & A3). unfold healthy; simpl.
  assert (Hi : (i < List.length (store h))%nat) by (apply nth_error_Some; congruence).
  rewrite nth_error_set_nth, Nat.eqb_refl by exact Hi. rewrite A3, H2. auto.
Qed.

Lemma Repeat_spaces (n : Z) :
  0 <= n <= int64_max -> strings_Repeat " " n = Some (repeat_str (Z.to_nat n) " ").
Proof. intros H. apply ProgressBar.Repeat_ok; cbn [String.length]; lia. Qed.

(** [Report] on a reporter in use whose writer is healthy: the line, then
    the spaces that cover the rest of the previous line, reach the
    handle after what was buffered; the writer is left empty; the new
    length is recorded. *)
Lemma Report_healthy r h i b rep bar :
  legendCompiled r <> "" -> healthy r h i b ->
  ProgressBar.renderProgressBar r rep = Some bar -> lastLegendLength r <= int64_max ->
  let line := render_line tz fmt_other r rep bar in
  let len := Z.of_nat (String.length line) in
  exists h',
    Report tz fmt_other r h rep =
      (mkTextReporter (legend r) (floatPrecision r) (output r) (pbWidth r) (legendCompiled r)
         (writer r) len, h', false) /\
    nth_error (store h') i = Some (NewWriter (wr b)) /\
    List.length (store h') = List.length (store h) /\
    appended (world h) (world h') (wr b)
      (buf b ++ line ++ repeat_str (Z.to_nat (lastLegendLength r - len)) " ").
Proof.
  intros Hc Hh Hbar Hl line len. unfold Report. rewrite prepare_done by exact Hc. rewrite Hbar.
  fold line. fold len. assert (Hlen : 0 <= len) by (unfold len; lia). clearbody line len.
  destruct (writeString_ok r h i b line Hh) as (b1 & w1 & o1 & E1 & He1 & Hw1 & A1 & Eo1).
  rewrite E1. cbn iota beta.
  pose proof (healthy_after r h i b b1 w1 o1 Hh He1 Hw1 A1) as Hh1.
  set (r' := mkTextReporter (legend r) (floatPrecision r) (output r) (pbWidth r)
               (legendCompiled r) (writer r) len).
  assert (Hh' : forall h0 i0 b0, healthy r h0 i0 b0 -> healthy r' h0 i0 b0) by (intros; exact H).
  assert (Hi : (i < List.length (store h))%nat) by (apply nth_error_Some; destruct Hh as (_ & -> & _); discriminate).
  destruct (Z.ltb_spec len (lastLegendLength r)) as [Hlt|Hge].
  - rewrite Repeat_spaces by lia.
    destruct (writeString_ok r _ i b1 (repeat_str (Z.to_nat (lastLegendLength r - len)) " ") Hh1)
      as (b2 & w2 & o2 & E2 & He2 & Hw2 & A2 & Eo2).
    rewrite E2. cbn iota beta.
    pose proof (healthy_after r _ i b1 b2 w2 o2 Hh1 He2 Hw2 A2) as Hh2.
    destruct (flush_ok r' _ i b2 (Hh' _ _ _ Hh2)) as (w3 & E3 & A3).
    rewrite E3. eexists. split; [reflexivity|]. cbn [store world] in *.
    rewrite !nth_error_set_nth, Nat.eqb_refl, !set_nth_length by (rewrite ?set_nth_length; exact Hi).
    rewrite Hw2, Hw1 in *. split; [reflexivity|split; [reflexivity|]].
    replace (buf b ++ line ++ repeat_str (Z.to_nat (lastLegendLength r - len)) " ")
      with ((o1 ++ o2) ++ buf b2)
      by (rewrite <- str_app_assoc, Eo2, str_app_assoc, Eo1, <- str_app_assoc; reflexivity).
    eapply appended_trans; [eapply appended_trans; eauto|exact A3].
  - replace (Z.to_nat (lastLegendLength r - len)) with 0%nat by lia. simpl repeat_str.
    destruct (flush_ok r' _ i b1 (Hh' _ _ _ Hh1)) as (w3 & E3 & A3).
    rewrite E3. eexists. split; [reflexivity|]. cbn [store world] in *.
    rewrite !nth_error_set_nth, Nat.eqb_refl, !set_nth_length by (rewrite ?set_nth_length; exact Hi).
    rewrite Hw1 in *. split; [reflexivity|split; [reflexivity|]].
    rewrite str_app_nil_r, <- Eo1. eapply appended_trans; eauto.
Qed.

Lemma writeString_err r h i b str :
  writer r = Some i -> nth_error (store h) i = Some b -> err b = true ->
  writeString r h str = (h, false).
Proof.
  intros Hw Hn He. unfold writeString. rewrite Hw, Hn.
  destruct (err_sticky b (world h) str He) as [-> _].
  rewrite nth_set_nth by exact Hn. now destruct h.
Qed.

Lemma flush_err r h i b :
  writer r = Some i -> nth_error (store h) i = Some b -> err b = true -> flush r h = (h, false).
Proof.
  intros Hw Hn He. unfold flush. rewrite Hw, Hn.
  destruct (err_sticky b (world h) "" He) as [_ ->].
  rewrite nth_set_nth by exact Hn. now destruct h.
Qed.

(** [Report] reads of the reporter only the compiled legend, the writer,
    the bar width and the last length once the legend is compiled. *)
Lemma Report_runtime_only r1 r2 h rep :
  legendCompiled r1 <> "" -> legendCompiled r1 = legendCompiled r2 -> writer r1 = writer r2 ->
  pbWidth r1 = pbWidth r2 -> lastLegendLength r1 = lastLegendLength r2 ->
  snd (fst (Report tz fmt_other r1 h rep)) = snd (fst (Report tz fmt_other r2 h rep)) /\
  snd (Report tz fmt_other r1 h rep) = snd (Report tz fmt_other r2 h rep).
Proof.
  intros Hc E1 E2 E3 E4.
  destruct r1 as [l1 f1 o1 p1 c1 w1 n1], r2 as [l2 f2 o2 p2 c2 w2 n2]; simpl in *. subst.
  unfold Report. rewrite !prepare_done by exact Hc.
  unfold ProgressBar.renderProgressBar, render_line, writeString, flush. simpl.
  repeat (match goal with
          | |- context [match ?x with _ => _ end] => destruct x
          | |- context [if ?x then _ else _] => destruct x
          end; simpl); auto.
Qed.


(** C11: [Report] on a reporter in use with a healthy writer puts the
    formatted line, then as many spaces as the previous line was longer,
    on the writer's handle after what was buffered, touches no other
    handle, empties the buffer, and records the new line length. *)
Theorem Report_output r h i b rep bar :
  legendCompiled r <> "" -> healthy r h i b ->
  ProgressBar.renderProgressBar r rep = Some bar -> lastLegendLength r <= int64_max ->
  let line := render_line tz fmt_other r rep bar in
  let len := Z.of_nat (String.length line) in
  exists h',
    Report tz fmt_other r h rep =
      (mkTextReporter (legend r) (floatPrecision r) (output r) (pbWidth r) (legendCompiled r)
         (writer r) len, h', false) /\
    nth_error (store h') i = Some (NewWriter (wr b)) /\
    appended (world h) (world h') (wr b)
      (buf b ++ line ++ repeat_str (Z.to_nat (lastLegendLength r - len)) " ").
Proof.
  intros Hc Hh Hbar Hl line len.
  destruct (Report_healthy r h i b rep bar Hc Hh Hbar Hl) as (h' & E & N & _ & A).
  exists h'. auto.
Qed.

(** C13: the error of a [bufio.Writer] sticks.  Once a write or flush
    of the reporter's writer has failed, [Report] leaves the whole heap
    as it was: nothing reaches any handle again, even one that accepts
    writes by now. *)
Theorem Report_after_write_error r h i b rep :
  legendCompiled r <> "" -> writer r = Some i -> nth_error (store h) i = Some b -> err b = true ->
  snd (fst (Report tz fmt_other r h rep)) = h.
Proof.
  intros Hc Hw Hn He. unfold Report. rewrite prepare_done by exact Hc.
  destruct (ProgressBar.renderProgressBar r rep); [|reflexivity].
  rewrite (writeString_err r h i b _ Hw Hn He). cbn iota beta.
  destruct (_ <? _); [destruct (strings_Repeat " " _); [|reflexivity]|];
    cbn iota beta; rewrite ?(writeString_err r h i b _ Hw Hn He); cbn iota beta;
    rewrite (flush_err _ h i b) by assumption; reflexivity.
Qed.

(** C20: [clone] copies the runtime fields.  On a reporter that has
    reported once, [WithLegend], [WithOutput] and [WithFloatPrecision]
    return reporters whose [Report] writes exactly what the original's
    does, through the same writer: the new legend, output or precision is
    ignored. *)
Theorem builders_ignored_after_first_report r h rep l o p :
  legendCompiled r <> "" ->
  let out r' := (snd (fst (Report tz fmt_other r' h rep)), snd (Report tz fmt_other r' h rep)) in
  out (WithLegend r l) = out r /\ out (WithOutput r o) = out r /\ out (WithFloatPrecision r p) = out r.
Proof.
  intros Hc out. unfold out.
  destruct (Report_runtime_only (WithLegend r l) r h rep) as [A1 B1]; try exact Hc; try reflexivity.
  destruct (Report_runtime_only (WithOutput r o) r h rep) as [A2 B2]; try exact Hc; try reflexivity.
  destruct (Report_runtime_only (WithFloatPrecision r p) r h rep) as [A3 B3]; try exact Hc; try reflexivity.
  rewrite A1, B1, A2, B2, A3, B3. auto.
Qed.

(** C21: [Finalize] on a healthy writer puts what was buffered and a
    line break on the handle and empties the buffer. *)
Theorem Finalize_output r h i b :
  healthy r h i b ->
  exists h', Finalize r h = (r, h', false) /\ nth_error (store h') i = Some (NewWriter (wr b)) /\
    appended (world h) (world h') (wr b) (buf b ++ String (Ascii.ascii_of_nat 10) "").
Proof.
  intros Hh. unfold Finalize.
  destruct (writeString_ok r h i b (String (Ascii.ascii_of_nat 10) "") Hh) as (b1 & w1 & o1 & E1 & He1 & Hw1 & A1 & Eo1).
  rewrite E1. cbn iota beta.
  pose proof (healthy_after r h i b b1 w1 o1 Hh He1 Hw1 A1) as Hh1.
  destruct (flush_ok r _ i b1 Hh1) as (w2 & E2 & A2). rewrite E2.
  eexists. split; [reflexivity|]. cbn [store world] in *.
  assert (Hi : (i < List.length (store h))%nat) by (apply nth_error_Some; destruct Hh as (_ & -> & _); discriminate).
  rewrite !nth_error_set_nth, Nat.eqb_refl by (rewrite ?set_nth_length; exact Hi).
  rewrite Hw1. split; [reflexivity|]. rewrite <- Eo1, Hw1 in *. eapply appended_trans; eauto.
Qed.


(** ** Well-formedness is an invariant *)

Lemma writeString_inv r h s :
  let '(h', p) := writeString r h s in
  List.length (store h') = List.length (store h) /\
  (Forall writer_wf (store h) -> Forall writer_wf (store h')) /\
  (forall i, writer r = Some i -> (i < List.length (store h))%nat -> p = false).
Proof.
  unfold writeString. destruct (writer r) as [i|]; [|split; [|split]; auto; discriminate].
  destruct (nth_error (store h) i) as [b|] eqn:En.
  2:{ split; [|split]; auto. intros j Hj Hl. injection Hj as <-.
      apply nth_error_None in En. lia. }
  pose proof (WriteString_wf b (world h) s) as Hw.
  destruct (WriteString b (world h) s) as [b' w']. simpl.
  split; [apply set_nth_length|split; [|reflexivity]]. intros HF. apply set_nth_Forall; [exact HF|].
  apply Hw. eapply nth_error_Forall; eassumption.
Qed.

Lemma flush_inv r h :
  let '(h', p) := flush r h in
  List.length (store h') = List.length (store h) /\
  (Forall writer_wf (store h) -> Forall writer_wf (store h')) /\
  (forall i, writer r = Some i -> (i < List.length (store h))%nat -> p = false).
Proof.
  unfold flush. destruct (writer r) as [i|]; [|split; [|split]; auto; discriminate].
  destruct (nth_error (store h) i) as [b|] eqn:En.
  2:{ split; [|split]; auto. intros j Hj Hl. injection Hj as <-.
      apply nth_error_None in En. lia. }
  pose proof (Flush_wf b (world h)) as Hw.
  destruct (Flush b (world h)) as [b' w']. simpl.
  split; [apply set_nth_length|split; [|reflexivity]]. intros HF. apply set_nth_Forall; [exact HF|].
  apply Hw. eapply nth_error_Forall; eassumption.
Qed.

Lemma prepare_wf r h :
  heap_wf r h ->
  let '(r0, h0) := prepare r h in
  heap_wf r0 h0 /\ (exists i, writer r0 = Some i) /\ lastLegendLength r0 = lastLegendLength r.
Proof.
  intros (W & F & C). unfold prepare.
  destruct (String.eqb_spec (legendCompiled r) "") as [E|E].
  - destruct (alloc (store h) (output r)) as [st i] eqn:Ea. injection Ea as <- <-.
    unfold heap_wf. cbn [writer legendCompiled store lastLegendLength].
    rewrite length_app. cbn [List.length].
    split; [split; [intros j Hj; injection Hj as <-; lia|split]|split; [eauto|reflexivity]].
    + apply Forall_app. split; [exact F|constructor; [apply NewWriter_wf|constructor]].
    + discriminate.
  - split; [split; auto|split; [|reflexivity]].
    destruct (writer r) as [i|] eqn:Ew; [eauto|]. exfalso. apply (C E). reflexivity.
Qed.

(** The state of [Report] and [Finalize], step by step: each call of
    [writeString] and [flush] with what the lemmas [wlem] and [flem] say
    of it. *)
Ltac heap_steps_by wlem flem :=
  repeat first
    [ match goal with |- context [writeString ?r ?h ?s] =>
        let H := fresh "Hs" in pose proof (wlem r h s) as H;
        destruct (writeString r h s) as [? ?] end
    | match goal with |- context [flush ?r ?h] =>
        let H := fresh "Hs" in pose proof (flem r h) as H;
        destruct (flush r h) as [? ?] end
    | destruct_inner_match_eqn ];
  repeat match goal with H : _ /\ _ |- _ => destruct H end.

Ltac heap_steps := heap_steps_by writeString_inv flush_inv.

Ltac wf_finish :=
  match goal with Hw : heap_wf _ _ |- heap_wf _ _ =>
    destruct Hw as (W & F & C); unfold heap_wf; cbn [writer legendCompiled];
    split; [intros i Hi; specialize (W i Hi); lia | split; [tauto | exact C]]
  end.

Lemma Repeat_spaces_some (last len : Z) :
  0 <= len -> last <= int64_max -> (len <? last) = true -> strings_Repeat " " (last - len) <> None.
Proof. intros H1 H2 H3. apply Z.ltb_lt in H3. rewrite Repeat_spaces by lia. discriminate. Qed.

(** C15: On a well-formed reporter, [Report] panics only in
    [renderProgressBar]: the writer is never nil and the padding count is
    never negative, so the one panic left is the bar's. *)
Theorem Report_panics_only_on_bar r h rep :
  heap_wf r h -> lastLegendLength r <= int64_max ->
  snd (Report tz fmt_other r h rep) = true ->
  ProgressBar.renderProgressBar (fst (prepare r h)) rep = None.
Proof.
  intros Hwf Hl. unfold Report. pose proof (prepare_wf r h Hwf) as Hp.
  destruct (prepare r h) as [r0 h0]. destruct Hp as [(W & _ & _) [[i Hi] Hl0]]. cbn [fst].
  destruct (ProgressBar.renderProgressBar r0 rep) as [bar|]; [|reflexivity].
  specialize (W i Hi). cbv zeta. heap_steps; cbn [writer snd] in *; intros Hp; try discriminate; exfalso;
  first [ match goal with H : forall j, writer _ = Some j -> _ -> ?x = false, Hx : ?x = true |- _ =>
            pose proof (H i Hi ltac:(lia)); congruence end
        | match goal with H : forall j, writer _ = Some j -> _ -> true = false |- _ =>
            pose proof (H i Hi ltac:(lia)); discriminate end
        | eapply Repeat_spaces_some; [| |eassumption|eassumption]; lia ].
Qed.

(** What [Report] keeps of [prepare]: the compiled legend, the writer and
    the size of the store. *)
Lemma Report_keeps_prepared r h rep :
  let '(r0, h0) := prepare r h in
  let '(r', h', _) := Report tz fmt_other r h rep in
  legendCompiled r' = legendCompiled r0 /\ writer r' = writer r0 /\
  List.length (store h') = List.length (store h0).
Proof.
  unfold Report. destruct (prepare r h) as [r0 h0].
  unfold writeString, flush. simpl. destruct (writer r0) as [i|] eqn:Ew;
  repeat (destruct_inner_match; simpl; rewrite ?set_nth_length); auto.
Qed.

(** C14: [Report] and [Finalize] keep the reporter well formed against
    the heap: the writer stays an index of the store, every buffer within
    its 4096 bytes, a compiled legend with its writer; panicking or not. *)
Theorem Report_Finalize_wf r h rep :
  heap_wf r h ->
  (let '(r', h', _) := Report tz fmt_other r h rep in heap_wf r' h') /\
  (let '(r', h', _) := Finalize r h in heap_wf r' h').
Proof.
  intros Hwf. split.
  - unfold Report. pose proof (prepare_wf r h Hwf) as Hp.
    destruct (prepare r h) as [r0 h0]. destruct Hp as [Hw0 _]. clear Hwf.
    heap_steps; cbn iota beta; wf_finish.
  - unfold Finalize. heap_steps; wf_finish.
Qed.

(** C19: the legend is compiled and the writer allocated on the first
    [Report] only: a reporter in use keeps its compiled legend, its
    writer and the store; a fresh one gets [compileLegend] of its legend
    and a new writer at the end of the store. *)
Theorem Report_prepares_once r h rep :
  let '(r', h', _) := Report tz fmt_other r h rep in
  (legendCompiled r <> "" ->
     legendCompiled r' = legendCompiled r /\ writer r' = writer r /\
     List.length (store h') = List.length (store h)) /\
  (legendCompiled r = "" ->
     legendCompiled r' = Legend.compileLegend (legend r) (floatPrecision r) /\
     writer r' = Some (List.length (store h)) /\
     List.length (store h') = S (List.length (store h))).
Proof.
  pose proof (Report_keeps_prepared r h rep) as K.
  destruct (String.eqb_spec (legendCompiled r) "") as [E|E].
  - unfold prepare in K. rewrite E in K. simpl in K.
    destruct (Report tz fmt_other r h rep) as [[r' h'] p].
    destruct K as (K1 & K2 & K3). rewrite app_length in K3. simpl in K3.
    split; [intros; contradiction|]. intros _. split; [exact K1|split; [exact K2|lia]].
  - rewrite prepare_done in K by exact E.
    destruct (Report tz fmt_other r h rep) as [[r' h'] p].
    split; [intros _; exact K|]. intros; contradiction.
Qed.

(** a legend with no verb left after compilation (no placeholder,
    no ['%']) is printed followed by [%!(EXTRA ...)] and the fifteen
    operands, because [fmt.Sprintf] reports operands it did not use. *)
Theorem render_line_no_placeholder r rep bar :
  pct_free (legendCompiled r) = true ->
  render_line tz fmt_other r rep bar =
    legendCompiled r ++ extra (report_args tz rep (display_eta rep) bar).
Proof. intros H. unfold render_line. apply Sprintf_no_verbs; [exact H|discriminate]. Qed.

(** ** The reporter writes to its output handle only *)

Lemma writeString_on hd r h str :
  Forall (fun b => wr b = hd) (store h) ->
  let '(h', _) := writeString r h str in
  Forall (fun b => wr b = hd) (store h') /\ grows hd (world h) (world h').
Proof.
  intros F. unfold writeString. destruct (writer r) as [i|]; [|split; [exact F|apply grows_refl]].
  destruct (nth_error (store h) i) as [b|] eqn:En; [|split; [exact F|apply grows_refl]].
  pose proof (nth_error_Forall _ _ _ _ F En) as Hb. simpl in Hb.
  destruct (WriteString_appends b (world h) str) as [E A].
  destruct (WriteString b (world h) str) as [b' w']. simpl in *.
  split; [apply set_nth_Forall; [exact F|congruence]|rewrite <- Hb; exact A].
Qed.

Lemma flush_on hd r h :
  Forall (fun b => wr b = hd) (store h) ->
  let '(h', _) := flush r h in
  Forall (fun b => wr b = hd) (store h') /\ grows hd (world h) (world h').
Proof.
  intros F. unfold flush. destruct (writer r) as [i|]; [|split; [exact F|apply grows_refl]].
  destruct (nth_error (store h) i) as [b|] eqn:En; [|split; [exact F|apply grows_refl]].
  pose proof (nth_error_Forall _ _ _ _ F En) as Hb. simpl in Hb.
  destruct (Flush_appends b (world h)) as [E A].
  destruct (Flush b (world h)) as [b' w']. simpl in *.
  split; [apply set_nth_Forall; [exact F|congruence]|rewrite <- Hb; exact A].
Qed.

Lemma prepare_on hd r h :
  on_handle hd r h -> let '(r0, h0) := prepare r h in on_handle hd r0 h0 /\ world h0 = world h.
Proof.
  intros [O F]. unfold prepare. destruct (String.eqb (legendCompiled r) ""); [|split; [split|]; auto].
  unfold on_handle; simpl. split; [split; [exact O|]|reflexivity].
  apply Forall_app. split; [exact F|constructor; [exact O|constructor]].
Qed.

Ltac on_chain :=
  repeat (match goal with H : Forall ?P ?st -> _, F : Forall ?P ?st |- _ => specialize (H F) end
          || match goal with H : _ /\ _ |- _ => destruct H end).

(** Whatever [Report] and [Finalize] do, panicking or not, they append to
    the reporter's output handle and change no other handle, when every
    writer of the store is on that handle. *)
Theorem Report_Finalize_on hd r h rep :
  on_handle hd r h ->
  (let '(r', h', _) := Report tz fmt_other r h rep in on_handle hd r' h' /\ grows hd (world h) (world h')) /\
  (let '(r', h', _) := Finalize r h in on_handle hd r' h' /\ grows hd (world h) (world h')).
Proof.
  intros Hon. split.
  - unfold Report. pose proof (prepare_on hd r h Hon) as Hp.
    destruct (prepare r h) as [r0 h0]. destruct Hp as [[O F] Ew]. rewrite <- Ew. clear Hon Ew.
    heap_steps_by (writeString_on hd) (flush_on hd); cbn iota beta; on_chain;
      (split; [split; assumption|grows_chain]).
  - destruct Hon as [O F]. unfold Finalize.
    heap_steps_by (writeString_on hd) (flush_on hd); on_chain; (split; [split; assumption|grows_chain]).
Qed.

Lemma prepare_keeps r h :
  pbWidth (fst (prepare r h)) = pbWidth r /\ world (snd (prepare r h)) = world h /\
  legend (fst (prepare r h)) = legend r.
Proof.
  unfold prepare. destruct (String.eqb _ _); [destruct (alloc _ _)|]; simpl; auto.
Qed.

Lemma Report_keeps_legend r h rep : legend (fst (fst (Report tz fmt_other r h rep))) = legend r.
Proof.
  unfold Report. pose proof (prepare_keeps r h) as (_ & _ & K). destruct (prepare r h) as [r0 h0].
  simpl in K. rewrite <- K. unfold writeString, flush.
  destruct (ProgressBar.renderProgressBar r0 rep); [|reflexivity]. destruct (writer r0) as [i|];
    repeat (destruct_inner_match; simpl); reflexivity.
Qed.

(** C26: [Report] renders the progress bar before anything else, whether
    or not the legend has [{progress_bar}]: for every reporter, heap and
    report whose bar conversion [int(ratio * (width - 2))] is negative
    (a product beyond [int64], as for the ratios of a counter far past
    its total), [Report] panics and no handle receives anything, not even
    with the default legend, which does not print the bar. *)
Theorem Report_panics_on_overflow r h rep :
  2 < pbWidth r -> in_int64 (pbWidth r) -> ProgressBar.fillChars0 (Ratio rep) (pbWidth r - 2) < 0 ->
  let '(_, h', p) := Report tz fmt_other r h rep in p = true /\ world h' = world h.
Proof.
  intros H1 H2 H3. unfold Report. pose proof (prepare_keeps r h) as (K1 & K2 & _).
  destruct (prepare r h) as [r0 h0]. simpl in K1, K2.
  rewrite ProgressBar.render_wide by (rewrite K1; assumption). rewrite K1. cbv zeta.
  destruct (Z.ltb_spec (ProgressBar.fillChars0 (Ratio rep) (pbWidth r - 2)) 0); [|lia].
  split; [reflexivity|exact K2].
Qed.

(** One [Report] of a reporter whose legend is empty: it compiles the
    legend to [""] again and allocates a new writer. *)
Lemma Report_empty_legend r h rep :
  legend r = "" -> legendCompiled r = "" ->
  let '(r', h', _) := Report tz fmt_other r h rep in
  legend r' = "" /\ legendCompiled r' = "" /\
  writer r' = Some (List.length (store h)) /\ List.length (store h') = S (List.length (store h)).
Proof.
  intros Hl Hc. pose proof (Report_keeps_prepared r h rep) as K.
  pose proof (Report_keeps_legend r h rep) as L.
  unfold prepare in K. rewrite Hc in K. simpl in K.
  destruct (Report tz fmt_other r h rep) as [[r' h'] p]. simpl in L.
  destruct K as (K1 & K2 & K3). rewrite app_length in K3. simpl in K3.
  rewrite K1, Hl, Legend.compileLegend_literal by reflexivity.
  split; [congruence|split; [reflexivity|split; [exact K2|lia]]].
Qed.

(** C27: an empty legend compiles to [""], which [Report] takes for
    "not prepared yet": along any sequence of the goroutine's reports
    that do not panic, every [Report] compiles the legend again and
    allocates a new [bufio.Writer], so the store grows by one writer per
    report and the reporter writes through the last one. *)
Theorem empty_legend_reallocates r h reps :
  legend r = "" -> legendCompiled r = "" ->
  let '(r', h', p) := run_reports tz fmt_other r h reps in
  p = false ->
  legendCompiled r' = "" /\ List.length (store h') = (List.length (store h) + List.length reps)%nat /\
  (reps <> [] -> writer r' = Some (List.length (store h') - 1)%nat).
Proof.
  revert r h. induction reps as [|rep reps IH]; intros r h Hl Hc; simpl.
  - intros _. split; [exact Hc|split; [lia|intros []; reflexivity]].
  - pose proof (Report_empty_legend r h rep Hl Hc) as E.
    destruct (Report tz fmt_other r h rep) as [[r1 h1] p1]. destruct E as (E1 & E2 & E3 & E4).
    destruct p1; [discriminate|]. specialize (IH r1 h1 E1 E2).
    destruct (run_reports tz fmt_other r1 h1 reps) as [[r' h'] p] eqn:Er. intros Hp.
    destruct (IH Hp) as (I1 & I2 & I3). split; [exact I1|split; [lia|intros _]].
    destruct reps as [|rep' reps']; [|apply I3; discriminate].
    simpl in Er. injection Er as <- <- _. simpl in I2 |- *. rewrite E3. f_equal. lia.
Qed.

End Facts.

(** ** Scenarios *)

(** The heap of a process that has not reported yet: no writer, every
    handle accepting writes. *)
Definition heap0 : Heap := mkHeap [] world0.

(** The instant [u] seconds after the Unix epoch, with a monotonic
    reading. *)
Definition at_unix (u : Z) : Time := mkTime ((u + 62135596800) * Second) (Some (u * Second)).

(** The report of the README's example line: 39 of 360 done, 4 s after
    the start, 2023-12-02 01:01:21 UTC. *)
Definition readme_report : ReportData.Report :=
  mkReport (at_unix 1701522081) (at_unix 1701522077) Second 360 39 321 0.10833333333333334 10
    10.833333333333334 (4 * Second) (32 * Second + 400000000) 9.74 9.0 584.4.

(** The default legend uses the modelled verbs only, so the leaves of
    [fmt] outside the fragment play no part. *)
Definition readme_line : string :=
  "[2023-12-02 01:01:21] - working (39/360) done 10%, RPS 9.74, elapsed 4s, ETA 32s" ++ CR.

(** the first [Report] of [NewTextReporter()] in UTC writes the
    README's line, with its carriage return, to [os.Stderr], and records
    its length. *)
Theorem Report_default_line fmt_other :
  let '(r, h, p) := Report 0 fmt_other NewTextReporter heap0 readme_report in
  p = false /\ written (world h) os_Stderr = readme_line /\
  lastLegendLength r = Z.of_nat (String.length readme_line).
Proof. vm_compute. repeat split. Qed.

(** ** Witnesses *)

Definition w_fo : Flags -> Value -> string -> string := fun _ _ _ => "".

(** The default reporter and a ratio of [2^57]: the bar overflows. *)
Lemma Report_panics_on_overflow_witness :
  let '(_, h', p) := Report 0 w_fo NewTextReporter heap0
                       (ProgressBar.report_with_ratio 144115188075855872) in
  p = true /\ world h' = world heap0.
Proof.
  apply Report_panics_on_overflow; [vm_compute; reflexivity|unfold in_int64, int64_min, int64_max; vm_compute; split; discriminate|vm_compute; reflexivity].
Defined.

(** Two reports of the README on a reporter with an empty legend. *)
Lemma empty_legend_reallocates_witness :
  let '(r', h', p) := run_reports 0 w_fo (WithLegend NewTextReporter "") heap0 [readme_report; readme_report] in
  p = false /\ writer r' = Some 1%nat /\ List.length (store h') = 2%nat.
Proof.
  pose proof (empty_legend_reallocates 0 w_fo (WithLegend NewTextReporter "") heap0 [readme_report; readme_report]
                eq_refl eq_refl) as E.
  destruct (run_reports 0 w_fo _ heap0 _) as [[r' h'] p] eqn:Er.
  assert (Hp : p = false) by (revert Er; vm_compute; intros Er; injection Er as _ _ <-; reflexivity).
  destruct (E Hp) as (_ & E2 & E3). split; [exact Hp|split; [rewrite E3 by discriminate; rewrite E2; reflexivity|exact E2]].
Defined.

(** The reporter and heap after the README's report, and a second report
    one second later. *)
Definition w_first := Report 0 w_fo NewTextReporter heap0 readme_report.
Definition w_r1 : TextReporter := fst (fst w_first).
Definition w_h1 : Heap := snd (fst w_first).
Definition w_report2 : ReportData.Report :=
  mkReport (at_unix 1701522082) (at_unix 1701522077) Second 360 40 320 0.1 11 11.0
    (5 * Second) (3 * Second) 9.0 9.0 584.4.
Definition w_bar : string :=
  match ProgressBar.renderProgressBar w_r1 w_report2 with Some b => b | None => "" end.

(** The same, on a handle that refuses writes: the first flush fails. *)
Definition w_first_fail :=
  Report 0 w_fo NewTextReporter (mkHeap [] (mkWorld (fun _ => "") (fun _ => true))) readme_report.
Definition w_rf : TextReporter := fst (fst w_first_fail).
Definition w_hf : Heap := snd (fst w_first_fail).
Definition w_bf : Writer := match nth_error (store w_hf) 0 with Some b => b | None => NewWriter 0%nat end.

Ltac w_tac := vm_compute; repeat split; try reflexivity; try discriminate.

Lemma Report_output_witness :
  let line := render_line 0 w_fo w_r1 w_report2 w_bar in
  let len := Z.of_nat (String.length line) in
  exists h',
    Report 0 w_fo w_r1 w_h1 w_report2 =
      (mkTextReporter (legend w_r1) (floatPrecision w_r1) (output w_r1) (pbWidth w_r1)
         (legendCompiled w_r1) (writer w_r1) len, h', false) /\
    nth_error (store h') 0%nat = Some (NewWriter os_Stderr) /\
    appended (world w_h1) (world h') os_Stderr
      (buf (NewWriter os_Stderr) ++ line ++ repeat_str (Z.to_nat (lastLegendLength w_r1 - len)) " ").
Proof. apply (Report_output 0 w_fo w_r1 w_h1 0%nat (NewWriter os_Stderr) w_report2 w_bar); w_tac. Defined.

Lemma Report_after_write_error_witness :
  snd (fst (Report 0 w_fo w_rf w_hf w_report2)) = w_hf.
Proof. apply (Report_after_write_error 0 w_fo w_rf w_hf 0%nat w_bf w_report2); w_tac. Defined.

Lemma builders_ignored_after_first_report_witness :
  let out r' := (snd (fst (Report 0 w_fo r' w_h1 w_report2)), snd (Report 0 w_fo r' w_h1 w_report2)) in
  out (WithLegend w_r1 "{done}") = out w_r1 /\ out (WithOutput w_r1 1%nat) = out w_r1 /\
  out (WithFloatPrecision w_r1 5) = out w_r1.
Proof. apply (builders_ignored_after_first_report 0 w_fo w_r1 w_h1 w_report2); w_tac. Defined.

Lemma Finalize_output_witness :
  exists h', Finalize w_r1 w_h1 = (w_r1, h', false) /\
    nth_error (store h') 0%nat = Some (NewWriter os_Stderr) /\
    appended (world w_h1) (world h') os_Stderr (buf (NewWriter os_Stderr) ++ String (Ascii.ascii_of_nat 10) "").
Proof. apply (Finalize_output w_r1 w_h1 0%nat (NewWriter os_Stderr)); w_tac. Defined.

Lemma Report_prepares_once_witness :
  let '(r', h', _) := Report 0 w_fo NewTextReporter heap0 readme_report in
  (legendCompiled NewTextReporter <> "" ->
     legendCompiled r' = legendCompiled NewTextReporter /\ writer r' = writer NewTextReporter /\
     List.length (store h') = List.length (store heap0)) /\
  (legendCompiled NewTextReporter = "" ->
     legendCompiled r' = Legend.compileLegend (legend NewTextReporter) (floatPrecision NewTextReporter) /\
     writer r' = Some (List.length (store heap0)) /\
     List.length (store h') = S (List.length (store heap0))).
Proof. exact (Report_prepares_once 0 w_fo NewTextReporter heap0 readme_report). Defined.

Lemma heap0_wf : heap_wf NewTextReporter heap0.
Proof. split; [intros i Hi; discriminate|split; [constructor|intros H; contradiction H; reflexivity]]. Qed.

Lemma Report_Finalize_wf_witness :
  (let '(r', h', _) := Report 0 w_fo NewTextReporter heap0 readme_report in heap_wf r' h') /\
  (let '(r', h', _) := Finalize NewTextReporter heap0 in heap_wf r' h').
Proof. apply (Report_Finalize_wf 0 w_fo NewTextReporter heap0 readme_report heap0_wf). Defined.

Lemma Report_panics_only_on_bar_witness :
  ProgressBar.renderProgressBar (fst (prepare NewTextReporter heap0))
    (ProgressBar.report_with_ratio 144115188075855872) = None.
Proof.
  apply (Report_panics_only_on_bar 0 w_fo NewTextReporter heap0 _ heap0_wf); w_tac.
Defined.

Lemma render_line_no_placeholder_witness :
  let r := mkTextReporter "working" 2 os_Stderr 80 "working" None 0 in
  render_line 0 w_fo r readme_report "" =
    legendCompiled r ++ extra (report_args 0 readme_report (display_eta readme_report) "").
Proof. apply (render_line_no_placeholder 0 w_fo); w_tac. Defined.

End Render.
