(* ===== verification/LineSpec.v ===== *)
(** * LineSpec: the line the text reporter prints, against the spec's table

    spec.md lists the fifteen placeholders of a legend, each expanding to
    "a specific formatted field", float fields with the configured
    precision.  The code gets there in two steps: [compileLegend]
    (src/unnamed/part_003 lines 185-205) turns the legend into a format
    with indexed verbs ([%[5]d], [%.2[7]f], ...), and [Report] (line 149)
    hands it to [fmt.Sprintf] with the fifteen fields of the report in a
    fixed order ([Render.report_args]).  This file states the contract
    directly, as [line_spec]: the legend with each placeholder replaced
    by the text of its field ([field_text], written from the table, not
    from the operand list) and each doubled percent sign by one; and it
    proves that [Render.render_line] is that text whenever the legend's
    own percent signs are doubled and the precision is one [fmt] reads
    (0 to 10^6).  A legend without any placeholder gets [fmt]'s
    [%!(EXTRA ...)] list after it.  Outside the range, a negative
    precision garbles the float placeholders: for the legend
    ["{ratio}"], [negative_precision_garbles] gives the whole line.

    The proof follows [doPrintf] ([GoFmt.format_loop]) through the
    compiled legend: literal text, doubled percent signs, and each verb,
    whose index and precision the verb parser ([parseArgNumber],
    [parsenum], [argNumber], [parse_prec]) reads back from the digits
    [compileLegend] wrote, [strconv.Itoa] of the precision included. *)

From Stdlib Require Import String ZArith List Bool Lia Ascii DecimalString DecimalPos.
From S2P Require Import Prelude GoRuntime ReportData TextReporter Legend GoFmt Render.
Import ListNotations.

Local Open Scope string_scope.
Local Open Scope Z_scope.

Module LineSpec.
Import Legend.

(** ** The specification *)

(** The spec's table: the text each placeholder stands for, the
    placeholders numbered as in [Legend.placeholders], [eta] the rounded
    ETA [Report] prints and [bar] the rendered progress bar; index 15
    is ["{float_precision}"], which [compileLegend] also replaces. *)
Definition field_text (tz prec : Z) (rep : Report) (eta : Z) (bar : string) (i : nat) : string :=
  match i with
  | O => Time_Format tz (Now rep)
  | 1%nat => Time_Format tz (StartedAt rep)
  | 2%nat => Duration_String (Duration_Round (DT rep) Millisecond)
  | 3%nat => int_dec (Total rep)
  | 4%nat => int_dec (ReportData.Done rep)
  | 5%nat => int_dec (Left rep)
  | 6%nat => format_f (Z.to_nat prec) (Ratio rep)
  | 7%nat => int_dec (PercentInt rep)
  | 8%nat => format_f (Z.to_nat prec) (PercentFloat rep)
  | 9%nat => Duration_String (Duration_Round (Elapsed rep) Second)
  | 10%nat => Duration_String eta
  | 11%nat => format_f (Z.to_nat prec) (RPSAvg rep)
  | 12%nat => format_f (Z.to_nat prec) (RPSInst rep)
  | 13%nat => format_f (Z.to_nat prec) (RPMAvg rep)
  | 14%nat => bar
  | _ => Itoa prec
  end.

(** The line the spec describes: the legend with each placeholder
    replaced by its field and each doubled ['%'] by one ['%']. *)
Fixpoint spec_render tz prec rep eta bar (xs : list piece) : string :=
  match xs with
  | [] => ""
  | Lit c :: xs' =>
      match xs' with
      | Lit c' :: xs'' =>
          if Ascii.eqb c "%" && Ascii.eqb c' "%" then "%" ++ spec_render tz prec rep eta bar xs''
          else String c (spec_render tz prec rep eta bar xs')
      | _ => String c (spec_render tz prec rep eta bar xs')
      end
  | Tok i :: xs' => field_text tz prec rep eta bar i ++ spec_render tz prec rep eta bar xs'
  end.

Definition line_spec tz prec rep eta bar (legend : string) : string :=
  spec_render tz prec rep eta bar (lex legend).

(** Every ['%'] of the legend's text is doubled, the way [fmt] writes a
    literal percent sign. *)
Fixpoint pct_paired (xs : list piece) : bool :=
  match xs with
  | [] => true
  | Lit c :: xs' =>
      if Ascii.eqb c "%" then
        match xs' with Lit c' :: xs'' => Ascii.eqb c' "%" && pct_paired xs'' | _ => false end
      else pct_paired xs'
  | Tok _ :: xs' => pct_paired xs'
  end.

(** ** The compiled legend, piece by piece *)

(** What [compileLegend] puts in place of one piece ([Legend.compile_ref]). *)
Definition compile_piece (prec : Z) (x : piece) : string :=
  match x with Lit c => String c "" | Tok i => expansion prec i end.

(** A piece that becomes a verb of [fmt]. *)
Definition is_verb (x : piece) : bool :=
  match x with Tok i => (i <? 15)%nat | Lit _ => false end.

(** [argNum] after the verbs of [xs]: one past the last index. *)
Fixpoint next_arg (n : nat) (xs : list piece) : nat :=
  match xs with
  | [] => n
  | Tok i :: xs' => if (i <? 15)%nat then next_arg (S i) xs' else next_arg n xs'
  | Lit _ :: xs' => next_arg n xs'
  end.

(** A byte that does not continue a number for [parsenum]. *)
Definition head_nondigit (t : string) : bool :=
  match t with String c _ => negb (is_digit c) | EmptyString => true end.

(** ** [strconv.Itoa] writes decimal digits *)

(** What [fmt] prints for a float verb read with the precision [p] < 0
    ([%.-N[7]f]): the first operand under the bad verb ['-'] ([fo] says
    how [fmt] renders a bad verb), the text [N[7]f] left of the verb,
    then [%!(EXTRA ...)] of the other operands of [Report]. *)
Definition garbled_ratio_line tz fo (p : Z) (rep : Report) (bar : string) : string :=
  fo (set_prec (set_wid no_flags None) (Some 0)) (VString (Time_Format tz (Now rep))) "-" ++
  Itoa (- p) ++ "[7]f" ++
  extra (skipn 1 (Render.report_args tz rep (Render.display_eta rep) bar)).

Lemma read_dec_string_of_uint_acc u acc :
  read_dec_from (Z.pos acc) (NilEmpty.string_of_uint u) = Z.pos (Pos.of_uint_acc u acc).
Proof.
  revert acc. induction u as [|u IH|u IH|u IH|u IH|u IH|u IH|u IH|u IH|u IH|u IH]; intros acc;
    [reflexivity|..]; cbn [NilEmpty.string_of_uint read_dec_from Pos.of_uint_acc];
    rewrite <- IH; f_equal; unfold digit_val; simpl Z.of_nat; lia.
Qed.

Lemma all_digits_string_of_uint u : all_digits (NilEmpty.string_of_uint u) = true.
Proof. induction u; exact IHu || reflexivity. Qed.

Lemma read_dec_string_of_uint u :
  read_dec (NilEmpty.string_of_uint u) = Z.of_N (Pos.of_uint u).
Proof.
  unfold read_dec. induction u as [|u IH|u IH|u IH|u IH|u IH|u IH|u IH|u IH|u IH|u IH];
    [reflexivity|exact IH|..]; cbn [NilEmpty.string_of_uint read_dec_from Pos.of_uint];
    apply read_dec_string_of_uint_acc.
Qed.

(** [strconv.Itoa] of a non-negative number: decimal digits, never
    empty, that read back as the number. *)
Lemma Itoa_digits p : 0 <= p ->
  Itoa p <> ""%string /\ all_digits (Itoa p) = true /\ read_dec (Itoa p) = p.
Proof.
  intros Hp. destruct p as [|q|q]; [repeat split; discriminate|..|lia].
  pose proof (DecimalPos.Unsigned.of_to q) as Hq. unfold Itoa. cbn [Z.to_int NilZero.string_of_int].
  destruct (Pos.to_uint q) as [|u|u|u|u|u|u|u|u|u|u]; [discriminate|..];
    cbn [NilZero.string_of_uint]; (split; [discriminate|split; [apply all_digits_string_of_uint|]]);
    rewrite read_dec_string_of_uint, Hq; reflexivity.
Qed.

(** ** The verb parser reads back what [compileLegend] wrote *)

Lemma read_dec_from_ge n s : 0 <= n -> all_digits s = true -> 0 <= n <= read_dec_from n s.
Proof.
  revert n. induction s as [|c s IH]; intros n Hn Hd; [simpl; lia|].
  unfold all_digits in Hd. simpl in Hd. apply andb_true_iff in Hd as [Hc Hd].
  unfold is_digit, digit_val in *. apply andb_true_iff in Hc as [Hc1 Hc2].
  apply Nat.leb_le in Hc1. cbn [read_dec_from]. unfold digit_val.
  assert (H := IH (n * 10 + (Z.of_nat (nat_of_ascii c) - 48)) ltac:(lia) Hd). lia.
Qed.

(** [parsenum] over a run of digits with a value within [tooLarge]. *)
Lemma parsenum_loop_digits d t lim n b :
  all_digits d = true -> (String.length d <= lim)%nat ->
  (lim = String.length d \/ head_nondigit t = true) ->
  0 <= n -> read_dec_from n d <= 1000000 ->
  parsenum_loop lim (d ++ t) n b = Some (read_dec_from n d, b || negb (String.eqb d ""), t).
Proof.
  revert lim n b. induction d as [|c d IH]; intros lim n b Hd Hl Ht Hn Hv.
  - rewrite orb_false_r. destruct lim as [|lim]; [destruct t; reflexivity|].
    destruct Ht as [Ht|Ht]; [discriminate|]. destruct t as [|c t]; [reflexivity|].
    simpl in *. apply negb_true_iff in Ht. now rewrite Ht.
  - unfold all_digits in Hd. simpl in Hd, Hl. apply andb_true_iff in Hd as [Hc Hd].
    destruct lim as [|lim]; [lia|]. cbn [parsenum_loop String.append]. rewrite Hc.
    pose proof (read_dec_from_ge (n * 10 + digit_val c) d) as Hg.
    assert (0 <= digit_val c) by (unfold is_digit, digit_val in *;
      apply andb_true_iff in Hc as [Hc _]; apply Nat.leb_le in Hc; lia).
    cbn [read_dec_from] in Hv |- *. unfold tooLarge.
    replace ((1000000 <? n) || (n <? -1000000)) with false
      by (symmetry; apply orb_false_iff; split; apply Z.ltb_ge; specialize (Hg ltac:(lia) Hd); lia).
    rewrite IH; [now rewrite orb_true_r|exact Hd|simpl in Ht; lia|simpl in Ht; destruct Ht as [Ht|Ht]; [left; lia|now right]|lia|exact Hv].
Qed.

Lemma index_digits k t :
  all_digits k = true -> String.index 0 "]" (k ++ String "]" t) = Some (String.length k).
Proof.
  induction k as [|c k IH]; intros Hd;
    [simpl; destruct (Ascii.ascii_dec "]" "]"); [now rewrite prefix_nil|congruence]|].
  unfold all_digits in Hd. simpl in Hd. apply andb_true_iff in Hd as [Hc Hd].
  assert (Hn : "]"%char <> c) by (intros <-; vm_compute in Hc; discriminate).
  cbn [String.append index]. rewrite prefix_cons_neq by exact Hn. now rewrite IH.
Qed.

(** [parseArgNumber] of ["[k]"]: the zero-based index [k - 1]. *)
Lemma parseArgNumber_digits k t :
  all_digits k = true -> k <> ""%string -> read_dec k <= 1000000 ->
  parseArgNumber ("[" ++ k ++ "]" ++ t) = (read_dec k - 1, S (S (String.length k)), true).
Proof.
  intros Hd Hk Hv. unfold parseArgNumber.
  assert (Hk1 : (1 <= String.length k)%nat) by (destruct k; [contradiction|simpl; lia]).
  assert (Hlen : String.length ("[" ++ k ++ "]" ++ t) = S (String.length k + S (String.length t)))
    by (simpl; now rewrite str_length_app).
  replace (_ <? 3)%nat with false by (symmetry; apply Nat.ltb_ge; lia).
  change ("[" ++ k ++ "]" ++ t)%string with ("[" ++ (k ++ String "]" t))%string.
  rewrite (substring_after "[" (k ++ String "]" t) 1 eq_refl).
  cbn [String.append index]. rewrite index_digits by exact Hd.
  unfold parsenum. replace (S (String.length k) - 1)%nat with (String.length k) by lia.
  rewrite parsenum_loop_digits by first [exact Hd | left; reflexivity | exact Hv | lia].
  replace (k =? "")%string with false by (symmetry; now apply String.eqb_neq).
  replace (_ =? S (String.length k))%nat with true
    by (symmetry; apply Nat.eqb_eq; cbn [String.length]; rewrite str_length_app; simpl; lia).
  reflexivity.
Qed.

Lemma argNumber_index n k t a af r g fl o :
  all_digits k = true -> k <> ""%string -> 1 <= read_dec k <= Z.of_nat n -> read_dec k <= 1000000 ->
  argNumber n (mkVS ("[" ++ k ++ "]" ++ t) a af r g fl o) =
    mkVS t (Z.to_nat (read_dec k - 1)) true true g fl o.
Proof.
  intros Hd Hk Hn Hv. unfold argNumber. cbn [vs_rest vs_arg vs_good vs_fl vs_out].
  rewrite parseArgNumber_digits by assumption.
  replace ("[" ++ k ++ "]" ++ t)%string with (("[" ++ k ++ "]") ++ t)%string
    by (now rewrite <- !str_app_assoc).
  rewrite substring_after by (rewrite !str_length_app; simpl; lia).
  rewrite (proj2 (Z.leb_le 0 _)), (proj2 (Z.ltb_lt _ _)) by lia. reflexivity.
Qed.

Lemma parsenum_digits c d t :
  all_digits (String c d) = true -> read_dec (String c d) <= 1000000 -> head_nondigit t = true ->
  parsenum (String c (d ++ t)) (String.length (String c (d ++ t))) = (read_dec (String c d), true, t).
Proof.
  intros Hd Hv Ht. unfold parsenum. change (String c (d ++ t)) with (String c d ++ t)%string.
  rewrite parsenum_loop_digits; try assumption; try lia;
    [reflexivity|rewrite str_length_app; lia|now right].
Qed.

Lemma argNumber_nobracket n c s a af r g fl o :
  Ascii.eqb c "[" = false ->
  argNumber n (mkVS (String c s) a af r g fl o) = mkVS (String c s) a false r g fl o.
Proof. destruct c as [[] [] [] [] [] [] [] []]; intros H; try discriminate; reflexivity. Qed.

Lemma digit_not_bracket c : is_digit c = true -> Ascii.eqb c "[" = false.
Proof. destruct c as [[] [] [] [] [] [] [] []]; intros H; try discriminate; reflexivity. Qed.

(** A precision written in decimal, followed by a non-digit. *)
(** A precision of digits ends the precision, [afterIndex] reset. *)
Lemma parse_prec_digits a D t n af r g fl o :
  all_digits D = true -> D <> ""%string -> read_dec D <= 1000000 -> head_nondigit t = true ->
  parse_prec a (mkVS (String "." (D ++ t)) n af r g fl o) =
    mkVS t n false r (if af then false else g) (set_prec fl (Some (read_dec D))) o.
Proof.
  intros Hd Hk Hv Ht. destruct D as [|c D']; [contradiction|].
  assert (Hc : is_digit c = true) by (unfold all_digits in Hd; simpl in Hd; now apply andb_true_iff in Hd).
  unfold parse_prec. cbn [vs_rest vs_arg vs_after vs_reord vs_good vs_fl vs_out String.append].
  rewrite argNumber_nobracket by now apply digit_not_bracket.
  destruct c as [[] [] [] [] [] [] [] []]; try (vm_compute in Hc; discriminate);
    cbv beta iota; cbn [vs_rest vs_arg vs_after vs_reord vs_good vs_fl vs_out];
    rewrite parsenum_digits by assumption; reflexivity.
Qed.

Section Verbs.
Variable fo : Flags -> Value -> string -> string.
Variable A : list Value.

(** A verb [%[k]v] with no flag: operand [k] printed by [printArg]. *)
Lemma do_verb_index k v t n r x :
  In v ["s"; "d"; "f"]%char -> all_digits k = true -> k <> ""%string ->
  1 <= read_dec k <= Z.of_nat (List.length A) -> read_dec k <= 1000000 ->
  nth_error A (Z.to_nat (read_dec k - 1)) = Some x ->
  do_verb fo A ("[" ++ k ++ "]" ++ String v t) n r =
    (printArg fo no_flags x (String v ""), t, S (Z.to_nat (read_dec k - 1)), true, false).
Proof.
  intros Hv Hd Hk Hn Hb Hx. unfold do_verb.
  change (parse_flags ("[" ++ k ++ "]" ++ String v t) no_flags)
    with (("[" ++ k ++ "]" ++ String v t)%string, no_flags).
  cbv beta iota zeta. rewrite argNumber_index by assumption.
  destruct Hv as [<-|[<-|[<-|[]]]]; simpl; rewrite Hx, Nat.sub_0_r, substring_full; reflexivity.
Qed.
(** A verb [%.D[k]v]: the precision [D] in decimal, then the index. *)
Lemma do_verb_prec D k v t n r x :
  In v ["s"; "d"; "f"]%char -> all_digits D = true -> D <> ""%string -> read_dec D <= 1000000 ->
  all_digits k = true -> k <> ""%string ->
  1 <= read_dec k <= Z.of_nat (List.length A) -> read_dec k <= 1000000 ->
  nth_error A (Z.to_nat (read_dec k - 1)) = Some x ->
  do_verb fo A (String "." (D ++ "[" ++ k ++ "]" ++ String v t)) n r =
    (printArg fo (set_prec no_flags (Some (read_dec D))) x (String v ""), t,
     S (Z.to_nat (read_dec k - 1)), true, false).
Proof.
  intros Hv HD HD0 HDb Hd Hk Hn Hb Hx. unfold do_verb.
  set (X := (D ++ "[" ++ k ++ "]" ++ String v t)%string).
  change (parse_flags (String "." X) no_flags) with (String "." X, no_flags).
  cbv beta iota zeta.
  change (argNumber (List.length A) (mkVS (String "." X) n false r true no_flags ""))
    with (mkVS (String "." X) n false r true no_flags "").
  change (parse_width A (mkVS (String "." X) n false r true no_flags ""))
    with (mkVS (String "." X) n false r true (set_wid no_flags None) "").
  subst X. rewrite parse_prec_digits by first [assumption | reflexivity].
  cbv beta iota. cbn [vs_rest vs_arg vs_after vs_reord vs_good vs_fl vs_out].
  rewrite argNumber_index by assumption.
  destruct Hv as [<-|[<-|[<-|[]]]]; simpl; rewrite Hx, Nat.sub_0_r, substring_full; reflexivity.
Qed.
End Verbs.

(** ** [doPrintf] over a compiled legend *)

Section Loop.
Variable fo : Flags -> Value -> string -> string.
Variables (tz prec : Z) (rep : Report) (eta : Z) (bar : string).
Hypothesis Hprec : 0 <= prec <= 1000000.
Local Abbreviation A := (Render.report_args tz rep eta bar).

Lemma format_loop_pct f Y n r :
  format_loop fo A (S f) (String "%" Y) n r =
    let '(out, rest, n', r', stop) := do_verb fo A Y n r in
    if stop then (out, n', r')
    else let '(out', n'', r'') := format_loop fo A f rest n' r' in (out ++ out', n'', r'').
Proof. reflexivity. Qed.

Lemma format_loop_lit f c s n r :
  c <> "%"%char ->
  format_loop fo A (S f) (String c s) n r =
    let '(o, n', r') := format_loop fo A (S f) s n r in (String c o, n', r').
Proof.
  intros Hc. cbn [format_loop split_pct]. rewrite (proj2 (Ascii.eqb_neq c "%") Hc).
  destruct (split_pct s) as [lit [|c' s']]; [reflexivity|].
  destruct (do_verb fo A s' n r) as [[[[o rs] n'] r'] [|]]; [reflexivity|].
  destruct (format_loop fo A f rs n' r') as [[o' n''] r'']. reflexivity.
Qed.

Lemma format_loop_text f u s n r :
  no_pct u = true ->
  format_loop fo A (S f) (u ++ s) n r =
    let '(o, n', r') := format_loop fo A (S f) s n r in (u ++ o, n', r').
Proof.
  induction u as [|c u IH]; intros Hu.
  - cbn [String.append]. destruct (format_loop fo A (S f) s n r) as [[o n'] r']. reflexivity.
  - simpl in Hu. apply andb_true_iff in Hu as [Hc Hu]. cbn [String.append].
    rewrite format_loop_lit by (intros ->; discriminate). rewrite IH by exact Hu.
    destruct (format_loop fo A (S f) s n r) as [[o n'] r']. reflexivity.
Qed.

Lemma printArg_string s : printArg fo no_flags (VString s) "s" = s.
Proof. reflexivity. Qed.
Lemma printArg_duration d : printArg fo no_flags (VDuration d) "s" = Duration_String d.
Proof. reflexivity. Qed.
Lemma printArg_int z : printArg fo no_flags (VInt z) "d" = int_dec z.
Proof. reflexivity. Qed.
Lemma printArg_float p x : printArg fo (set_prec no_flags (Some p)) (VFloat x) "f" = format_f (Z.to_nat p) x.
Proof. reflexivity. Qed.

Ltac read_dec_eval :=
  repeat match goal with |- context [read_dec ?k] =>
    let v := eval vm_compute in (read_dec k) in change (read_dec k) with v end.

Ltac verb_side := first [reflexivity | discriminate | solve [simpl; auto] | (read_dec_eval; simpl; lia)].

Ltac plain_case k v :=
  lazymatch goal with |- context [format_loop _ _ _ (expansion ?p ?i ++ ?s) _ _] =>
    change (expansion p i ++ s) with (String "%" ("[" ++ k ++ "]" ++ String v s)) end;
  rewrite format_loop_pct; erewrite do_verb_index by verb_side;
  rewrite ?printArg_string, ?printArg_duration, ?printArg_int; cbn [field_text]; reflexivity.

Ltac prec_case HIv k :=
  lazymatch goal with |- context [format_loop _ _ _ (expansion ?p ?i ++ ?s) _ _] =>
    replace (expansion p i ++ s) with (String "%" (String "." (Itoa p ++ "[" ++ k ++ "]" ++ String "f" s)))
      by (cbn [expansion]; rewrite <- !str_app_assoc; reflexivity) end;
  rewrite format_loop_pct; erewrite do_verb_prec by first [assumption | rewrite HIv; lia | verb_side];
  rewrite HIv, printArg_float; cbn [field_text]; reflexivity.

(** One compiled placeholder: the verb takes its operand by index and
    prints the field's text, in one round of the loop. *)
Lemma format_loop_field i f s n r :
  (i < 15)%nat ->
  format_loop fo A (S f) (expansion prec i ++ s) n r =
    let '(o, n', r') := format_loop fo A f s (S i) true in
    (field_text tz prec rep eta bar i ++ o, n', r').
Proof.
  intros Hi. destruct (Itoa_digits prec) as (HI0 & HId & HIv); [lia|].
  destruct i as [|[|[|[|[|[|[|[|[|[|[|[|[|[|[|i]]]]]]]]]]]]]]]; [..|lia].
  - plain_case "1" "s"%char.
  - plain_case "2" "s"%char.
  - plain_case "3" "s"%char.
  - plain_case "4" "d"%char.
  - plain_case "5" "d"%char.
  - plain_case "6" "d"%char.
  - prec_case HIv "7".
  - plain_case "8" "d"%char.
  - prec_case HIv "9".
  - plain_case "10" "s"%char.
  - plain_case "11" "s"%char.
  - prec_case HIv "12".
  - prec_case HIv "13".
  - prec_case HIv "14".
  - plain_case "15" "s"%char.
Qed.
Lemma no_pct_digits u : all_digits u = true -> no_pct u = true.
Proof.
  induction u as [|c u IH]; [reflexivity|]. unfold all_digits. simpl.
  intros H. apply andb_true_iff in H as [Hc H]. rewrite IH by exact H.
  destruct (Ascii.eqb_spec c "%") as [->|_]; [discriminate|reflexivity].
Qed.

Lemma expansion_head i : (i < 15)%nat -> exists t, expansion prec i = String "%" t.
Proof.
  intros Hi. destruct i as [|[|[|[|[|[|[|[|[|[|[|[|[|[|[|i]]]]]]]]]]]]]]]; [..|lia];
    eexists; reflexivity.
Qed.

Lemma next_arg_no_verb n xs : existsb is_verb xs = false -> next_arg n xs = n.
Proof.
  induction xs as [|[c|i] xs IH]; intros H; [reflexivity|exact (IH H)|].
  simpl in H. apply orb_false_iff in H as [Hi H]. simpl. rewrite Hi. exact (IH H).
Qed.

Lemma do_verb_pct s n r : do_verb fo A (String "%" s) n r = ("%", s, n, r, false).
Proof. unfold do_verb. simpl. now rewrite Nat.sub_0_r, substring_full. Qed.

Lemma spec_render_lit c xs :
  c <> "%"%char ->
  spec_render tz prec rep eta bar (Lit c :: xs) = String c (spec_render tz prec rep eta bar xs).
Proof.
  intros Hc. apply Ascii.eqb_neq in Hc. destruct xs as [|[c'|i] xs]; [reflexivity| |reflexivity].
  cbn [spec_render]. now rewrite Hc.
Qed.

(** The loop of [doPrintf] over a compiled legend prints, piece by piece,
    the text the table gives each placeholder; the fuel [Sprintf] gives
    it, one round per byte, is enough. *)
Lemma format_loop_render m xs f n r :
  (List.length xs < m)%nat -> pct_paired xs = true -> valid xs ->
  (String.length (render (compile_piece prec) xs) < f)%nat ->
  format_loop fo A f (render (compile_piece prec) xs) n r =
    (spec_render tz prec rep eta bar xs, next_arg n xs, r || existsb is_verb xs).
Proof.
  revert xs f n r. induction m as [|m IH]; intros xs f n r Hm Hp Hv Hf; [lia|].
  destruct f as [|f]; [lia|]. destruct xs as [|[c|i] xs].
  - simpl. now rewrite orb_false_r.
  - destruct (Ascii.eqb_spec c "%") as [->|Hc].
    + destruct xs as [|[c'|i] xs]; try discriminate. cbn [pct_paired] in Hp.
      apply andb_true_iff in Hp as [Hc' Hp]. apply Ascii.eqb_eq in Hc' as ->.
      destruct Hv as [_ [_ Hv]]. cbn [render compile_piece String.append String.length] in Hf |- *.
      rewrite format_loop_pct, do_verb_pct, IH by (simpl in Hm; first [assumption | lia]).
      reflexivity.
    + cbn [pct_paired] in Hp. rewrite (proj2 (Ascii.eqb_neq _ _) Hc) in Hp. destruct Hv as [_ Hv].
      cbn [render compile_piece String.append String.length] in Hf |- *.
      rewrite format_loop_lit, spec_render_lit, IH by (simpl in Hm; first [assumption | lia]).
      reflexivity.
  - destruct Hv as [Hi Hv]. cbn [pct_paired] in Hp.
    cbn [render compile_piece spec_render next_arg existsb is_verb] in Hf |- *.
    rewrite str_length_app in Hf.
    destruct (Nat.ltb_spec i 15) as [Hlt|Hge].
    + destruct (expansion_head i Hlt) as [t Ht]. rewrite Ht in Hf. simpl in Hf.
      rewrite format_loop_field, IH by (simpl in Hm; first [assumption | lia]).
      rewrite orb_true_r. reflexivity.
    + unfold ntokens in Hi. assert (i = 15%nat) by lia. subst i.
      destruct (Itoa_digits prec) as (_ & HId & _); [lia|].
      cbn [expansion field_text] in Hf |- *. rewrite format_loop_text by (now apply no_pct_digits).
      rewrite IH by (simpl in Hm; first [assumption | lia]). reflexivity.
Qed.

End Loop.

(** ** The rendered line *)

(** [fmt.Sprintf] of a compiled legend with the reporter's operands. *)
Lemma Sprintf_compiled fo tz prec rep eta bar legend :
  0 <= prec <= 1000000 -> pct_paired (lex legend) = true ->
  Sprintf fo (Render.report_args tz rep eta bar) (compile_ref prec legend) =
    line_spec tz prec rep eta bar legend ++
    (if existsb is_verb (lex legend) then "" else extra (Render.report_args tz rep eta bar)).
Proof.
  intros Hp Hl. unfold Sprintf.
  change (compile_ref prec legend) with (render (compile_piece prec) (lex legend)).
  rewrite (format_loop_render _ _ _ _ _ _ Hp (S (List.length (lex legend))))
    by (first [assumption | apply lex_valid | lia]).
  unfold line_spec. destruct (existsb is_verb (lex legend)) eqn:E; simpl.
  - now rewrite str_app_nil_r.
  - rewrite next_arg_no_verb by exact E. reflexivity.
Qed.

(** C10: The line [Report] formats is the legend with every placeholder
    replaced by the text of its field, as the spec's table says
    ([{done}] by [Done] in decimal, [{ratio}] by [Ratio] with the
    configured precision, [{eta}] by the rounded ETA, [{progress_bar}] by
    the bar, ...), and every doubled percent sign by one; a legend with no
    placeholder is followed by [%!(EXTRA ...)].  It holds for every
    report and bar, once the legend is compiled, when the legend's own
    percent signs are doubled and the precision is between 0 and 10^6. *)
Theorem render_line_spec tz fo r rep bar :
  TextReporter.legendCompiled r = compileLegend (TextReporter.legend r) (TextReporter.floatPrecision r) ->
  pct_paired (lex (TextReporter.legend r)) = true -> 0 <= TextReporter.floatPrecision r <= 1000000 ->
  Render.render_line tz fo r rep bar =
    line_spec tz (TextReporter.floatPrecision r) rep (Render.display_eta rep) bar (TextReporter.legend r) ++
    (if existsb is_verb (lex (TextReporter.legend r)) then ""
     else extra (Render.report_args tz rep (Render.display_eta rep) bar)).
Proof.
  intros Hc Hl Hp. unfold Render.render_line. rewrite Hc, compileLegend_ref.
  now apply Sprintf_compiled.
Qed.

Lemma Itoa_neg p : p < 0 -> Itoa p = String "-" (Itoa (- p)).
Proof.
  intros Hp. destruct p as [|q|q]; [lia|lia|]. unfold Itoa. cbn [Z.to_int Z.opp NilZero.string_of_int].
  destruct (Pos.to_uint q); reflexivity.
Qed.

(** A precision that starts with ['-']: no digits, so precision 0, and
    the ['-'] is taken for the verb, applied to the next operand. *)
Lemma do_verb_minus fo A X v :
  nth_error A 0 = Some v ->
  do_verb fo A (String "." (String "-" X)) 0 false =
    (printArg fo (set_prec (set_wid no_flags None) (Some 0)) v "-", X, 1%nat, false, false).
Proof.
  intros Hv. destruct A as [|a A']; [discriminate|]. injection Hv as ->.
  unfold do_verb. simpl. rewrite Nat.sub_0_r, substring_full. reflexivity.
Qed.

(** C22: A negative precision (which [WithFloatPrecision] accepts) breaks
    every float verb: [compileLegend] writes [%.-1[7]f], [fmt] reads an
    empty precision and takes ['-'] for the verb.  The legend
    ["{ratio}"] then prints the first operand, [{now}]'s time, under the
    bad verb ['-'] (what [fmt] makes of a bad verb is the parameter
    [fo]), then the rest of the verb as text, then [%!(EXTRA ...)] of the
    other fourteen operands: the ratio appears only inside that list,
    never in the place of [{ratio}]. *)
Theorem negative_precision_garbles tz fo r rep bar :
  TextReporter.legendCompiled r = compileLegend (TextReporter.legend r) (TextReporter.floatPrecision r) ->
  TextReporter.legend r = "{ratio}" -> TextReporter.floatPrecision r < 0 ->
  Render.render_line tz fo r rep bar = garbled_ratio_line tz fo (TextReporter.floatPrecision r) rep bar.
Proof.
  intros Hc Hl Hp. unfold Render.render_line, garbled_ratio_line. rewrite Hc, Hl, compileLegend_ref.
  set (p := TextReporter.floatPrecision r) in *.
  change (compile_ref p "{ratio}") with (expansion p 6 ++ "").
  cbn [expansion]. rewrite Itoa_neg by exact Hp.
  destruct (Itoa_digits (- p)) as (_ & HId & _); [lia|].
  unfold Sprintf. rewrite str_app_nil_r.
  replace ("%." ++ String "-" (Itoa (- p)) ++ "[" ++ "7" ++ "]f")
    with (String "%" (String "." (String "-" (Itoa (- p) ++ "[7]f")))) by reflexivity.
  rewrite format_loop_pct. erewrite do_verb_minus by reflexivity. cbv beta iota.
  cbn [String.length].
  pose proof (format_loop_text fo tz rep (Render.display_eta rep) bar
                (S (S (String.length (Itoa (- p) ++ "[7]f")))) (Itoa (- p) ++ "[7]f") "" 1 false) as T.
  rewrite str_app_nil_r in T. rewrite T by (rewrite no_pct_app, (no_pct_digits _ HId); reflexivity).
  simpl. now rewrite <- !str_app_assoc.
Qed.
(** ** Witnesses *)

(** The default reporter after its first [prepare]. *)
Definition w_reporter : TextReporter.TextReporter :=
  fst (Render.prepare TextReporter.NewTextReporter Render.heap0).

Lemma render_line_spec_witness :
  TextReporter.legendCompiled w_reporter =
    compileLegend (TextReporter.legend w_reporter) (TextReporter.floatPrecision w_reporter) /\
  pct_paired (lex (TextReporter.legend w_reporter)) = true /\
  0 <= TextReporter.floatPrecision w_reporter <= 1000000 /\
  Render.render_line 0 Render.w_fo w_reporter Render.readme_report "" =
    line_spec 0 (TextReporter.floatPrecision w_reporter) Render.readme_report
      (Render.display_eta Render.readme_report) "" (TextReporter.legend w_reporter) ++
    (if existsb is_verb (lex (TextReporter.legend w_reporter)) then ""
     else extra (Render.report_args 0 Render.readme_report (Render.display_eta Render.readme_report) "")).
Proof.
  assert (H1 : TextReporter.legendCompiled w_reporter =
    compileLegend (TextReporter.legend w_reporter) (TextReporter.floatPrecision w_reporter))
    by reflexivity.
  assert (H2 : pct_paired (lex (TextReporter.legend w_reporter)) = true) by (vm_compute; reflexivity).
  assert (H3 : 0 <= TextReporter.floatPrecision w_reporter <= 1000000) by (vm_compute; split; discriminate).
  split; [exact H1|split; [exact H2|split; [exact H3|]]].
  apply render_line_spec; assumption.
Defined.

(** The default reporter with the legend ["{ratio}"] and precision -1,
    after its first [prepare]. *)
Definition w_negative : TextReporter.TextReporter :=
  fst (Render.prepare (TextReporter.WithFloatPrecision
                         (TextReporter.WithLegend TextReporter.NewTextReporter "{ratio}") (-1))
         Render.heap0).

Lemma negative_precision_garbles_witness :
  TextReporter.legendCompiled w_negative =
    compileLegend (TextReporter.legend w_negative) (TextReporter.floatPrecision w_negative) /\
  TextReporter.legend w_negative = "{ratio}" /\ TextReporter.floatPrecision w_negative < 0 /\
  Render.render_line 0 Render.w_fo w_negative Render.readme_report "" =
    Render.w_fo (set_prec (set_wid no_flags None) (Some 0))
      (VString (Time_Format 0 (Now Render.readme_report))) "-" ++
    Itoa 1 ++ "[7]f" ++
    extra (skipn 1 (Render.report_args 0 Render.readme_report (Render.display_eta Render.readme_report) "")).
Proof.
  assert (H1 : TextReporter.legendCompiled w_negative =
    compileLegend (TextReporter.legend w_negative) (TextReporter.floatPrecision w_negative)) by reflexivity.
  assert (H2 : TextReporter.legend w_negative = "{ratio}") by reflexivity.
  assert (H3 : TextReporter.floatPrecision w_negative < 0) by reflexivity.
  split; [exact H1|split; [exact H2|split; [exact H3|]]].
  apply (negative_precision_garbles 0 Render.w_fo w_negative Render.readme_report ""); assumption.
Defined.

End LineSpec.
