(* ===== verification/Scheduler.v ===== *)
(** * Scheduler: the reporting goroutine as a state machine

    [StartChan] (and [StartCtx], which passes [ctx.Done()]) of
    src/unnamed/part_002, lines 50-74, and the older [Start] of src/gopv.go,
    lines 48-64.  The goroutine runs against the [Reporter] interface, so
    every theorem here holds for every reporter.

    The state [St] is the shared counter, the clock, whether the
    cancellation channel has fired, the set of closed channels, the
    goroutine's program counter [PC], and the observable trace of events.
    [step] has one rule per thing that can happen next: a producer's
    [Add] (any number of producers, any interleaving: each [Add] is one
    atomic step), the clock advancing, the cancellation, and each step of
    the goroutine.  A [select] with both cases ready may take either, as
    Go's does.

    Theorems, by rule induction over the reachable states: [Finalize] runs
    at most once and before [close(doneCh)], so a caller that sees [Done()]
    closed has seen the final flush, and no report comes after
    [Finalize]; every report counts exactly the
    [Add]s before it (no lost update); reports are spaced by at least
    [reportTime]; after cancellation the goroutine reaches [close(doneCh)]
    without any timer; and the divergences: for every counter, a report
    can follow the cancellation, and the old [Start] never finalizes. *)

From Stdlib Require Import ZArith List Bool Lia.
From S2P Require Import Prelude GoRuntime ReportData TextReporter Progress.
Import ListNotations.

Local Open Scope Z_scope.

Module Scheduler.
Import Progress.

(** The current code ([StartChan]) or the old [Start] of src/gopv.go,
    which has no deferred [Finalize] and no [doneCh]. *)
Inductive Version := Current | Legacy.

Inductive PC :=
| GIdle                          (* not started *)
| GInit                          (* goroutine launched, first report next *)
| GLoop                          (* at the top of the for loop *)
| GSelect (deadline : Z)         (* blocked in select; time.After fires at deadline *)
| GFinalize (panicking : bool)   (* in the deferred func, Finalize next *)
| GClose (panicking : bool)      (* deferred close(p.doneCh) next *)
| GExited                        (* goroutine returned *)
| GCrashed.                      (* an unrecovered panic ended the program *)

Inductive Event :=
| EvAdd (n : Z) | EvCancel | EvReport (r : ReportData.Report) | EvFinalize | EvClose.

Record St (R : Type) := mkSt {
  prog : Progress R;
  clock : Time;
  cancelled : bool;
  closed : list ChanHandle;
  pc : PC;
  trace : list Event
}.
Arguments mkSt {R}.
Arguments prog {R}. Arguments clock {R}. Arguments cancelled {R}.
Arguments closed {R}. Arguments pc {R}. Arguments trace {R}.

(** The monotonic reading of a clock value ([time.Now] always has one). *)
Definition mono (t : Time) : Z :=
  match t_mono t with Some m => m | None => t_abs t end.

Definition advance (t : Time) (d : Z) : Time :=
  mkTime (t_abs t + d) (option_map (Z.add d) (t_mono t)).

Section Machine.
Context {R : Type} {RR : Reporter R}.

Definition set_pc (s : St R) (q : PC) : St R :=
  mkSt (prog s) (clock s) (cancelled s) (closed s) q (trace s).

Definition set_reporter (p : Progress R) (r : R) : Progress R :=
  mkProgress (total p) (done p) (startedAt p) (reportTime p)
    (lastReportedDone p) (lastReportedAt p) r (doneCh p).

(** [p.startedAt = time.Now(); p.lastReportedAt = p.startedAt]. *)
Definition start_times (p : Progress R) (now : Time) : Progress R :=
  mkProgress (total p) (done p) now (reportTime p) (lastReportedDone p) now
    (reporter p) (doneCh p).

(** Where a panic of [Report] leads: the deferred function of
    [StartChan] still runs; the old [Start] has none. *)
Definition panic_pc (v : Version) : PC :=
  match v with Current => GFinalize true | Legacy => GCrashed end.

(** Where [case <-done: return] leads. *)
Definition exit_pc (v : Version) : PC :=
  match v with Current => GFinalize false | Legacy => GExited end.

(** [p.reporter.Report(p.Report())]. *)
Definition do_report (v : Version) (s : St R) : St R :=
  let '(r, p') := Progress.Report (prog s) (clock s) in
  let '(rep', panicked) := report (reporter p') r in
  if panicked then mkSt (set_reporter p' rep') (clock s) (cancelled s) (closed s) (panic_pc v) (trace s)
  else mkSt (set_reporter p' rep') (clock s) (cancelled s) (closed s) GLoop (trace s ++ [EvReport r]).

(** [p.reporter.Finalize()]; [defer close(p.doneCh)] is registered only
    once it returns. *)
Definition do_finalize (s : St R) (panicking : bool) : St R :=
  let '(rep', panicked) := finalize (reporter (prog s)) in
  if panicked then mkSt (set_reporter (prog s) rep') (clock s) (cancelled s) (closed s) GCrashed (trace s)
  else mkSt (set_reporter (prog s) rep') (clock s) (cancelled s) (closed s) (GClose panicking)
         (trace s ++ [EvFinalize]).

(** [close(p.doneCh)]: a second close panics. *)
Definition do_close (s : St R) (panicking : bool) : St R :=
  let ch := doneCh (prog s) in
  if existsb (Nat.eqb ch) (closed s) then set_pc s GCrashed
  else mkSt (prog s) (clock s) (cancelled s) (ch :: closed s)
         (if panicking then GCrashed else GExited) (trace s ++ [EvClose]).

Inductive step (v : Version) : St R -> St R -> Prop :=
| step_start s :
    pc s = GIdle ->
    step v s (mkSt (start_times (prog s) (clock s)) (clock s) (cancelled s) (closed s)
                GInit (trace s))
| step_add s n :
    step v s (mkSt (Add (prog s) n) (clock s) (cancelled s) (closed s) (pc s)
                (trace s ++ [EvAdd n]))
| step_tick s d :
    0 < d ->
    step v s (mkSt (prog s) (advance (clock s) d) (cancelled s) (closed s) (pc s) (trace s))
| step_cancel s :
    cancelled s = false ->
    step v s (mkSt (prog s) (clock s) true (closed s) (pc s) (trace s ++ [EvCancel]))
| step_first s :
    pc s = GInit -> step v s (do_report v s)
| step_enter s :
    pc s = GLoop -> step v s (set_pc s (GSelect (mono (clock s) + reportTime (prog s))))
| step_done s dl :
    pc s = GSelect dl -> cancelled s = true -> step v s (set_pc s (exit_pc v))
| step_timer s dl :
    pc s = GSelect dl -> dl <= mono (clock s) -> step v s (do_report v s)
| step_finalize s b :
    pc s = GFinalize b -> step v s (do_finalize s b)
| step_close s b :
    pc s = GClose b -> step v s (do_close s b).

Inductive star (v : Version) : St R -> St R -> Prop :=
| star_refl s : star v s s
| star_step s1 s2 s3 : step v s1 s2 -> star v s2 s3 -> star v s1 s3.

(** The state right after [New]: nothing started, nothing closed. *)
Definition init (p : Progress R) (now : Time) : St R :=
  mkSt p now false [] GIdle [].

End Machine.

(** ** Observations of a trace *)

Definition is_fin (e : Event) : bool := match e with EvFinalize => true | _ => false end.
Definition is_close (e : Event) : bool := match e with EvClose => true | _ => false end.

Fixpoint adds (tr : list Event) : list Z :=
  match tr with
  | [] => []
  | EvAdd n :: tr' => n :: adds tr'
  | _ :: tr' => adds tr'
  end.

(** The monotonic times of the reports, in order. *)
Fixpoint report_times (tr : list Event) : list Z :=
  match tr with
  | [] => []
  | EvReport r :: tr' => mono (Now r) :: report_times tr'
  | _ :: tr' => report_times tr'
  end.

Fixpoint spaced (gap : Z) (l : list Z) : Prop :=
  match l with
  | x :: ((y :: _) as l') => x + gap <= y /\ spaced gap l'
  | _ => True
  end.


(** Normalise both sides of a list equation to right-nested appends. *)
Ltac list_assoc := repeat (rewrite <- ?app_assoc, <- ?app_comm_cons); reflexivity.

Lemma adds_app a b : adds (a ++ b) = adds a ++ adds b.
Proof. induction a as [|[] a IH]; simpl; f_equal; auto. Qed.

Lemma report_times_app a b : report_times (a ++ b) = report_times a ++ report_times b.
Proof. induction a as [|[] a IH]; simpl; f_equal; auto. Qed.

#[local] Hint Rewrite adds_app report_times_app : gopv_rw.

(** Where an element of a list extended at its end can sit. *)
Lemma snoc_split {A} (l t1 t2 : list A) (x e : A) :
  l ++ [e] = t1 ++ x :: t2 ->
  (t1 = l /\ x = e /\ t2 = []) \/ (exists t2', t2 = t2' ++ [e] /\ l = t1 ++ x :: t2').
Proof.
  destruct t2 as [|y t2] using rev_ind; intros H.
  - apply app_inj_tail in H as [-> ->]. now left.
  - right. rewrite app_comm_cons, app_assoc in H.
    apply app_inj_tail in H as [-> ->]. now exists t2.
Qed.

Section Invariants.
Context {R : Type} {RR : Reporter R}.

Lemma star_inv (v : Version) (Inv : St R -> Prop) :
  (forall s s', Inv s -> step v s s' -> Inv s') ->
  forall s s', star v s s' -> Inv s -> Inv s'.
Proof. intros Hs s s' Hst. induction Hst; eauto. Qed.

(** Every step keeps [doneCh], [total] and [reportTime]. *)
Lemma step_keeps v s s' :
  step v s s' ->
  doneCh (prog s') = doneCh (prog s) /\ total (prog s') = total (prog s) /\
  reportTime (prog s') = reportTime (prog s).
Proof.
  destruct 1; unfold do_report, do_finalize, do_close, set_pc in *; simpl; auto;
    repeat match goal with
           | |- context [Progress.Report ?p ?c] => unfold Progress.Report;
                destruct (total p =? 0); simpl
           | |- context [match ?m with Some _ => _ | None => _ end] => destruct m; simpl
           | |- context [let '(_, _) := ?m in _] => destruct m; simpl
           | |- context [if ?b then _ else _] => destruct b; simpl
           end; auto.
Qed.

(** A step that neither the producers nor the canceller take: the
    reporting goroutine's own steps, and time passing while it runs. *)
Definition quiet_step (v : Version) (s s' : St R) : Prop :=
  step v s s' /\ pc s <> GIdle /\ adds (trace s') = adds (trace s) /\ cancelled s' = cancelled s.

Inductive qstar (v : Version) : St R -> St R -> Prop :=
| qstar_refl s : qstar v s s
| qstar_step s1 s2 s3 : quiet_step v s1 s2 -> qstar v s2 s3 -> qstar v s1 s3.

Lemma qstar_star v s s' : qstar v s s' -> star v s s'.
Proof. induction 1 as [|s1 s2 s3 [H _] _ IH]; econstructor; eauto. Qed.

Lemma qstar_trans v s1 s2 s3 : qstar v s1 s2 -> qstar v s2 s3 -> qstar v s1 s3.
Proof. induction 1; eauto using qstar. Qed.

(** ** Finalize runs once, before [close(doneCh)] *)

(** What each point of the goroutine has done: nothing before the
    deferred function, [Finalize] once at the [close]. *)
Definition pc_req (q : PC) (nf : nat) (cl : list ChanHandle) : Prop :=
  match q with
  | GIdle | GInit | GLoop | GSelect _ | GFinalize _ => nf = 0%nat /\ cl = []
  | GClose _ => nf = 1%nat /\ cl = []
  | GExited | GCrashed => True
  end.

Definition fin_inv (s : St R) : Prop :=
  (count_if is_fin (trace s) <= 1)%nat /\
  ((closed s = [] /\ count_if is_close (trace s) = 0%nat) \/
   (closed s = [doneCh (prog s)] /\ count_if is_close (trace s) = 1%nat /\
    exists t1 t2 t3, trace s = t1 ++ EvFinalize :: t2 ++ EvClose :: t3)) /\
  pc_req (pc s) (count_if is_fin (trace s)) (closed s).

Lemma count_snoc (f : Event -> bool) l e :
  count_if f (l ++ [e]) = (count_if f l + if f e then 1 else 0)%nat.
Proof. rewrite count_if_app. unfold count_if. simpl. now destruct (f e). Qed.

Lemma count_one_split l :
  count_if is_fin l = 1%nat -> exists t1 t2, l = t1 ++ EvFinalize :: t2.
Proof.
  intros H. assert (Hx : exists x, In x (filter is_fin l)).
  { unfold count_if in H. destruct (filter is_fin l) as [|x]; [discriminate|].
    exists x. now left. }
  destruct Hx as [x Hx]. apply filter_In in Hx as [Hx Hf].
  destruct x; try discriminate. now apply in_split.
Qed.

(** A step that appends at most an event other than [EvFinalize] and
    [EvClose], keeps the closed channels, and moves to a point with the
    same requirement keeps the invariant. *)
Lemma fin_inv_other s p' c b q tr' :
  fin_inv s -> doneCh p' = doneCh (prog s) ->
  (tr' = trace s \/ exists e, tr' = trace s ++ [e] /\ is_fin e = false /\ is_close e = false) ->
  (pc_req (pc s) (count_if is_fin (trace s)) (closed s) ->
   pc_req q (count_if is_fin (trace s)) (closed s)) ->
  fin_inv (mkSt p' c b (closed s) q tr').
Proof.
  intros (H1 & H2 & H3) Hch Htr Hq. unfold fin_inv; simpl. rewrite Hch.
  destruct Htr as [->|(e & -> & Hf & Hc)]; [tauto|].
  rewrite !count_snoc, Hf, Hc, !Nat.add_0_r. split; [exact H1|split; [|auto]].
  destruct H2 as [H2|(H2 & H4 & t1 & t2 & t3 & E)]; [now left|right].
  split; [exact H2|split; [exact H4|]]. exists t1, t2, (t3 ++ [e]).
  rewrite E. list_assoc.
Qed.

Lemma do_report_cases v s :
  (exists rep', do_report v s =
     mkSt (set_reporter (snd (Progress.Report (prog s) (clock s))) rep') (clock s)
       (cancelled s) (closed s) GLoop
       (trace s ++ [EvReport (fst (Progress.Report (prog s) (clock s)))])) \/
  (exists rep', do_report v s =
     mkSt (set_reporter (snd (Progress.Report (prog s) (clock s))) rep') (clock s)
       (cancelled s) (closed s) (panic_pc v) (trace s)).
Proof.
  unfold do_report. destruct (Progress.Report (prog s) (clock s)) as [r p']. simpl.
  destruct (report (reporter p') r) as [rep' []]; [right | left]; eauto.
Qed.

Ltac fin_report_case :=
  match goal with
  | Hp : pc ?s = _, Kch : doneCh (prog (do_report ?v ?s)) = _ |- _ =>
      destruct (do_report_cases v s) as [[rep' E]|[rep' E]]; rewrite E in Kch |- *;
      apply (fin_inv_other s); auto; rewrite ?Hp; destruct v; simpl; try tauto;
      right; eexists; (split; [reflexivity|split; reflexivity])
  end.

Lemma fin_inv_step v s s' : fin_inv s -> step v s s' -> fin_inv s'.
Proof.
  intros Hi Hs. pose proof (step_keeps v s s' Hs) as (Kch & _).
  destruct Hs as [s Hp|s n|s d Hd|s Hc|s Hp|s Hp|s dl Hp Hc|s dl Hp Hl|s b Hp|s b Hp].
  - apply (fin_inv_other s); auto. rewrite Hp. simpl; tauto.
  - apply (fin_inv_other s); auto. right; eauto.
  - apply (fin_inv_other s); auto.
  - apply (fin_inv_other s); auto. right; eauto.
  - fin_report_case.
  - apply (fin_inv_other s); auto. rewrite Hp. simpl; tauto.
  - apply (fin_inv_other s); auto. rewrite Hp. destruct v; simpl; tauto.
  - fin_report_case.
  - destruct Hi as (H1 & H2 & H3). rewrite Hp in H3. destruct H3 as [H3 H4].
    unfold do_finalize, set_pc in *. destruct (finalize (reporter (prog s))) as [? []];
      unfold fin_inv; simpl; [tauto|].
    rewrite !count_snoc. simpl. rewrite H3, H4.
    destruct H2 as [[_ H2]|(H2 & _)]; [|rewrite H4 in H2; discriminate].
    rewrite Nat.add_0_r. repeat split; auto.
  - destruct Hi as (H1 & H2 & H3). rewrite Hp in H3. destruct H3 as [H3 H4].
    unfold do_close, set_pc in *. rewrite H4. simpl.
    destruct H2 as [[_ H2]|(H2 & _)]; [|rewrite H4 in H2; discriminate].
    destruct (count_one_split _ H3) as (t1 & t2 & E).
    unfold fin_inv; simpl. rewrite !count_snoc. simpl. rewrite H3, H2, Nat.add_0_r.
    split; [lia|split; [|now destruct b]]. right. split; [reflexivity|split; [reflexivity|]].
    exists t1, t2, []. rewrite E. list_assoc.
Qed.

(** ** Every report counts the [Add]s before it *)

Lemma Report_snd_keeps (p : Progress R) now :
  let p' := snd (Progress.Report p now) in
  total p' = total p /\ done p' = done p /\ reportTime p' = reportTime p /\
  doneCh p' = doneCh p.
Proof. unfold Progress.Report. destruct (total p =? 0); simpl; auto. Qed.

Lemma Report_fst_nonzero (p : Progress R) now :
  total p <> 0 ->
  ReportData.Done (fst (Progress.Report p now)) = done p /\
  Now (fst (Progress.Report p now)) = now.
Proof. intros H0. rewrite Report_nonzero by exact H0. now split. Qed.

Definition count_inv (s : St R) : Prop :=
  0 < total (prog s) /\
  done (prog s) = wrap64 (sum_list (adds (trace s))) /\
  (forall t1 r t2, trace s = t1 ++ EvReport r :: t2 ->
     ReportData.Done r = wrap64 (sum_list (adds t1))).

(** A step that keeps [total] and [done] and appends at most an event
    that is neither an [Add] nor a report keeps the count. *)
Lemma count_inv_other s p' c b cl q tr' :
  count_inv s -> total p' = total (prog s) -> done p' = done (prog s) ->
  (tr' = trace s \/ exists e, tr' = trace s ++ [e] /\ adds [e] = [] /\
                               forall r, e <> EvReport r) ->
  count_inv (mkSt p' c b cl q tr').
Proof.
  intros (H1 & H2 & H3) Ht Hd Htr. unfold count_inv; simpl. rewrite Ht, Hd.
  destruct Htr as [->|(e & -> & Ha & Hr)]; [tauto|].
  rewrite adds_app, Ha, app_nil_r. split; [exact H1|split; [exact H2|]].
  intros t1 r t2 E. destruct (snoc_split _ _ _ _ _ E) as [(_ & Ex & _)|(t2' & _ & E')].
  - exfalso. apply (Hr r). now symmetry.
  - exact (H3 t1 r t2' E').
Qed.

Lemma count_inv_report v s : count_inv s -> count_inv (do_report v s).
Proof.
  intros Hi. pose proof Hi as (H1 & H2 & H3).
  destruct (Report_snd_keeps (prog s) (clock s)) as (K1 & K2 & _).
  destruct (do_report_cases v s) as [[rep' ->]|[rep' ->]];
    [|apply (count_inv_other s); auto].
  unfold count_inv; simpl. rewrite K1, K2, adds_app, app_nil_r.
  split; [exact H1|split; [exact H2|]].
  intros t1 r t2 E. destruct (snoc_split _ _ _ _ _ E) as [(-> & Er & _)|(t2' & _ & E')].
  - injection Er as ->. rewrite (proj1 (Report_fst_nonzero (prog s) (clock s) ltac:(lia))). exact H2.
  - exact (H3 t1 r t2' E').
Qed.

Lemma count_inv_step v s s' : count_inv s -> step v s s' -> count_inv s'.
Proof.
  intros Hi Hs.
  destruct Hs as [s Hp|s n|s d Hd|s Hc|s Hp|s Hp|s dl Hp Hc|s dl Hp Hl|s b Hp|s b Hp];
    try (apply count_inv_report; exact Hi).
  - apply (count_inv_other s); auto.
  - destruct Hi as (H1 & H2 & H3). unfold count_inv; simpl.
    rewrite adds_app, sum_list_app. simpl. split; [exact H1|split].
    + unfold add64. rewrite H2, wrap64_add_l. f_equal. lia.
    + intros t1 r t2 E. destruct (snoc_split _ _ _ _ _ E) as [(_ & Er & _)|(t2' & _ & E')];
        [discriminate|exact (H3 t1 r t2' E')].
  - apply (count_inv_other s); auto.
  - apply (count_inv_other s); auto. right. exists EvCancel. repeat split. discriminate.
  - apply (count_inv_other s); auto.
  - apply (count_inv_other s); auto.
  - unfold do_finalize. destruct (finalize (reporter (prog s))) as [? []];
      apply (count_inv_other s); auto.
    right. exists EvFinalize. repeat split. discriminate.
  - unfold do_close. destruct (existsb _ _); apply (count_inv_other s); auto.
    right. exists EvClose. repeat split. discriminate.
Qed.

(** ** Reports are spaced by the report interval *)

Fixpoint last_opt (l : list Z) : option Z :=
  match l with
  | [] => None
  | [x] => Some x
  | _ :: l' => last_opt l'
  end.

Lemma last_opt_snoc l y : last_opt (l ++ [y]) = Some y.
Proof. induction l as [|x [|x' l] IH]; auto. Qed.

Lemma last_opt_In l x : last_opt l = Some x -> In x l.
Proof.
  induction l as [|y [|y' l] IH]; simpl; try discriminate.
  - intros [= ->]. now left.
  - intros H. right. now apply IH.
Qed.

Lemma spaced_snoc gap l y :
  spaced gap l -> (forall x, last_opt l = Some x -> x + gap <= y) -> spaced gap (l ++ [y]).
Proof.
  induction l as [|x l IH]; intros Hs H; [exact I|].
  destruct l as [|x' l].
  - simpl. split; [apply H; reflexivity | exact I].
  - simpl in Hs |- *. destruct Hs as [Hx Hs]. split; [exact Hx|].
    apply IH; [exact Hs|]. intros z Hz. apply H. exact Hz.
Qed.

Lemma mono_advance t d : mono (advance t d) = mono t + d.
Proof. unfold mono, advance. destruct (t_mono t); simpl; lia. Qed.

(** What each point of the goroutine knows of the last report: none
    before the first one, and a timer that fires [reportTime] after it. *)
Definition pc_time_req (q : PC) (times : list Z) (rt : Z) : Prop :=
  match q with
  | GIdle | GInit => times = []
  | GSelect dl => forall x, last_opt times = Some x -> x + rt <= dl
  | _ => True
  end.

Definition space_inv (s : St R) : Prop :=
  0 < total (prog s) /\
  spaced (reportTime (prog s)) (report_times (trace s)) /\
  Forall (fun x => x <= mono (clock s)) (report_times (trace s)) /\
  pc_time_req (pc s) (report_times (trace s)) (reportTime (prog s)).

Lemma space_inv_other s p' c b cl q tr' :
  space_inv s -> total p' = total (prog s) -> reportTime p' = reportTime (prog s) ->
  mono (clock s) <= mono c -> report_times tr' = report_times (trace s) ->
  (pc_time_req (pc s) (report_times (trace s)) (reportTime (prog s)) ->
   pc_time_req q (report_times (trace s)) (reportTime (prog s))) ->
  space_inv (mkSt p' c b cl q tr').
Proof.
  intros (H1 & H2 & H3 & H4) Ht Hr Hc Htr Hq. unfold space_inv; simpl.
  rewrite Ht, Hr, Htr. repeat split; auto.
  eapply Forall_impl; [|exact H3]. simpl. intros x Hx. lia.
Qed.

Lemma space_inv_report v s :
  space_inv s ->
  (pc s = GInit \/ exists dl, pc s = GSelect dl /\ dl <= mono (clock s)) ->
  space_inv (do_report v s).
Proof.
  intros Hi Hpc. pose proof Hi as (H1 & H2 & H3 & H4).
  destruct (Report_snd_keeps (prog s) (clock s)) as (K1 & _ & K3 & _).
  destruct (do_report_cases v s) as [[rep' ->]|[rep' ->]].
  - unfold space_inv; simpl. rewrite K1, K3, report_times_app. simpl.
    rewrite (proj2 (Report_fst_nonzero (prog s) (clock s) ltac:(lia))).
    split; [exact H1|split; [|split; [|exact I]]].
    + apply spaced_snoc; [exact H2|]. intros x Hx.
      destruct Hpc as [Hp|(dl & Hp & Hl)]; rewrite Hp in H4; simpl in H4.
      * rewrite H4 in Hx. discriminate.
      * specialize (H4 x Hx). lia.
    + apply Forall_app. split; [exact H3|]. constructor; [lia|constructor].
  - apply (space_inv_other s); auto; try lia.
    destruct v; simpl; auto.
Qed.

Lemma space_inv_step v s s' : space_inv s -> step v s s' -> space_inv s'.
Proof.
  intros Hi Hs.
  destruct Hs as [s Hp|s n|s d Hd|s Hc|s Hp|s Hp|s dl Hp Hc|s dl Hp Hl|s b Hp|s b Hp].
  - apply (space_inv_other s); auto; try lia. now rewrite Hp.
  - apply (space_inv_other s); auto; try lia. now rewrite report_times_app, app_nil_r.
  - apply (space_inv_other s); auto. rewrite mono_advance. lia.
  - apply (space_inv_other s); auto; try lia. now rewrite report_times_app, app_nil_r.
  - apply space_inv_report; auto.
  - pose proof Hi as (_ & _ & H3 & _). apply (space_inv_other s); auto; try lia.
    intros _. simpl. intros x Hx. apply last_opt_In in Hx.
    rewrite Forall_forall in H3. specialize (H3 x Hx). lia.
  - apply (space_inv_other s); auto; try lia. destruct v; simpl; auto.
  - apply space_inv_report; eauto.
  - unfold do_finalize. destruct (finalize (reporter (prog s))) as [? []];
      apply (space_inv_other s); auto; try lia; rewrite ?report_times_app, ?app_nil_r;
      auto; rewrite Hp; simpl; auto.
  - unfold do_close. destruct (existsb _ _);
      apply (space_inv_other s); auto; try lia; rewrite ?report_times_app, ?app_nil_r;
      auto; rewrite Hp; simpl; auto; destruct b; simpl; auto.
Qed.

Lemma star_keeps v s s' :
  star v s s' ->
  doneCh (prog s') = doneCh (prog s) /\ total (prog s') = total (prog s) /\
  reportTime (prog s') = reportTime (prog s).
Proof.
  induction 1 as [|s1 s2 s3 Hs _ IH]; [auto|].
  destruct (step_keeps v s1 s2 Hs) as (A & B & C). destruct IH as (A' & B' & C').
  repeat split; congruence.
Qed.

Lemma init_fin_inv (p : Progress R) now : fin_inv (init p now).
Proof. unfold fin_inv; simpl. repeat split; auto. Qed.

(** ** The theorems *)

Lemma star_trans v s1 s2 s3 : star v s1 s2 -> star v s2 s3 -> star v s1 s3.
Proof. induction 1; eauto using star. Qed.

Lemma closed_after_finalize v (p : Progress R) now s :
  star v (init p now) s -> In (doneCh p) (closed s) ->
  count_if is_fin (trace s) = 1%nat /\
  exists t1 t2 t3, trace s = t1 ++ EvFinalize :: t2 ++ EvClose :: t3.
Proof.
  intros Hs Hin. destruct (star_keeps v _ _ Hs) as (Kch & _).
  destruct (star_inv v fin_inv (fin_inv_step v) _ _ Hs (init_fin_inv p now))
    as (H1 & H2 & _).
  simpl in Kch. destruct H2 as [(H2 & _)|(_ & _ & t1 & t2 & t3 & E)];
    [rewrite H2 in Hin; destruct Hin|].
  split; [|eauto]. rewrite E, count_if_app in *.
  change (count_if is_fin (EvFinalize :: t2 ++ EvClose :: t3))
    with (S (count_if is_fin (t2 ++ EvClose :: t3))) in *. lia.
Qed.

(** C2: [Done()] is closed only after [Finalize] has run, exactly once:
    whoever waits on [<-p.Done()] sees the final flush. *)
Theorem Done_after_Finalize v (p : Progress R) now s :
  star v (init p now) s -> In (doneCh p) (closed s) ->
  count_if is_fin (trace s) = 1%nat /\
  exists t1 t2 t3, trace s = t1 ++ EvFinalize :: t2 ++ EvClose :: t3.
Proof. apply closed_after_finalize. Qed.

(** C4: No update is lost: whatever the interleaving of the producers'
    [Add]s with the goroutine, every report counts exactly the [Add]s
    made before it, and the counter is their wrapped sum. *)
Theorem reports_count_adds v (p : Progress R) now s :
  0 < total p -> done p = 0 -> star v (init p now) s ->
  done (prog s) = wrap64 (sum_list (adds (trace s))) /\
  (forall t1 r t2, trace s = t1 ++ EvReport r :: t2 ->
     ReportData.Done r = wrap64 (sum_list (adds t1))).
Proof.
  intros Ht Hd Hs.
  assert (I0 : count_inv (init p now)).
  { unfold count_inv; simpl. split; [exact Ht|split; [now rewrite Hd|]].
    intros [|] r t2 E; discriminate. }
  destruct (star_inv v count_inv (count_inv_step v) _ _ Hs I0) as (_ & H2 & H3).
  split; assumption.
Qed.

(** C6: Reports come in time order, each at least [reportTime] after the
    previous one (each [time.After] starts when the loop re-enters the
    [select]). *)
Theorem reports_spaced v (p : Progress R) now s :
  0 < total p -> star v (init p now) s ->
  spaced (reportTime p) (report_times (trace s)).
Proof.
  intros Ht Hs. destruct (star_keeps v _ _ Hs) as (_ & _ & Kr).
  assert (I0 : space_inv (init p now)) by (unfold space_inv; simpl; auto).
  destruct (star_inv v space_inv (space_inv_step v) _ _ Hs I0) as (_ & H2 & _).
  simpl in Kr. now rewrite <- Kr.
Qed.

Definition legacy_inv (s : St R) : Prop :=
  (forall b, pc s <> GFinalize b /\ pc s <> GClose b) /\
  count_if is_fin (trace s) = 0%nat /\ closed s = [].

Lemma legacy_other s p' c b q tr' :
  legacy_inv s -> (forall b, q <> GFinalize b /\ q <> GClose b) ->
  (tr' = trace s \/ exists e, tr' = trace s ++ [e] /\ is_fin e = false) ->
  legacy_inv (mkSt p' c b (closed s) q tr').
Proof.
  intros (H1 & H2 & H3) Hq Htr. unfold legacy_inv; simpl.
  destruct Htr as [->|(e & -> & He)]; [tauto|].
  rewrite count_snoc, He, H2. tauto.
Qed.

Lemma legacy_inv_step s s' : legacy_inv s -> step Legacy s s' -> legacy_inv s'.
Proof.
  intros Hi Hs. pose proof Hi as (H1 & _).
  destruct Hs as [s Hp|s n|s d Hd|s Hc|s Hp|s Hp|s dl Hp Hc|s dl Hp Hl|s b Hp|s b Hp].
  - apply (legacy_other s); auto. intros b'; split; discriminate.
  - apply (legacy_other s); auto. right; eauto.
  - apply (legacy_other s); auto.
  - apply (legacy_other s); auto. right; eauto.
  - destruct (do_report_cases Legacy s) as [[rep' ->]|[rep' ->]];
      apply (legacy_other s); auto; try (intros b'; split; discriminate). right; eauto.
  - apply (legacy_other s); auto. intros b'; split; discriminate.
  - apply (legacy_other s); auto. intros b'; split; discriminate.
  - destruct (do_report_cases Legacy s) as [[rep' ->]|[rep' ->]];
      apply (legacy_other s); auto; try (intros b'; split; discriminate). right; eauto.
  - destruct (H1 b) as [A _]. contradiction.
  - destruct (H1 b) as [_ A]. contradiction.
Qed.

(** C8: The old [Start] of src/gopv.go returns on cancellation without
    calling [Finalize], and closes no channel. *)
Theorem legacy_never_finalizes (p : Progress R) now s :
  star Legacy (init p now) s -> count_if is_fin (trace s) = 0%nat /\ closed s = [].
Proof.
  intros Hs.
  assert (I0 : legacy_inv (init p now))
    by (unfold legacy_inv; simpl; repeat split; auto; discriminate).
  destruct (star_inv Legacy legacy_inv legacy_inv_step _ _ Hs I0) as (_ & H2 & H3).
  split; assumption.
Qed.

(** ** No report after [Finalize] *)

(** No [EvReport] follows an [EvFinalize] in the trace [tr]. *)
Definition no_report_after (tr : list Event) : Prop :=
  forall t1 t2 r, tr = t1 ++ EvFinalize :: t2 -> ~ In (EvReport r) t2.

Lemma count_fin_zero l : count_if is_fin l = 0%nat -> ~ In EvFinalize l.
Proof.
  intros H Hin. assert (Hf : In EvFinalize (filter is_fin l)) by (apply filter_In; auto).
  unfold count_if in H. destruct (filter is_fin l); [destruct Hf|discriminate].
Qed.

Lemma no_report_after_snoc tr e :
  no_report_after tr -> ((exists r, e = EvReport r) -> ~ In EvFinalize tr) ->
  no_report_after (tr ++ [e]).
Proof.
  intros H He t1 t2 q E Hin.
  destruct (snoc_split _ _ _ _ _ E) as [(_ & _ & ->)|(t2' & -> & E')]; [destruct Hin|].
  apply in_app_or in Hin as [Hin|[Hr|[]]]; [exact (H t1 t2' q E' Hin)|].
  apply He; [eauto|]. rewrite E'. apply in_or_app. right. now left.
Qed.

(** A report comes from [GInit] or [GSelect], where [Finalize] has not run. *)
Lemma report_point_fresh s :
  fin_inv s -> (pc s = GInit \/ exists dl, pc s = GSelect dl) -> ~ In EvFinalize (trace s).
Proof.
  intros (_ & _ & F) Hp. apply count_fin_zero.
  destruct Hp as [Hp|[dl Hp]]; rewrite Hp in F; exact (proj1 F).
Qed.

Lemma no_report_after_step v s s' :
  fin_inv s -> no_report_after (trace s) -> step v s s' -> no_report_after (trace s').
Proof.
  intros F H. destruct 1 as [s Hp|s n|s d Hd|s Hc|s Hp|s Hp|s dl Hp Hc|s dl Hp Hl|s b Hp|s b Hp];
    try exact H; try (apply no_report_after_snoc; [exact H|intros [q E]; discriminate]).
  1,2: destruct (do_report_cases v s) as [[rep' ->]|[rep' ->]]; [|exact H];
       apply no_report_after_snoc; [exact H|intros _; apply report_point_fresh; eauto].
  - unfold do_finalize. destruct (finalize (reporter (prog s))) as [? []]; [exact H|].
    apply no_report_after_snoc; [exact H|intros [q E]; discriminate].
  - unfold do_close, set_pc. destruct (existsb _ _); [exact H|].
    apply no_report_after_snoc; [exact H|intros [q E]; discriminate].
Qed.

(** C3: [Finalize] is the reporter's last call: in every reachable state,
    of either version, no [Report] of the goroutine comes after its
    [Finalize] (the deferred function runs once the loop is left for
    good, and a panic in [Report] leads to it directly). *)
Theorem no_report_after_Finalize v (p : Progress R) now s :
  star v (init p now) s -> no_report_after (trace s).
Proof.
  intros Hs.
  assert (I : fin_inv s /\ no_report_after (trace s)).
  { refine (star_inv v (fun x => fin_inv x /\ no_report_after (trace x)) _ _ _ Hs _).
    - intros s1 s2 [F N] St. split; [exact (fin_inv_step _ _ _ F St)|exact (no_report_after_step _ _ _ F N St)].
    - split; [apply init_fin_inv|intros [|] t2 q E; discriminate]. }
  exact (proj2 I).
Qed.

End Invariants.

(** ** After cancellation the goroutine completes

    For a reporter whose methods do not panic, a started goroutine whose
    cancellation channel has fired reaches [close(doneCh)] by its own
    steps: no timer has to fire and no time has to pass. *)
Section Liveness.
Context {R : Type} {RR : Reporter R}.
Hypothesis report_ok : forall x r, snd (report x r) = false.
Hypothesis finalize_ok : forall x, snd (finalize x) = false.

Definition np_inv (s : St R) : Prop :=
  pc s <> GCrashed /\ pc s <> GFinalize true /\ pc s <> GClose true /\
  (pc s = GExited -> In (doneCh (prog s)) (closed s)).

Lemma report_some (s : St R) :
  exists rep', report (reporter (snd (Progress.Report (prog s) (clock s))))
                 (fst (Progress.Report (prog s) (clock s))) = (rep', false).
Proof.
  pose proof (report_ok (reporter (snd (Progress.Report (prog s) (clock s))))
                (fst (Progress.Report (prog s) (clock s)))) as H.
  destruct (report _ _) as [rep' b]. simpl in H. subst b. eauto.
Qed.

Lemma do_report_ok v (s : St R) :
  exists rep', do_report v s =
    mkSt (set_reporter (snd (Progress.Report (prog s) (clock s))) rep') (clock s)
      (cancelled s) (closed s) GLoop
      (trace s ++ [EvReport (fst (Progress.Report (prog s) (clock s)))]).
Proof.
  destruct (report_some s) as [rep' E]. exists rep'. unfold do_report.
  destruct (Progress.Report (prog s) (clock s)) as [r p']. simpl in *. now rewrite E.
Qed.

Lemma finalize_some (s : St R) b :
  exists rep', do_finalize s b =
    mkSt (set_reporter (prog s) rep') (clock s) (cancelled s) (closed s) (GClose b)
      (trace s ++ [EvFinalize]).
Proof.
  unfold do_finalize. pose proof (finalize_ok (reporter (prog s))) as H.
  destruct (finalize (reporter (prog s))) as [rep' b']. simpl in H. subst b'. eauto.
Qed.

Lemma np_inv_step s s' : fin_inv s -> np_inv s -> step Current s s' -> np_inv s'.
Proof.
  intros (_ & _ & F) (N1 & N2 & N3 & N4) Hs.
  pose proof (step_keeps Current s s' Hs) as (Kch & _).
  destruct Hs as [s Hp|s n|s d Hd|s Hc|s Hp|s Hp|s dl Hp Hc|s dl Hp Hl|s b Hp|s b Hp];
    try (destruct (do_report_ok Current s) as [rep' ->]);
    try (destruct (finalize_some s b) as [rep' ->]);
    try (unfold np_inv; simpl; repeat split; auto; congruence).
  rewrite Hp in F. destruct F as [_ F]. assert (b = false) by (destruct b; congruence).
  subst b. unfold do_close, np_inv. rewrite F. simpl. repeat split; try congruence.
  intros _. now left.
Qed.

(** From any point of the goroutine, cancelled, the rest of the run. *)
(** The goroutine's steps from [pc s], quietly. *)
Ltac quiet_tac Hp :=
  split; [|split; [rewrite Hp; discriminate|split; [cbn [trace]; rewrite ?adds_app; simpl;
                                                    rewrite ?app_nil_r; reflexivity|reflexivity]]].

Lemma run_from_close s :
  pc s = GClose false -> closed s = [] ->
  exists s', qstar Current s s' /\ pc s' = GExited /\ In (doneCh (prog s)) (closed s') /\
             clock s' = clock s.
Proof.
  intros Hp Hc. exists (do_close s false). split.
  - pose proof (step_close Current s false Hp) as St. unfold do_close in *. rewrite Hc in *. simpl in St |- *.
    eapply qstar_step; [|apply qstar_refl]. quiet_tac Hp. exact St.
  - unfold do_close. rewrite Hc. simpl. repeat split; auto.
Qed.

Lemma run_from_finalize s :
  pc s = GFinalize false -> closed s = [] ->
  exists s', qstar Current s s' /\ pc s' = GExited /\ In (doneCh (prog s)) (closed s') /\
             clock s' = clock s.
Proof.
  intros Hp Hc. destruct (finalize_some s false) as [rep' E].
  destruct (run_from_close (do_finalize s false)) as (s' & S1 & P1 & I1 & C1);
    rewrite ?E; auto.
  exists s'. rewrite E in I1, C1, S1. split; [|auto].
  eapply qstar_step; [|exact S1]. quiet_tac Hp. rewrite <- E. apply step_finalize; exact Hp.
Qed.

Lemma run_from_select s dl :
  pc s = GSelect dl -> cancelled s = true -> closed s = [] ->
  exists s', qstar Current s s' /\ pc s' = GExited /\ In (doneCh (prog s)) (closed s') /\
             clock s' = clock s.
Proof.
  intros Hp Hc Hcl.
  destruct (run_from_finalize (set_pc s (exit_pc Current))) as (s' & S1 & R1);
    [reflexivity|exact Hcl|].
  exists s'. split; [|exact R1]. eapply qstar_step; [|exact S1]. quiet_tac Hp. eapply step_done; eauto.
Qed.

Lemma run_from_loop s :
  pc s = GLoop -> cancelled s = true -> closed s = [] ->
  exists s', qstar Current s s' /\ pc s' = GExited /\ In (doneCh (prog s)) (closed s') /\
             clock s' = clock s.
Proof.
  intros Hp Hc Hcl.
  destruct (run_from_select (set_pc s (GSelect (mono (clock s) + reportTime (prog s))))
              (mono (clock s) + reportTime (prog s))) as (s' & S1 & R1); auto.
  exists s'. split; [|exact R1]. eapply qstar_step; [|exact S1]. quiet_tac Hp. eapply step_enter; eauto.
Qed.

Lemma run_from_init s :
  pc s = GInit -> cancelled s = true -> closed s = [] ->
  exists s', qstar Current s s' /\ pc s' = GExited /\ In (doneCh (prog s)) (closed s') /\
             clock s' = clock s.
Proof.
  intros Hp Hc Hcl. destruct (do_report_ok Current s) as [rep' E].
  destruct (run_from_loop (do_report Current s)) as (s' & S1 & P1 & I1 & C1);
    rewrite ?E; auto.
  exists s'. rewrite E in I1, C1, S1. simpl in I1.
  destruct (Report_snd_keeps (prog s) (clock s)) as (_ & _ & _ & K). rewrite K in I1.
  split; [eapply qstar_step; [|exact S1]|auto].
  quiet_tac Hp. rewrite <- E. apply step_first; exact Hp.
Qed.

(** Cancelling a started tracker lets its goroutine run to the end on its
    own: the steps to [close(doneCh)] are the goroutine's (no [Add], no
    further cancellation), and no time passes. *)
Lemma cancel_completes_quietly (p : Progress R) now s :
  star Current (init p now) s -> cancelled s = true -> pc s <> GIdle ->
  exists s', qstar Current s s' /\ pc s' = GExited /\ In (doneCh p) (closed s') /\
             clock s' = clock s /\ count_if is_fin (trace s') = 1%nat.
Proof.
  intros Hs Hc Hidle.
  assert (I : fin_inv s /\ np_inv s).
  { apply (star_inv Current (fun s => fin_inv s /\ np_inv s)) with (s := init p now);
      [|exact Hs|split; [apply init_fin_inv|unfold np_inv; simpl; repeat split; discriminate]].
    intros s1 s2 [F N] St. split; [exact (fin_inv_step _ _ _ F St)|exact (np_inv_step _ _ F N St)]. }
  destruct I as [(_ & _ & F) (N1 & N2 & N3 & N4)].
  destruct (star_keeps Current _ _ Hs) as (Kch & _). simpl in Kch.
  assert (E : exists s', qstar Current s s' /\ pc s' = GExited /\
                         In (doneCh (prog s)) (closed s') /\ clock s' = clock s).
  { destruct (pc s) as [| | |dl|[]|[]| |] eqn:Hp; simpl in F; try congruence;
      try (destruct F as [_ F]).
    - now apply run_from_init.
    - now apply run_from_loop.
    - now apply (run_from_select s dl).
    - now apply run_from_finalize.
    - now apply run_from_close.
    - exists s. split; [apply qstar_refl|auto]. }
  destruct E as (s' & S1 & P1 & I1 & C1). rewrite Kch in I1.
  exists s'. repeat split; auto.
  apply (closed_after_finalize Current p now s'); [|exact I1].
  exact (star_trans _ _ _ _ Hs (qstar_star _ _ _ S1)).
Qed.

(** C5: Cancelling a started tracker lets its goroutine run to
    [close(doneCh)] (the [<-p.Done()] of the caller returns), with
    [Finalize] called once, without waiting for any timer. *)
Theorem cancel_completes (p : Progress R) now s :
  star Current (init p now) s -> cancelled s = true -> pc s <> GIdle ->
  exists s', star Current s s' /\ pc s' = GExited /\ In (doneCh p) (closed s') /\
             clock s' = clock s /\ count_if is_fin (trace s') = 1%nat.
Proof.
  intros Hs Hc Hidle.
  destruct (cancel_completes_quietly p now s Hs Hc Hidle) as (s' & S & H).
  exists s'. split; [exact (qstar_star _ _ _ S)|exact H].
Qed.

(** From the top of the loop, not yet cancelled: [time.After] is armed,
    [cancel()] comes, the timer fires as well, and [select] takes the
    timer's case. *)
Lemma report_after_cancel_from s :
  pc s = GLoop -> cancelled s = false ->
  exists s' r, star Current s s' /\ pc s' = GLoop /\ cancelled s' = true /\
    trace s' = trace s ++ [EvCancel; EvReport r].
Proof.
  intros Hp Hc.
  set (dl := mono (clock s) + reportTime (prog s)).
  set (d := Z.max 1 (reportTime (prog s))).
  set (s4 := mkSt (prog s) (advance (clock s) d) true (closed s) (GSelect dl) (trace s ++ [EvCancel])).
  destruct (do_report_ok Current s4) as [x E].
  do 2 eexists. split.
  - eapply star_step; [apply step_enter, Hp|].
    eapply star_step; [apply step_cancel; exact Hc|].
    eapply star_step; [apply (step_tick _ _ d); unfold d; lia|].
    eapply star_step; [apply (step_timer _ s4 dl); [reflexivity|]|rewrite E; apply star_refl].
    unfold s4, dl, d. cbn [clock]. rewrite mono_advance. lia.
  - cbn [pc cancelled trace]. split; [reflexivity|split; [reflexivity|]].
    cbn [s4 trace]. rewrite <- app_assoc. reflexivity.
Qed.

(** C7: Cancellation does not stop reporting: for every counter, every
    start time and every reporter that does not panic, some schedule has
    the goroutine report after [cancel()], because Go's [select] picks
    either of two ready cases; the goroutine is then back in its loop. *)
Theorem report_after_cancel (p : Progress R) now :
  exists s r1 r2, star Current (init p now) s /\ pc s = GLoop /\ cancelled s = true /\
    trace s = [EvReport r1; EvCancel; EvReport r2].
Proof.
  set (s1 := mkSt (start_times p now) now false [] GInit []).
  destruct (do_report_ok Current s1) as [x E].
  destruct (report_after_cancel_from (do_report Current s1)) as (s & r2 & S & P & C & T);
    [rewrite E; reflexivity|rewrite E; reflexivity|].
  exists s, (fst (Progress.Report (prog s1) (clock s1))), r2. split.
  - eapply star_step; [apply step_start; reflexivity|].
    eapply star_step; [apply (step_first _ s1); reflexivity|exact S].
  - split; [exact P|split; [exact C|rewrite T, E; reflexivity]].
Qed.

End Liveness.

(** ** Scenarios

    A reporter that counts its calls, as the spec's test does: the pair
    (reports, finalizes). *)
#[export] Instance counting_reporter : Reporter (nat * nat) := {|
  report := fun '(a, b) _ => ((S a, b), false);
  finalize := fun '(a, b) => ((a, S b), false)
|}.

Lemma counting_report_ok : forall (x : nat * nat) r, snd (report x r) = false.
Proof. intros [a b] r. reflexivity. Qed.

Lemma counting_finalize_ok : forall (x : nat * nat), snd (finalize x) = false.
Proof. intros [a b]. reflexivity. Qed.

Definition p0 : Progress (nat * nat) :=
  mkProgress 10 0 zero_Time DefaultReportTime 0 zero_Time (0%nat, 0%nat) 0%nat.
Definition t0 : Time := mkTime 0 (Some 0).

Ltac run_step t := eapply star_step; [t|].
Ltac run_start := run_step ltac:(apply step_start; reflexivity).
Ltac run_cancel := run_step ltac:(apply step_cancel; reflexivity).
Ltac run_first := run_step ltac:(apply step_first; reflexivity).
Ltac run_enter := run_step ltac:(apply step_enter; reflexivity).
Ltac run_done := run_step ltac:(eapply step_done; reflexivity).
Ltac run_timer := run_step ltac:(eapply step_timer; [reflexivity|vm_compute; discriminate]).
Ltac run_tick d := run_step ltac:(apply (step_tick _ _ d); reflexivity).
Ltac run_add n := run_step ltac:(apply (step_add _ _ n)).
Ltac run_finalize := run_step ltac:(eapply step_finalize; reflexivity).
Ltac run_close := run_step ltac:(eapply step_close; reflexivity).

(** ** Witnesses: the theorems on concrete runs *)

(** Start, cancel at once, run to the end. *)
Ltac run_early_cancel :=
  run_start; run_cancel; run_first; run_enter; run_done; run_finalize; run_close;
  apply star_refl.

(** Start, [Add(5)], first report, [Add(3)], one interval, second report. *)
Ltac run_two_reports :=
  run_start; run_add 5; run_first; run_add 3; run_enter; run_tick Second; run_timer;
  apply star_refl.

Lemma report_after_cancel_witness :
  exists s r1 r2, star Current (init p0 t0) s /\ pc s = GLoop /\ cancelled s = true /\
    trace s = [EvReport r1; EvCancel; EvReport r2].
Proof. exact (report_after_cancel counting_report_ok p0 t0). Defined.

Lemma no_report_after_Finalize_witness :
  exists s, star Current (init p0 t0) s /\ count_if is_fin (trace s) = 1%nat /\ no_report_after (trace s).
Proof.
  eexists. split; [run_early_cancel|]. split; [reflexivity|].
  apply (no_report_after_Finalize Current p0 t0). run_early_cancel.
Defined.

Lemma Done_after_Finalize_witness :
  exists s, star Current (init p0 t0) s /\ In (doneCh p0) (closed s) /\
            count_if is_fin (trace s) = 1%nat.
Proof.
  eexists. split; [run_early_cancel|]. split; [simpl; now left|].
  apply (Done_after_Finalize Current p0 t0); [run_early_cancel|simpl; now left].
Defined.

Lemma reports_count_adds_witness :
  exists s, star Current (init p0 t0) s /\ done (prog s) = 8.
Proof.
  eexists. split; [run_two_reports|].
  rewrite (proj1 (reports_count_adds Current p0 t0 _ eq_refl eq_refl ltac:(run_two_reports))).
  reflexivity.
Defined.

Lemma reports_spaced_witness :
  exists s, star Current (init p0 t0) s /\ report_times (trace s) = [0; Second] /\
            spaced Second (report_times (trace s)).
Proof.
  eexists. split; [run_two_reports|]. split; [reflexivity|].
  apply (reports_spaced Current p0 t0); [reflexivity|run_two_reports].
Defined.

Lemma legacy_never_finalizes_witness :
  exists s, star Legacy (init p0 t0) s /\ pc s = GExited /\ count_if is_fin (trace s) = 0%nat.
Proof.
  eexists. split; [run_start; run_cancel; run_first; run_enter; run_done; apply star_refl|].
  split; [reflexivity|].
  apply (proj1 (legacy_never_finalizes p0 t0 _
           ltac:(run_start; run_cancel; run_first; run_enter; run_done; apply star_refl))).
Defined.

Lemma cancel_completes_witness :
  exists s', star Current (mkSt (start_times p0 t0) t0 true [] GInit [EvCancel]) s' /\
             pc s' = GExited /\ count_if is_fin (trace s') = 1%nat.
Proof.
  destruct (cancel_completes counting_report_ok counting_finalize_ok p0 t0 (mkSt (start_times p0 t0) t0 true [] GInit [EvCancel])
              ltac:(run_start; run_cancel; apply star_refl) eq_refl ltac:(discriminate))
    as (s' & S & P & _ & _ & C).
  exists s'. auto.
Defined.

End Scheduler.
