(* ===== verification/Examples.v ===== *)
(** * Examples: the example programs as clients of the tracker

    The programs of src/examples/01-simple/main.go, src/unnamed/part_000
    (three [main]s and the [task] of the second) and the README's two
    snippets (src/unnamed/part_001) create a tracker, start
    its goroutine, then run a loop of [<-time.After(100ms)] and [Add(1)],
    and [cancel()]; [task] then waits on [<-pv.Done()].  Each program is a
    [Program]: how it makes its tracker, which goroutine it starts (the
    first program calls the old [pg.Start]), and the [Action]s of its main
    goroutine that touch the tracker; [runs] executes them in order, each as the step of
    [Scheduler.step] it is, with the reporting goroutine running (and time
    passing) in between ([qstar]: no other producer, no other canceller).

    Theorems: in every example program (the README's usage and custom
    legend among them), at every point of the run and under any
    interleaving, the counter holds the number of iterations done, and
    every snapshot has [Left] in [0..total], [PercentInt] in [0..100] and
    a progress bar that renders; [task] returns, for any reporter that
    does not panic, and when it returns [Finalize] has run exactly once. *)

From Stdlib Require Import String ZArith List Bool Lia Floats.
From S2P Require Import Prelude GoRuntime ReportData TextReporter ProgressBar Progress GoFmt Output Render Scheduler.
Import ListNotations.

Local Open Scope Z_scope.

Module Examples.
Import TextReporter Progress Scheduler.

(** The statements of a main goroutine that touch the tracker. *)
Inductive Action :=
| AStart            (* gopv.StartCtx(pv, ctx), gopv.StartChan(pv, ctx.Done()), pg.Start(ctx) *)
| ASleep (d : Z)    (* <-time.After(d) *)
| AAdd (n : Z)      (* pv.Add(n) *)
| ACancel           (* cancel() *)
| AWaitDone.        (* <-pv.Done() *)

(** [for i := 0; i < total; i++ { <-time.After(time.Millisecond * 100); pv.Add(1) }]. *)
Definition work_loop (total : nat) : list Action :=
  concat (repeat [ASleep (Millisecond * 100); AAdd 1] total).

(** An example program: how it makes its tracker ([gopv.New(total)], or
    [gopv.NewTextWithLegend(total, legend)]), which goroutine its start
    launches ([StartCtx]/[StartChan], or the old [pg.Start]), and the
    statements of its main goroutine. *)
Record Program := mkProgram {
  p_total : Z;
  p_legend : option string;
  p_version : Version;
  p_body : list Action
}.

(** The tracker the program makes, on the channel [make] returns. *)
Definition tracker (pr : Program) (ch : ChanHandle) : option (Progress TextReporter) :=
  match p_legend pr with
  | None => Progress.New (p_total pr) ch
  | Some l => Progress.NewTextWithLegend (p_total pr) l ch
  end.

(** [main] of src/examples/01-simple/main.go: [gopv.New(360)],
    [gopv.StartCtx(pv, ctx)], the loop, [cancel()]. *)
Definition main_simple : Program :=
  mkProgram 360 None Current (AStart :: work_loop 360 ++ [ACancel]).

(** The first program of part_000: the progress-bar legend and the old
    [pg.Start(ctx)]. *)
Definition main_legacy_start : Program :=
  mkProgram 360 (Some TextReporterLegendProgressBar) Legacy (AStart :: work_loop 360 ++ [ACancel]).

(** [func task()] of the second program of part_000: 50 items with the
    progress-bar legend, [gopv.StartChan(pv, ctx.Done())], then
    [cancel()] and [<-pv.Done()]. *)
Definition task : Program :=
  mkProgram 50 (Some TextReporterLegendProgressBar) Current
    (AStart :: work_loop 50 ++ [ACancel; AWaitDone]).


(** The values [pv.Add] is called with, in order. *)
Definition script_adds (l : list Action) : list Z :=
  flat_map (fun a => match a with AAdd n => [n] | _ => [] end) l.

(** The README's usage (src/unnamed/part_001 lines 12-22): [gopv.New(total)],
    the start, and the loop of [Add(1)]; its output line (line 30) shows a
    total of 360. *)
Definition readme_usage : Program := mkProgram 360 None Current (AStart :: work_loop 360).

(** The README's custom legend (line 35). *)
Definition readme_legend : string := "{progress_bar} {now} {percent_int} {rps_avg} "%string.

(** [gopv.NewTextWithLegend(498, readme_legend)] (lines 33-36), used the
    same way. *)
Definition readme_custom : Program := mkProgram 498 (Some readme_legend) Current (AStart :: work_loop 498).

(** The third program of part_000: the progress-bar legend, [StartChan]. *)
Definition main_progress_bar : Program :=
  mkProgram 360 (Some TextReporterLegendProgressBar) Current (AStart :: work_loop 360 ++ [ACancel]).

Definition example_programs : list Program :=
  [main_simple; main_legacy_start; task; main_progress_bar; readme_usage; readme_custom].

Section Client.
Context {R : Type} {RR : Reporter R}.

(** One statement of the main goroutine, as the step of the machine it is. *)
Inductive act (v : Version) : Action -> St R -> St R -> Prop :=
| act_start s :
    pc s = GIdle ->
    act v AStart s (mkSt (start_times (prog s) (clock s)) (clock s) (cancelled s) (closed s)
                      GInit (trace s))
| act_sleep s d :
    0 < d ->
    act v (ASleep d) s (mkSt (prog s) (advance (clock s) d) (cancelled s) (closed s) (pc s) (trace s))
| act_add s n :
    act v (AAdd n) s (mkSt (Add (prog s) n) (clock s) (cancelled s) (closed s) (pc s)
                        (trace s ++ [EvAdd n]))
| act_cancel s :
    cancelled s = false ->
    act v ACancel s (mkSt (prog s) (clock s) true (closed s) (pc s) (trace s ++ [EvCancel]))
| act_wait s :
    In (doneCh (prog s)) (closed s) -> act v AWaitDone s s.

(** A program's statements in order, the reporting goroutine running in
    between. *)
Inductive runs (v : Version) : list Action -> St R -> St R -> Prop :=
| runs_nil s s' : qstar v s s' -> runs v [] s s'
| runs_cons a l s s1 s2 s3 :
    qstar v s s1 -> act v a s1 s2 -> runs v l s2 s3 -> runs v (a :: l) s s3.

(** ** What a run does *)

Lemma act_star v a s s' : act v a s s' -> star v s s'.
Proof.
  destruct 1 as [s Hp|s d Hd|s n|s Hc|s Hin]; try apply star_refl;
    (eapply star_step; [|apply star_refl]); constructor; assumption.
Qed.

Lemma runs_star v l s s' : runs v l s s' -> star v s s'.
Proof.
  induction 1 as [s s' Q|a l s s1 s2 s3 Q A _ IH]; [exact (qstar_star _ _ _ Q)|].
  eapply star_trans; [exact (qstar_star _ _ _ Q)|].
  eapply star_trans; [exact (act_star _ _ _ _ A)|exact IH].
Qed.

Lemma qstar_adds v s s' : qstar v s s' -> adds (trace s') = adds (trace s) /\ cancelled s' = cancelled s.
Proof. induction 1 as [|s1 s2 s3 (_ & _ & A & C) _ [IH1 IH2]]; [auto|]. split; congruence. Qed.

Lemma act_adds v a s s' : act v a s s' -> adds (trace s') = adds (trace s) ++ script_adds [a].
Proof. destruct 1; simpl; rewrite ?adds_app; simpl; rewrite ?app_nil_r; reflexivity. Qed.

(** The [Add]s recorded by a run are the program's, in order. *)
Lemma runs_adds v l s s' : runs v l s s' -> adds (trace s') = adds (trace s) ++ script_adds l.
Proof.
  induction 1 as [s s' Q|a l s s1 s2 s3 Q A _ IH].
  - rewrite (proj1 (qstar_adds _ _ _ Q)), app_nil_r. reflexivity.
  - rewrite IH, (act_adds _ _ _ _ A), (proj1 (qstar_adds _ _ _ Q)), <- app_assoc.
    simpl. rewrite app_nil_r. reflexivity.
Qed.

(** Once cancelled, always cancelled; once started, never idle again. *)
Lemma step_mono v s s' :
  step v s s' -> (cancelled s = true -> cancelled s' = true) /\ (pc s <> GIdle -> pc s' <> GIdle).
Proof.
  destruct 1; unfold do_report, do_finalize, do_close, set_pc; simpl; split; auto; try congruence;
    repeat match goal with
           | |- context [let '(_, _) := ?m in _] => destruct m; simpl
           | |- context [if ?b then _ else _] => destruct b; simpl
           end; auto; try discriminate; destruct v; discriminate.
Qed.

Lemma star_mono v s s' :
  star v s s' -> (cancelled s = true -> cancelled s' = true) /\ (pc s <> GIdle -> pc s' <> GIdle).
Proof. induction 1 as [|s1 s2 s3 H _ IH]; [auto|]. destruct (step_mono _ _ _ H). tauto. Qed.

Lemma runs_started_cancelled v l s s' :
  runs v l s s' ->
  (In AStart l -> pc s' <> GIdle) /\ (In ACancel l -> cancelled s' = true).
Proof.
  induction 1 as [s s' Q|a l s s1 s2 s3 Q A Hrun IH]; [simpl; tauto|].
  destruct (star_mono _ _ _ (runs_star _ _ _ _ Hrun)) as [M1 M2].
  split; intros [->|Hin]; try (apply IH; exact Hin).
  - apply M2. inversion A; simpl; discriminate.
  - apply M1. inversion A; reflexivity.
Qed.

(** ** The README's program *)

(** A prefix of a list of [x]s is a shorter list of [x]s. *)
Lemma prefix_repeat {A} (l rest : list A) (x : A) n :
  l ++ rest = repeat x n -> l = repeat x (List.length l) /\ (List.length l <= n)%nat.
Proof.
  revert n. induction l as [|y l IH]; intros n H; [simpl; split; [reflexivity|lia]|].
  destruct n as [|n]; [discriminate|]. simpl in H. injection H as -> H.
  destruct (IH n H) as [E L]. simpl. rewrite <- E. split; [reflexivity|lia].
Qed.

Lemma sum_list_ones n : sum_list (repeat 1 n) = Z.of_nat n.
Proof.
  induction n as [|n IH]; [reflexivity|]. unfold sum_list in *. cbn [repeat fold_right].
  rewrite IH, Nat2Z.inj_succ. lia.
Qed.

Lemma script_adds_firstn k l : exists rest, script_adds l = script_adds (firstn k l) ++ rest.
Proof.
  exists (script_adds (skipn k l)). unfold script_adds. rewrite <- flat_map_app, firstn_skipn.
  reflexivity.
Qed.

(** The snapshot of a counter of [total] with [j] done, as far as the
    bounds and the bar go. *)
Definition snapshot_ok (total j : Z) : bool :=
  let ratio := (float64_of_int64 j / float64_of_int64 total)%float in
  (0 <=? int64_of_float64 (ratio * 100)%float) && (int64_of_float64 (ratio * 100)%float <=? 100) &&
  match ProgressBar.renderProgressBar NewTextReporter (ProgressBar.report_with_ratio ratio) with
  | Some _ => true | None => false
  end.

(** What the examples share: [total] calls of [Add(1)], a positive
    [total] below 2^63, and every snapshot from 0 to [total] done in
    bounds (checked by evaluation, once per program). *)
Lemma example_facts pr :
  In pr example_programs ->
  script_adds (p_body pr) = repeat 1 (Z.to_nat (p_total pr)) /\ 0 < p_total pr <= 498 /\
  forallb (fun j => snapshot_ok (p_total pr) (Z.of_nat j)) (seq 0 (S (Z.to_nat (p_total pr)))) = true.
Proof.
  intros [<-|[<-|[<-|[<-|[<-|[<-|[]]]]]]]; vm_compute; repeat split; first [reflexivity|discriminate].
Qed.

Lemma tracker_fields pr ch p :
  tracker pr ch = Some p -> total p = p_total pr /\ done p = 0.
Proof.
  unfold tracker, Progress.NewTextWithLegend, Progress.New.
  destruct (p_legend pr); destruct (p_total pr <=? 0); intros H; try discriminate;
    injection H as <-; split; reflexivity.
Qed.

Lemma renderProgressBar_ratio_only tr rep :
  pbWidth tr = pbWidth NewTextReporter ->
  ProgressBar.renderProgressBar tr rep =
  ProgressBar.renderProgressBar NewTextReporter (ProgressBar.report_with_ratio (Ratio rep)).
Proof. intros H. unfold ProgressBar.renderProgressBar. rewrite H. reflexivity. Qed.

(** C16: In every example program (the README's usage and custom
    legend, src/examples/01-simple, and the programs of part_000), at
    every point of its run and whatever the interleaving with the
    reporting goroutine, the counter holds exactly the number of loop
    iterations done so far (the [Add(1)] statements run), at most
    [total]; any snapshot [Report()] takes reports that count as [Done],
    has [Left] in [0..total], [PercentInt] in [0..100], and a progress
    bar that renders without the panic of [strings.Repeat]. *)
Theorem example_snapshots pr (r : R) ch now p k s t :
  In pr example_programs -> tracker pr ch = Some p ->
  runs (p_version pr) (firstn k (p_body pr)) (init (WithReporter p r) now) s ->
  let rep := fst (Progress.Report (prog s) t) in
  done (prog s) = Z.of_nat (List.length (script_adds (firstn k (p_body pr)))) /\
  ReportData.Done rep = done (prog s) /\
  0 <= done (prog s) <= p_total pr /\ 0 <= Left rep <= p_total pr /\ 0 <= PercentInt rep <= 100 /\
  forall tr, pbWidth tr = pbWidth NewTextReporter -> ProgressBar.renderProgressBar tr rep <> None.
Proof.
  intros Hin Hn Hr rep. destruct (example_facts pr Hin) as (Ea & Ht0 & All).
  destruct (tracker_fields pr ch p Hn) as [Tp Dp].
  pose proof (runs_star _ _ _ _ Hr) as Hs.
  pose proof Hs as Hd. apply reports_count_adds in Hd as [Hd _]; [|simpl; lia|exact Dp].
  destruct (star_keeps _ _ _ Hs) as (_ & Ht & _). simpl in Ht. rewrite Tp in Ht.
  rewrite (runs_adds _ _ _ _ Hr) in Hd. simpl in Hd.
  destruct (script_adds_firstn k (p_body pr)) as [rest E]. rewrite Ea in E.
  destruct (prefix_repeat _ _ _ _ (eq_sym E)) as [E1 L1].
  rewrite E1, sum_list_ones in Hd. set (j := List.length (script_adds (firstn k (p_body pr)))) in *.
  rewrite wrap64_small in Hd by (unfold in_int64, int64_min, int64_max; lia).
  pose proof (forallb_seq _ _ All j ltac:(lia)) as Ok.
  unfold rep. rewrite Report_nonzero by lia. unfold snapshot. cbn [fst ReportData.Done Left PercentInt Ratio].
  rewrite Ht, Hd. unfold sub64. rewrite wrap64_small by (unfold in_int64, int64_min, int64_max; lia).
  unfold snapshot_ok in Ok. apply andb_true_iff in Ok as [Ok Ob]. apply andb_true_iff in Ok as [Oa Oc].
  apply Z.leb_le in Oa. apply Z.leb_le in Oc.
  split; [reflexivity|split; [reflexivity|split; [lia|split; [lia|split; [lia|]]]]].
  intros tr Hw. rewrite renderProgressBar_ratio_only by exact Hw. cbn [Ratio].
  destruct (ProgressBar.renderProgressBar _ _); [discriminate|discriminate Ob].
Qed.

End Client.

(** ** [task()] returns *)

Section Waiting.
Context {R : Type} {RR : Reporter R}.
Hypothesis report_ok : forall x r, snd (report x r) = false.
Hypothesis finalize_ok : forall x, snd (finalize x) = false.

(** [task()] of part_000 returns: once it has called [cancel()] after
    its fifty iterations, its [<-pv.Done()] completes. *)
Corollary task_returns (p : Progress R) now s :
  runs Current (removelast (p_body task)) (init p now) s ->
  exists s', runs Current [AWaitDone] s s' /\ count_if is_fin (trace s') = 1%nat.
Proof.
  intros Hr. destruct (runs_started_cancelled _ _ _ _ Hr) as [P C].
  pose proof (runs_star _ _ _ _ Hr) as Hs.
  destruct (cancel_completes_quietly report_ok finalize_ok p now s Hs) as (s' & Q & _ & Hin & _ & Hf);
    [apply C; vm_compute; auto 200|apply P; vm_compute; auto|].
  destruct (star_keeps _ _ _ (star_trans _ _ _ _ Hs (qstar_star _ _ _ Q))) as (Kch & _).
  exists s'. split; [|exact Hf].
  eapply runs_cons; [exact Q| |apply runs_nil, qstar_refl].
  apply act_wait. rewrite Kch. exact Hin.
Qed.

End Waiting.

(** ** Witnesses *)

(** Execute a program's statements with no step of the goroutine in
    between. *)
Ltac run_acts :=
  repeat first
    [ apply runs_nil; apply qstar_refl
    | eapply runs_cons; [apply qstar_refl|constructor; try reflexivity|] ].

Definition w_p : Progress (nat * nat) :=
  mkProgress 360 0 zero_Time DefaultReportTime 0 zero_Time (0%nat, 0%nat) 0%nat.
Definition w_t0 : Time := mkTime 0 (Some 0).

Lemma example_snapshots_witness :
  exists s, runs Current (firstn 3 (p_body main_simple)) (init w_p w_t0) s /\
    done (prog s) = 1 /\ 0 <= Left (fst (Progress.Report (prog s) w_t0)) <= 360.
Proof.
  assert (Hr : exists s, runs Current (firstn 3 (p_body main_simple)) (init w_p w_t0) s)
    by (eexists; cbn; run_acts).
  destruct Hr as [s Hr]. exists s. split; [exact Hr|].
  destruct (example_snapshots main_simple (0%nat, 0%nat) 0%nat w_t0
              (mkProgress 360 0 zero_Time DefaultReportTime 0 zero_Time NewTextReporter 0%nat)
              3 s w_t0 ltac:(simpl; auto) eq_refl Hr) as (H1 & _ & _ & H2 & _).
  split; [rewrite H1; vm_compute; reflexivity|exact H2].
Defined.

End Examples.
