(* ===== verification/TwoTasks.v ===== *)
(** * TwoTasks: the second program of part_000, [task()] twice

    [main] of the second program of src/unnamed/part_000 (lines 34-40)
    prints a line with [fmt.Println], runs [task()], prints another line
    and runs [task()] again.  Each [task()] makes its own tracker with the
    progress-bar legend, so its own [TextReporter] and [bufio.Writer], on
    the same [os.Stderr]; it returns only after [<-pv.Done()].

    The model runs the two tasks one after the other, the heap (the
    [bufio.Writer]s and the world of handles) passed from the first to
    the second: [task_run] is one [task()] as a run of [Examples.runs]
    against the scheduler with the text reporter, [main2] the whole
    [main].  Sequencing them is sound because the first task's goroutine
    can do nothing more once its [doneCh] is closed: it has exited.

    Theorems: whatever the text reporter does, panicking or not, it only
    appends to its output handle ([text_report_grows], from
    [Render.Report_Finalize_on]); so in [main] the two lines reach
    [os.Stdout] in order and nothing else does, and everything the first
    tracker writes, its [Finalize] included, is on [os.Stderr] before
    anything of the second.

    Liveness ([Section Liveness]): [live_inv] holds at every point the
    goroutine of a [task()] tracker can reach and is kept by every step;
    from it [started_closes] runs the goroutine, once cancelled, to
    [close(doneCh)] from any point, a panic in [Report] included
    ([Finalize] of a reporter holding a writer does not panic); so
    [task_never_stuck]: any prefix of [task()] run under any interleaving
    can be completed. *)

From Stdlib Require Import String Ascii ZArith List Bool Lia RelationClasses.
From S2P Require Import Prelude GoRuntime ReportData TextReporter Progress GoFmt Output Render Scheduler Examples.
Import ListNotations.

Local Open Scope string_scope.
Local Open Scope Z_scope.

Module TwoTasks.
Import TextReporter Progress Scheduler Examples Output Render.

(** [os.Stdout]. *)
Definition os_Stdout : WriterHandle := 1%nat.

(** [fmt.Println(s)]: one unbuffered write of [s] and a newline to
    [os.Stdout], its error ignored. *)
Definition Println (w : World) (s : string) : World :=
  fst (os_write w os_Stdout (s ++ String (ascii_of_nat 10) "")).

Definition msg1 : string := "executing long task1...".
Definition msg2 : string := "executing long task2...".

(** One iteration of the loop of [task()] with the goroutine not
    scheduled: [<-time.After(100ms)], then [pv.Add(1)]. *)
Definition sleep_add {R} (s : St R) : St R :=
  let t := advance (clock s) (Millisecond * 100) in
  mkSt (Add (prog s) 1) t (cancelled s) (closed s) (pc s) (trace s ++ [EvAdd 1]).

Fixpoint loop_state {R} (n : nat) (s : St R) : St R :=
  match n with O => s | S n' => loop_state n' (sleep_add s) end.

(** The state one [task()] starts from: its tracker [p] holding the text
    reporter over the heap [h] (the [bufio] writers and the handles),
    nothing started, at time [t]. *)
Definition task_init (p : Progress TextReporter) (h : Heap) (t : Time) : St (TextReporter * Heap) :=
  init (WithReporter p (reporter p, h)) t.

Section Main.
Variable tz : Z.
Variable fo : Flags -> Value -> string -> string.

#[local] Instance RR : Reporter (TextReporter * Heap) := Render.text_reporter tz fo.

(** The heap a state's reporter writes through. *)
Definition heap_of (s : St (TextReporter * Heap)) : Heap := snd (reporter (prog s)).

(** One call of [task()] on the heap [h] at time [t], ending in [s]: its
    tracker ([gopv.NewTextWithLegend(50, ...)]) on a fresh channel, and
    its statements, [<-pv.Done()] last. *)
Inductive task_run (h : Heap) (t : Time) : St (TextReporter * Heap) -> Prop :=
| task_run_intro ch p s :
    tracker task ch = Some p ->
    runs Current (p_body task) (task_init p h t) s ->
    task_run h t s.

(** [func main()]: [fmt.Println], [task()], [fmt.Println], [task()]; the
    two tasks end in [s1] and [s2]. *)
Inductive main2 (w0 : World) (t0 : Time) : St (TextReporter * Heap) -> St (TextReporter * Heap) -> Prop :=
| main2_intro s1 s2 :
    task_run (mkHeap [] (Println w0 msg1)) t0 s1 ->
    task_run (mkHeap (store (heap_of s1)) (Println (world (heap_of s1)) msg2)) (clock s1) s2 ->
    main2 w0 t0 s1 s2.

End Main.

(** ** The reporter's state along a run *)

Section Reporting.
Context {R : Type} {RR : Reporter R}.
Variable P : R -> R -> Prop.
Context {P_pre : PreOrder P}.
Hypothesis P_report : forall x rep, P x (fst (report x rep)).
Hypothesis P_finalize : forall x, P x (fst (finalize x)).

Lemma Report_keeps_reporter (p : Progress R) now : reporter (snd (Progress.Report p now)) = reporter p.
Proof. unfold Progress.Report. destruct (total p =? 0); reflexivity. Qed.

(** A relation that every [Report] and [Finalize] of the reporter
    satisfies holds between the reporter before and after any run. *)
Lemma step_reporter v s s' : step v s s' -> P (reporter (prog s)) (reporter (prog s')).
Proof.
  destruct 1 as [s Hi|s n|s d Hd|s Hc|s Hp|s Hp|s dl Hp Hc|s dl Hp Hd|s b Hp|s b Hp];
    try reflexivity.
  1,2: unfold do_report; pose proof (Report_keeps_reporter (prog s) (clock s)) as K;
       destruct (Progress.Report (prog s) (clock s)) as [r p'];
       pose proof (P_report (reporter p') r) as HP;
       destruct (report (reporter p') r) as [x []]; simpl in *; rewrite <- K; exact HP.
  - unfold do_finalize. pose proof (P_finalize (reporter (prog s))) as HP.
    destruct (finalize (reporter (prog s))) as [x []]; exact HP.
  - unfold do_close. destruct (existsb _ _); reflexivity.
Qed.

Lemma star_reporter v s s' : star v s s' -> P (reporter (prog s)) (reporter (prog s')).
Proof.
  induction 1 as [|s1 s2 s3 H _ IH]; [reflexivity|].
  etransitivity; [apply (step_reporter _ _ _ H)|exact IH].
Qed.

End Reporting.

(** Closed channels stay closed. *)
Lemma step_closed v {R} {RR : Reporter R} (s s' : St R) :
  step v s s' -> forall ch, In ch (closed s) -> In ch (closed s').
Proof.
  destruct 1; unfold do_report, do_finalize, do_close, set_pc; simpl; auto;
    repeat match goal with
           | |- context [let '(_, _) := ?m in _] => destruct m; simpl
           | |- context [if ?b then _ else _] => destruct b; simpl
           end; auto.
Qed.

Lemma star_closed v {R} {RR : Reporter R} (s s' : St R) :
  star v s s' -> forall ch, In ch (closed s) -> In ch (closed s').
Proof. induction 1 as [|s1 s2 s3 H _ IH]; [auto|]. intros ch Hc. apply IH, (step_closed _ _ _ H), Hc. Qed.

(** A program that waits on [<-pv.Done()] ends with [doneCh] closed. *)
Lemma runs_wait_closed {R} {RR : Reporter R} v l (s s' : St R) :
  runs v l s s' -> In AWaitDone l -> In (doneCh (prog s)) (closed s').
Proof.
  induction 1 as [s s' Q|a l s s1 s2 s3 Q A Hr IH]; [intros []|].
  pose proof (star_keeps _ _ _ (qstar_star _ _ _ Q)) as [K1 _].
  pose proof (star_keeps _ _ _ (act_star _ _ _ _ A)) as [K2 _].
  intros [Ha|Hin].
  - subst a. inversion A; subst. apply (star_closed _ _ _ (runs_star _ _ _ _ Hr)). congruence.
  - rewrite <- K1, <- K2. exact (IH Hin).
Qed.

(** ** The text reporter appends to its handle only *)

(** The reporter [y] is [x] later: on the handle [hd] if [x] was, and its
    world grown on [hd] only. *)
Definition rep_grows (hd : WriterHandle) (x y : TextReporter * Heap) : Prop :=
  on_handle hd (fst x) (snd x) -> on_handle hd (fst y) (snd y) /\ grows hd (world (snd x)) (world (snd y)).

#[export] Instance rep_grows_pre hd : PreOrder (rep_grows hd).
Proof.
  split.
  - intros x H. split; [exact H|apply grows_refl].
  - intros x y z H1 H2 H. destruct (H1 H) as [H1' G1]. destruct (H2 H1') as [H2' G2].
    split; [exact H2'|eapply grows_trans; eassumption].
Qed.

Lemma text_report_grows tz fo hd x rep : rep_grows hd x (fst (@report _ (RR tz fo) x rep)).
Proof.
  destruct x as [r h]. intros Hon. simpl in Hon.
  destruct (Report_Finalize_on tz fo hd r h rep Hon) as [H _]. simpl.
  destruct (Render.Report tz fo r h rep) as [[r' h'] b]. exact H.
Qed.

Lemma text_finalize_grows tz fo hd x : rep_grows hd x (fst (@finalize _ (RR tz fo) x)).
Proof.
  destruct x as [r h]. intros Hon. simpl in Hon.
  destruct (Report_Finalize_on tz fo hd r h zero_Report Hon) as [_ H]. simpl.
  destruct (Render.Finalize r h) as [[r' h'] b]. exact H.
Qed.

(** ** One [task()] *)

(** The loop can run without the goroutine being scheduled. *)
Lemma runs_work_loop {R} {RR' : Reporter R} v n l (s s' : St R) :
  runs v l (loop_state n s) s' -> runs v (work_loop n ++ l)%list s s'.
Proof.
  revert s. induction n as [|n IH]; intros s H; [exact H|].
  change (work_loop (S n) ++ l)%list with (ASleep (Millisecond * 100) :: AAdd 1 :: (work_loop n ++ l))%list.
  eapply runs_cons; [apply qstar_refl|apply act_sleep; reflexivity|].
  eapply runs_cons; [apply qstar_refl|apply act_add|]. exact (IH _ H).
Qed.

Lemma task_waits : In AWaitDone (p_body task).
Proof. unfold task; cbn [p_body]. right. apply in_or_app. right. simpl. auto. Qed.

Lemma task_tracker_output ch p : tracker task ch = Some p -> output (reporter p) = os_Stderr.
Proof. unfold tracker, task. simpl. intros H. injection H as <-. reflexivity. Qed.

(** A [task()] on a heap whose writers are all on [os.Stderr] only
    appends to [os.Stderr], keeps its writers there, and returns with its
    [Finalize] run exactly once. *)
Lemma task_run_facts tz fo h t s :
  task_run tz fo h t s -> Forall (fun b => wr b = os_Stderr) (store h) ->
  on_handle os_Stderr (fst (reporter (prog s))) (heap_of s) /\
  grows os_Stderr (world h) (world (heap_of s)) /\ count_if is_fin (trace s) = 1%nat.
Proof.
  intros [ch p s0 Ht Hr] F. pose proof (runs_star _ _ _ _ Hr) as Hs.
  pose proof (star_reporter (rep_grows os_Stderr) (text_report_grows tz fo _) (text_finalize_grows tz fo _) _ _ _ Hs) as G.
  destruct (G (conj (task_tracker_output ch p Ht) F)) as [On Gr].
  split; [exact On|split; [exact Gr|]].
  apply (Done_after_Finalize _ _ _ _ Hs). exact (runs_wait_closed _ _ _ _ Hr task_waits).
Qed.

Lemma Println_appended w s :
  fails w os_Stdout = false -> appended w (Println w s) os_Stdout (s ++ String (ascii_of_nat 10) "").
Proof.
  intros Hf. unfold Println.
  destruct (os_write_healthy w os_Stdout (s ++ String (ascii_of_nat 10) "") Hf) as [-> A]. exact A.
Qed.

(** ** [main] *)

Definition nl : string := String (ascii_of_nat 10) "".

Ltac hd_neq := unfold os_Stdout, os_Stderr; discriminate.

(** C17: In the second program of part_000, [main] prints its two lines
    on [os.Stdout] in order and nothing else reaches [os.Stdout]; each
    [task()] returns with its tracker's [Finalize] run exactly once; and
    everything the first tracker writes to [os.Stderr], its [Finalize]
    included, comes before anything the second one writes, whatever the
    schedule of each task's goroutine: [<-pv.Done()] orders them. *)
Theorem main2_output tz fo w0 t0 s1 s2 :
  main2 tz fo w0 t0 s1 s2 -> fails w0 os_Stdout = false ->
  written (world (heap_of s2)) os_Stdout = written w0 os_Stdout ++ (msg1 ++ nl) ++ (msg2 ++ nl) /\
  count_if is_fin (trace s1) = 1%nat /\ count_if is_fin (trace s2) = 1%nat /\
  exists out1 out2,
    written (world (heap_of s1)) os_Stderr = written w0 os_Stderr ++ out1 /\
    written (world (heap_of s2)) os_Stderr = written w0 os_Stderr ++ out1 ++ out2.
Proof.
  intros M Hf. destruct M as [s1 s2 T1 T2].
  destruct (task_run_facts _ _ _ _ _ T1 (Forall_nil _)) as ([_ F1] & G1 & C1).
  destruct (task_run_facts _ _ _ _ _ T2 F1) as (_ & G2 & C2). cbn [world store] in G1, G2.
  destruct (Println_appended w0 msg1 Hf) as (P1a & P1b & P1c).
  destruct G1 as [o1 (A1 & B1 & E1)].
  assert (Hf1 : fails (world (heap_of s1)) os_Stdout = false) by (rewrite E1, P1c; exact Hf).
  destruct (Println_appended _ msg2 Hf1) as (P2a & P2b & P2c).
  destruct G2 as [o2 (A2 & B2 & E2)].
  split; [|split; [exact C1|split; [exact C2|exists o1, o2]]].
  - rewrite B2, P2a, B1, P1a by hd_neq. now rewrite <- !str_app_assoc.
  - rewrite A2, P2b, A1, P1b by hd_neq. split; [reflexivity|now rewrite <- !str_app_assoc].
Qed.

(** ** Every [task()] returns *)

Section Liveness.
Variable tz : Z.
Variable fo : Flags -> Value -> string -> string.

#[local] Instance RT : Reporter (TextReporter * Heap) := Render.text_reporter tz fo.

Definition rep_wf (x : TextReporter * Heap) : Prop := heap_wf (fst x) (snd x).

(** After its first [Report] the reporter has its writer. *)
Definition rep_ready (x : TextReporter * Heap) : Prop := rep_wf x /\ writer (fst x) <> None.

Lemma text_report_ready x rep : rep_wf x -> rep_ready (fst (report x rep)).
Proof.
  destruct x as [r h]. intros Hw. simpl.
  pose proof (proj1 (Report_Finalize_wf tz fo r h rep Hw)) as W.
  pose proof (Report_keeps_prepared tz fo r h rep) as K.
  pose proof (prepare_wf r h Hw) as P.
  destruct (prepare r h) as [r0 h0]. destruct (Render.Report tz fo r h rep) as [[r' h'] b].
  destruct K as (_ & K & _). destruct P as (_ & [i Hi] & _).
  split; [exact W|cbn [fst]; rewrite K, Hi; discriminate].
Qed.

(** [Finalize] of a reporter with its writer does not panic, and keeps it. *)
Lemma Finalize_no_panic r h :
  heap_wf r h -> writer r <> None ->
  let '(r', h', p) := Finalize r h in r' = r /\ heap_wf r' h' /\ p = false.
Proof.
  intros Hw Hn. pose proof (proj2 (Report_Finalize_wf tz fo r h zero_Report Hw)) as W.
  destruct (writer r) as [i|] eqn:Hi; [|congruence].
  assert (Hl : (i < List.length (store h))%nat) by (apply (proj1 Hw); exact Hi).
  revert W. unfold Finalize.
  pose proof (writeString_inv r h (String (ascii_of_nat 10) "")) as Hs1.
  destruct (writeString r h _) as [h1 []]; destruct Hs1 as (L1 & _ & P1);
    [specialize (P1 i Hi Hl); discriminate|].
  pose proof (flush_inv r h1) as Hs2. destruct (flush r h1) as [h2 p2]. destruct Hs2 as (_ & _ & P2).
  intros W. split; [reflexivity|split; [exact W|apply (P2 i Hi); lia]].
Qed.

Lemma text_finalize_ok x : rep_ready x -> snd (finalize x) = false /\ rep_ready (fst (finalize x)).
Proof.
  destruct x as [r h]. intros [Hw Hn]. simpl in Hw, Hn. pose proof (Finalize_no_panic r h Hw Hn) as F.
  simpl. destruct (Finalize r h) as [[r' h'] p]. destruct F as (-> & W & ->).
  split; [reflexivity|split; assumption].
Qed.

(** What the goroutine has done at each point: before its first
    [Report] nothing; from then on it holds a writer; [doneCh] is closed
    exactly when it has returned. *)
Definition live_inv (s : St (TextReporter * Heap)) : Prop :=
  rep_wf (reporter (prog s)) /\
  match pc s with
  | GIdle | GInit => closed s = []
  | GLoop | GSelect _ | GFinalize _ | GClose _ => closed s = [] /\ writer (fst (reporter (prog s))) <> None
  | GExited | GCrashed => In (doneCh (prog s)) (closed s)
  end.

Lemma do_report_inv s :
  rep_wf (reporter (prog s)) -> closed s = [] -> live_inv (do_report Current s).
Proof.
  intros Hw Hc. unfold do_report. pose proof (Report_keeps_reporter (prog s) (clock s)) as K.
  destruct (Progress.Report (prog s) (clock s)) as [r p']. cbn [snd] in K. rewrite <- K in Hw.
  pose proof (text_report_ready (reporter p') r Hw) as [Hw' Hn].
  destruct (report (reporter p') r) as [x []]; unfold live_inv; simpl; auto.
Qed.

Lemma live_inv_step s s' : live_inv s -> step Current s s' -> live_inv s'.
Proof.
  intros [Hw Hq]. destruct 1 as [s Hi|s n|s d Hd|s Hc|s Hp|s Hp|s dl Hp Hc|s dl Hp Hd|s b Hp|s b Hp];
    rewrite ?Hi, ?Hp in Hq.
  1-4,6,7: split; [exact Hw|exact Hq].
  1,2: apply do_report_inv; [exact Hw|apply Hq].
  - destruct Hq as [Hc Hn]. unfold do_finalize. destruct (text_finalize_ok _ (conj Hw Hn)) as [Hf [Hw' Hn']].
    destruct (finalize (reporter (prog s))) as [x p]. simpl in Hf. subst p.
    unfold live_inv. simpl. auto.
  - destruct Hq as [Hc _]. unfold do_close. rewrite Hc. simpl.
    split; [exact Hw|]. destruct b; left; reflexivity.
Qed.

Lemma live_inv_star s s' : star Current s s' -> live_inv s -> live_inv s'.
Proof. apply star_inv. intros x y H S. exact (live_inv_step x y H S). Qed.

(** The goroutine, run alone from [s], closes [doneCh]. *)
Definition closes (s : St (TextReporter * Heap)) : Prop :=
  exists s', qstar Current s s' /\ In (doneCh (prog s)) (closed s').

Lemma closes_after s s1 : quiet_step Current s s1 -> closes s1 -> closes s.
Proof.
  intros Q (s' & Q' & Hin). exists s'. split; [eapply qstar_step; eassumption|].
  destruct (star_keeps _ _ _ (qstar_star _ _ _ (qstar_step _ _ _ _ Q (qstar_refl _ _)))) as [K _].
  congruence.
Qed.

Lemma adds_snoc tr e : (forall n, e <> EvAdd n) -> adds (tr ++ [e]) = adds tr.
Proof. intros H. rewrite adds_app. destruct e; try (simpl; apply app_nil_r). now destruct (H n). Qed.

(** A quiet step [H] of the goroutine, its event (if any) not an [Add]. *)
Ltac quiet H :=
  split; [exact H|split; [|split; [try (apply adds_snoc; discriminate); reflexivity|reflexivity]]];
  match goal with Hp : pc _ = _ |- _ => rewrite Hp; discriminate end.

(** The steps of the goroutine after [cancel()], each from its point. *)
Lemma close_closes s b : pc s = GClose b -> closed s = [] -> closes s.
Proof.
  intros Hp Hc. pose proof (step_close Current s b Hp) as S. unfold do_close in S. rewrite Hc in S.
  eapply closes_after; [quiet S|]. eexists. split; [apply qstar_refl|left; reflexivity].
Qed.

Lemma finalize_closes s b :
  pc s = GFinalize b -> closed s = [] -> rep_ready (reporter (prog s)) -> closes s.
Proof.
  intros Hp Hc Hr. destruct (text_finalize_ok _ Hr) as [Hf _].
  pose proof (step_finalize Current s b Hp) as S. unfold do_finalize in S.
  destruct (finalize (reporter (prog s))) as [x p]. simpl in Hf. subst p.
  eapply closes_after; [quiet S|]. apply (close_closes _ b); [reflexivity|exact Hc].
Qed.

Lemma select_closes s dl :
  pc s = GSelect dl -> cancelled s = true -> closed s = [] -> rep_ready (reporter (prog s)) -> closes s.
Proof.
  intros Hp Hc Hcl Hr. pose proof (step_done Current s dl Hp Hc) as S.
  eapply closes_after; [quiet S|]. apply (finalize_closes _ false); assumption || reflexivity.
Qed.

Lemma loop_closes s :
  pc s = GLoop -> cancelled s = true -> closed s = [] -> rep_ready (reporter (prog s)) -> closes s.
Proof.
  intros Hp Hc Hcl Hr. pose proof (step_enter Current s Hp) as S.
  eapply closes_after; [quiet S|]. eapply select_closes; [reflexivity|assumption..].
Qed.

(** After [cancel()], from any point it can be at, the goroutine closes
    [doneCh]: its first [Report] (panicking or not), the [select] that
    sees [ctx.Done()], [Finalize], [close]. *)
Lemma started_closes s :
  live_inv s -> cancelled s = true -> pc s <> GIdle -> closes s.
Proof.
  intros [Hw Hq] Hc Hi. destruct (pc s) eqn:Hp; [| |destruct Hq as [Hcl Hn]..| |].
  - contradiction.
  - pose proof (step_first Current s Hp) as S. pose proof (do_report_inv s Hw Hq) as I.
    unfold do_report in S, I. destruct (Progress.Report (prog s) (clock s)) as [r p'].
    destruct (report (reporter p') r) as [x []]; destruct I as [Hw' [Hcl' Hn']];
      (eapply closes_after; [quiet S|]).
    + apply (finalize_closes _ true); [reflexivity|exact Hcl'|split; assumption].
    + apply loop_closes; [reflexivity|exact Hc|exact Hcl'|split; assumption].
  - apply loop_closes; [exact Hp|exact Hc|exact Hcl|split; assumption].
  - eapply select_closes; [exact Hp|exact Hc|exact Hcl|split; assumption].
  - eapply finalize_closes; [exact Hp|exact Hcl|split; assumption].
  - eapply close_closes; [exact Hp|exact Hcl].
  - exists s. split; [apply qstar_refl|exact Hq].
  - exists s. split; [apply qstar_refl|exact Hq].
Qed.

(** ** The rest of [task()] can always run *)

Lemma runs_wait_end (s s' : St (TextReporter * Heap)) :
  qstar Current s s' -> In (doneCh (prog s)) (closed s') -> runs Current [AWaitDone] s s'.
Proof.
  intros Q Hin. eapply runs_cons; [exact Q|apply act_wait|apply runs_nil, qstar_refl].
  destruct (star_keeps _ _ _ (qstar_star _ _ _ Q)) as [Kq _]. rewrite Kq. exact Hin.
Qed.

(** The statements of the loop: a sleep of a positive duration or an [Add]. *)
Definition plain (a : Action) : Prop :=
  match a with ASleep d => 0 < d | AAdd _ => True | _ => False end.

Lemma work_loop_plain n : Forall plain (work_loop n).
Proof.
  induction n as [|n IH]; [constructor|].
  constructor; [simpl; unfold Millisecond; lia|constructor; [exact I|exact IH]].
Qed.

(** A started [task()], its goroutine in any reachable state: once
    cancelled, [<-pv.Done()] returns; before, the loop's statements,
    [cancel()] and [<-pv.Done()] run. *)
Lemma completes_after_cancel s :
  live_inv s -> pc s <> GIdle -> cancelled s = true -> exists s', runs Current [AWaitDone] s s'.
Proof.
  intros I Hi Hc. destruct (started_closes s I Hc Hi) as (s' & Q & Hin).
  exists s'. exact (runs_wait_end _ _ Q Hin).
Qed.

Lemma completes_after_start m s :
  Forall plain m -> live_inv s -> pc s <> GIdle -> cancelled s = false ->
  exists s', runs Current (m ++ [ACancel; AWaitDone])%list s s'.
Proof.
  intros Hm. revert s. induction Hm as [|a m Ha Hm IH]; intros s I Hi Hc.
  - assert (A : act Current ACancel s (mkSt (prog s) (clock s) true (closed s) (pc s) (trace s ++ [EvCancel])))
      by (apply act_cancel; exact Hc).
    destruct (completes_after_cancel _ (live_inv_star _ _ (act_star _ _ _ _ A) I) Hi eq_refl) as [s' R].
    exists s'. eapply runs_cons; [apply qstar_refl|exact A|exact R].
  - assert (A : exists s1, act Current a s s1 /\ pc s1 = pc s /\ cancelled s1 = cancelled s).
    { destruct a; try contradiction; eexists; (split; [constructor; try exact Ha|split; reflexivity]). }
    destruct A as (s1 & A & P1 & C1).
    destruct (IH s1) as [s' R]; [exact (live_inv_star _ _ (act_star _ _ _ _ A) I)|congruence|congruence|].
    exists s'. eapply runs_cons; [apply qstar_refl|exact A|exact R].
Qed.

(** What can be left of [work_loop n; cancel(); <-pv.Done()] once a
    prefix [l1] has run. *)
Lemma loop_suffix n l1 l2 :
  (l1 ++ l2 = work_loop n ++ [ACancel; AWaitDone])%list ->
  (exists m, l2 = (m ++ [ACancel; AWaitDone])%list /\ Forall plain m /\ ~ In ACancel l1) \/
  ((l2 = [AWaitDone] \/ l2 = []) /\ In ACancel l1).
Proof.
  revert l1. induction n as [|n IH]; intros l1 E.
  - destruct l1 as [|a [|b [|c l1]]]; simpl in E.
    + left. exists []. split; [exact E|split; [constructor|intros []]].
    + injection E as <- E. right. split; [left; exact E|left; reflexivity].
    + injection E as <- <- E. right. split; [right; exact E|left; reflexivity].
    + injection E as _ _ E. discriminate.
  - destruct l1 as [|a [|b l1]]; simpl in E.
    + left. exists (work_loop (S n)). split; [exact E|split; [apply work_loop_plain|intros []]].
    + injection E as Ea E. subst a. left. exists (AAdd 1 :: work_loop n). rewrite E.
      split; [reflexivity|split; [constructor; [exact I|apply work_loop_plain]|]].
      intros [H|[]]. discriminate.
    + injection E as Ea Eb E. subst a b. destruct (IH l1 E) as [(m & E2 & Hm & Hn)|[H Hin]]; [left|right].
      * exists m. split; [exact E2|split; [exact Hm|]]. intros [H|[H|H]]; [discriminate..|exact (Hn H)].
      * split; [exact H|right; right; exact Hin].
Qed.

Lemma qstar_idle v (s s' : St (TextReporter * Heap)) : qstar v s s' -> pc s = GIdle -> s' = s.
Proof. destruct 1 as [|s1 s2 s3 (_ & Hp & _) _]; [reflexivity|contradiction]. Qed.

Lemma runs_not_cancelled v l (s s' : St (TextReporter * Heap)) :
  runs v l s s' -> ~ In ACancel l -> cancelled s' = cancelled s.
Proof.
  induction 1 as [s s' Q|a l s s1 s2 s3 Q A _ IH]; intros Hn; [exact (proj2 (qstar_adds _ _ _ Q))|].
  rewrite IH by (intros H; apply Hn; right; exact H).
  rewrite <- (proj2 (qstar_adds _ _ _ Q)).
  destruct A; [reflexivity..|exfalso; apply Hn; left; reflexivity|reflexivity].
Qed.

(** The tracker of [task()] on a heap whose buffers are well formed:
    no writer yet, no compiled legend. *)
Lemma task_tracker_inv ch p h t :
  tracker task ch = Some p -> Forall writer_wf (store h) ->
  live_inv (task_init p h t).
Proof.
  intros Ht F. unfold tracker, task in Ht. simpl in Ht. injection Ht as <-.
  split; [|reflexivity]. unfold rep_wf, heap_wf. simpl.
  split; [discriminate|split; [exact F|intros E; contradiction]].
Qed.

(** [task()] from its first statement: run with its goroutine scheduled
    only after [cancel()]. *)
Lemma task_from_init ch p h t :
  tracker task ch = Some p -> Forall writer_wf (store h) ->
  exists s', runs Current (p_body task) (task_init p h t) s'.
Proof.
  intros Ht F. pose proof (task_tracker_inv ch p h t Ht F) as I.
  set (s0 := task_init p h t) in *.
  assert (A : act Current AStart s0 (mkSt (start_times (prog s0) (clock s0)) (clock s0) (cancelled s0)
                                       (closed s0) GInit (trace s0))) by (apply act_start; reflexivity).
  destruct (completes_after_start (work_loop 50) _ (work_loop_plain 50)
              (live_inv_star _ _ (act_star _ _ _ _ A) I) ltac:(discriminate) eq_refl) as [s' R].
  exists s'. eapply runs_cons; [apply qstar_refl|exact A|exact R].
Qed.

(** C18: [task()] never gets stuck: whatever prefix of its statements
    has run, with the reporting goroutine interleaved in any way the
    scheduler allows (its reports, its timer, a panic in [Report]), the
    rest of [task()] can still run to the end, [<-pv.Done()] included:
    after [cancel()] the goroutine always reaches [close(p.doneCh)]. *)
Theorem task_never_stuck ch p h t l1 l2 s :
  tracker task ch = Some p -> Forall writer_wf (store h) -> p_body task = (l1 ++ l2)%list ->
  runs Current l1 (task_init p h t) s ->
  exists s', runs Current l2 s s'.
Proof.
  intros Ht F E R. pose proof (live_inv_star _ _ (runs_star _ _ _ _ R) (task_tracker_inv ch p h t Ht F)) as I.
  destruct l1 as [|a l1].
  - inversion R as [x y Q|]; subst. rewrite (qstar_idle _ _ _ Q eq_refl). simpl in E. rewrite <- E.
    exact (task_from_init ch p h t Ht F).
  - change (p_body task) with (AStart :: work_loop 50 ++ [ACancel; AWaitDone])%list in E.
    injection E as Ea E. subst a.
    destruct (runs_started_cancelled _ _ _ _ R) as [Hst Hcn].
    pose proof (Hst (or_introl eq_refl)) as Hi.
    destruct (loop_suffix 50 l1 l2 (eq_sym E)) as [(m & -> & Hm & Hn)|[[-> | ->] Hin]].
    + apply completes_after_start; [exact Hm|exact I|exact Hi|].
      rewrite (runs_not_cancelled _ _ _ _ R); [reflexivity|intros [H|H]; [discriminate|exact (Hn H)]].
    + exact (completes_after_cancel s I Hi (Hcn (or_intror Hin))).
    + exists s. apply runs_nil, qstar_refl.
Qed.

End Liveness.

(** ** Witnesses *)

Definition w_t0 : Time := Render.at_unix 1701522000.

(** The goroutine's own step from [x], chosen by its program counter. *)
Ltac goroutine_step :=
  match goal with |- step _ ?x _ =>
    let q := eval vm_compute in (pc x) in
    match q with
    | GInit => apply step_first
    | GLoop => apply step_enter
    | GSelect ?dl => apply (step_done _ x dl); [|vm_compute; reflexivity]
    | GFinalize ?b => apply (step_finalize _ x b)
    | GClose ?b => apply (step_close _ x b)
    end; vm_compute; reflexivity
  end.

(** One quiet step of the goroutine. *)
Ltac gstep :=
  eapply qstar_step;
  [split; [goroutine_step|split; [vm_compute; discriminate|split; vm_compute; reflexivity]]|].

(** [task()] after [AStart], the goroutine's first report and one sleep:
    the rest still runs. *)
Lemma task_never_stuck_witness :
  exists p s, tracker task 0%nat = Some p /\ Forall writer_wf (store heap0) /\
    p_body task = ([AStart; ASleep (Millisecond * 100)] ++ (AAdd 1 :: work_loop 49 ++ [ACancel; AWaitDone]))%list /\
    runs (RR := RR 0 Render.w_fo) Current [AStart; ASleep (Millisecond * 100)]
      (task_init p heap0 w_t0) s /\
    exists s', runs (RR := RR 0 Render.w_fo) Current (AAdd 1 :: work_loop 49 ++ [ACancel; AWaitDone])%list s s'.
Proof.
  do 2 eexists. split; [reflexivity|]. split; [apply Forall_nil|]. split; [reflexivity|].
  match goal with |- ?A /\ _ => assert (R : A) end.
  { eapply runs_cons; [apply qstar_refl|apply act_start; reflexivity|].
    eapply runs_cons; [gstep; apply qstar_refl|apply act_sleep; vm_compute; reflexivity|].
    apply runs_nil, qstar_refl. }
  split; [exact R|]. eapply (task_never_stuck 0 Render.w_fo 0%nat _ heap0 w_t0 [AStart; ASleep (Millisecond * 100)]); [reflexivity|apply Forall_nil|reflexivity|exact R].
Defined.

(** A [task()] whose goroutine runs only after [cancel()]: its first
    report, the [select] that sees the cancellation, [Finalize], [close]. *)
Ltac task_tac :=
  eapply task_run_intro with (ch := 0%nat); [reflexivity|];
  change (p_body task) with (AStart :: work_loop 50 ++ [ACancel; AWaitDone])%list;
  eapply runs_cons; [apply qstar_refl|apply act_start; reflexivity|];
  apply runs_work_loop;
  eapply runs_cons; [apply qstar_refl|apply act_cancel; vm_compute; reflexivity|];
  eapply runs_cons;
  [ do 5 gstep; apply qstar_refl
  | apply act_wait; vm_compute; tauto
  | apply runs_nil, qstar_refl ].

(** The heap and time a [task()] starts from, evaluated: the second task
    starts where the first ended. *)
Ltac eval_start :=
  match goal with |- task_run _ _ ?h ?t _ =>
    let h' := eval vm_compute in h in let t' := eval vm_compute in t in
    replace h with h' by (vm_compute; reflexivity);
    replace t with t' by (vm_compute; reflexivity)
  end.

Lemma main2_output_witness :
  exists s1 s2, main2 0 Render.w_fo world0 w_t0 s1 s2 /\ fails world0 os_Stdout = false /\
    written (world (heap_of s2)) os_Stdout = written world0 os_Stdout ++ (msg1 ++ nl) ++ (msg2 ++ nl) /\
    count_if is_fin (trace s1) = 1%nat /\ count_if is_fin (trace s2) = 1%nat.
Proof.
  assert (M : exists s1 s2, main2 0 Render.w_fo world0 w_t0 s1 s2)
    by (do 2 eexists; constructor; [task_tac|eval_start; task_tac]).
  destruct M as (s1 & s2 & M). exists s1, s2.
  destruct (main2_output _ _ _ _ _ _ M eq_refl) as (A & B & C & _).
  split; [exact M|split; [reflexivity|split; [exact A|split; [exact B|exact C]]]].
Defined.

End TwoTasks.
